(** * Windy-Matplotlib-Manim-GeoViz: the key prompt and the ERA5 data processor

    A shallow embedding of [cacheb_path.py] and [era5_processor.py].

    Python exceptions are values of [exn]; a call either returns ([Ok]) or
    raises ([Raise]).  Methods of [ERA5DataProcessor] take the processor
    (the [self] object) and give back the outcome together with the
    processor as the call leaves it.

    The dataset is the ERA5 layout the processor is written for: three
    coordinate arrays ([valid_time], [latitude], [longitude]) and data
    variables that are arrays over (valid_time, latitude, longitude).
    Array elements, coordinate labels and time stamps are rationals: the
    values finite floating-point numbers have (the date strings of
    [date_range] are the time stamps they denote).  Comparisons of labels
    are exact.  Arithmetic is floating-point arithmetic: each operation is
    rounded to nearest, ties to even, in the binary format of its operands.
    [process_data] takes the format of the longitude coordinate as a
    parameter, [calculate_wind_speed] the format of the two component
    arrays and the function [np.sqrt] is on one element; [fsqrt] is the
    correctly rounded square root.  Infinities and NaN are not represented:
    the statements on values say where they need the range of the format.
    What xarray and pandas do in the calls the processor makes (label
    slices, positional indexing, sorting) is written out on these lists. *)

From Stdlib Require Import String Ascii Bool Arith ZArith QArith Qround Qabs.
From Stdlib Require Import Qpower Lia Lqa DecimalString List Sorted.
Import ListNotations.

Set Implicit Arguments.

(** ** Python outcomes *)

Inductive exn_kind : Type :=
| KeyboardInterrupt
| SystemExit
| ValueError
| IndexError
| KeyError
| AttributeError
| EOFError
| RuntimeError.

Inductive exn : Type :=
| Exn (kind : exn_kind) (msg : string).

Inductive result (A : Type) : Type :=
| Ok (a : A)
| Raise (e : exn).

Arguments Ok {A} a.
Arguments Raise {A} e.

Definition bind {A B : Type} (r : result A) (k : A -> result B) : result B :=
  match r with
  | Ok a => k a
  | Raise e => Raise e
  end.

Notation "x <- r ;; k" := (bind r (fun x => k))
  (at level 61, r at next level, right associativity).

(** The kinds below [Exception]: what [except Exception] catches. *)
Definition is_Exception (k : exn_kind) : bool :=
  match k with
  | KeyboardInterrupt | SystemExit => false
  | _ => true
  end.

Definition is_kind (k : exn_kind) {A : Type} (r : result A) : Prop :=
  exists msg, r = Raise (Exn k msg).

(** ** cacheb_path.py *)

Module CachebPath.

Local Open Scope string_scope.

(** [str.isspace] on the code points below 256. *)
Definition py_isspace (c : ascii) : bool :=
  let n := nat_of_ascii c in
  ((9 <=? n) && (n <=? 13) || (28 <=? n) && (n <=? 32)
   || (n =? 133) || (n =? 160))%nat.

Fixpoint lstrip (s : string) : string :=
  match s with
  | EmptyString => EmptyString
  | String c s' => if py_isspace c then lstrip s' else s
  end.

Fixpoint rstrip (s : string) : string :=
  match s with
  | EmptyString => EmptyString
  | String c s' =>
      match rstrip s' with
      | EmptyString => if py_isspace c then EmptyString else String c EmptyString
      | r => String c r
      end
  end.

Definition strip (s : string) : string := rstrip (lstrip s).

Definition prompt : string :=
  "Please enter your cacheb key to access the Earth Hub service: ".

Definition newline : string := String (ascii_of_nat 10) EmptyString.

(** [cacheb_key ()].  [typed] is what [input] does at the prompt: it returns
    the line or raises.  The second component is what was written to
    standard output: the prompt, then one printed line in the handlers. *)
Definition cacheb_key (typed : result string) : result (option string) * list string :=
  let body :=
    line <- typed ;;
    let key := strip line in
    if String.eqb key "" then Raise (Exn ValueError "Key cannot be empty")
    else Ok key in
  match body with
  | Ok key => (Ok (Some key), [prompt])
  | Raise (Exn KeyboardInterrupt _) =>
      (Ok None, [prompt; newline ++ "Key input cancelled by user"])
  | Raise (Exn k e) =>
      if is_Exception k
      then (Ok None, [prompt; "Error getting key: " ++ e])
      else (Raise (Exn k e), [prompt])
  end.

End CachebPath.

(** ** era5_processor.py: data model *)

Module ERA5.

Local Open Scope string_scope.
Local Open Scope Q_scope.

(** *** Python helpers *)

(** [str(n)] for an integer. *)
Definition str_of_int (n : Z) : string := NilZero.string_of_int (Z.to_int n).

(** A [dict] with string keys, in insertion order. *)
Definition dict (V : Type) : Type := list (string * V).

Fixpoint dict_get {V : Type} (d : dict V) (k : string) : option V :=
  match d with
  | [] => None
  | (k', v) :: d' => if String.eqb k k' then Some v else dict_get d' k
  end.

(** [d[k] = v]: an existing key keeps its place. *)
Fixpoint dict_set {V : Type} (d : dict V) (k : string) (v : V) : dict V :=
  match d with
  | [] => [(k, v)]
  | (k', v') :: d' =>
      if String.eqb k k' then (k, v) :: d' else (k', v') :: dict_set d' k v
  end.

Definition dict_keys {V : Type} (d : dict V) : list string := map fst d.

Definition dict_mem {V : Type} (d : dict V) (k : string) : bool :=
  existsb (String.eqb k) (dict_keys d).

(** A parameter that is [Union[list, dict]]: a list of names, or a mapping
    whose keys are the names. *)
Inductive names : Type :=
| NameList (l : list string)
| NameDict (d : dict string).

(** [v if isinstance(v, list) else list(v.keys())] *)
Definition names_list (v : names) : list string :=
  match v with
  | NameList l => l
  | NameDict d => dict_keys d
  end.

(** [l[::step]] for a positive step, walking the list with a counter. *)
Fixpoint stride_from {A : Type} (step k : nat) (l : list A) : list A :=
  match l with
  | [] => []
  | x :: l' =>
      match k with
      | O => x :: stride_from step (step - 1) l'
      | S k' => stride_from step k' l'
      end
  end.

Definition stride {A : Type} (step : nat) (l : list A) : list A :=
  stride_from step 0 l.

(** The elements [l[::step]] for a non-zero step: a negative step walks from
    the last element backwards. *)
Definition strided {A : Type} (step : Z) (l : list A) : list A :=
  if (0 <? step)%Z then stride (Z.to_nat step) l
  else stride (Z.to_nat (- step)) (rev l).

(** [l[::step]]: a zero step is refused. *)
Definition slice_step {A : Type} (l : list A) (step : Z) : result (list A) :=
  if (step =? 0)%Z then Raise (Exn ValueError "slice step cannot be zero")
  else Ok (strided step l).

(** *** Arrays and datasets

    A data variable is an array over (valid_time, latitude, longitude), held
    as nested lists in that order, with its attributes.  A dataset has the
    three coordinate arrays and its data variables by name. *)

Definition grid : Type := list (list (list Q)).

Record DataArray : Type := {
  values : grid;
  attrs : dict string
}.

Record Dataset : Type := {
  valid_time : list Q;
  latitude : list Q;
  longitude : list Q;
  data_vars : dict DataArray
}.

Definition get3 (g : grid) (t i j : nat) : option Q :=
  match nth_error g t with
  | Some plane =>
      match nth_error plane i with
      | Some row => nth_error row j
      | None => None
      end
  | None => None
  end.

(** A dataset is well formed when every variable has the shape its
    coordinates give and no name occurs twice. *)
Definition shape_ok (ds : Dataset) (g : grid) : bool :=
  (length g =? length (valid_time ds))%nat
  && forallb (fun plane =>
       (length plane =? length (latitude ds))%nat
       && forallb (fun row => (length row =? length (longitude ds))%nat) plane) g.

(** The keys of a [dict] are distinct. *)
Fixpoint unique (l : list string) : bool :=
  match l with
  | [] => true
  | k :: l' => negb (existsb (String.eqb k) l') && unique l'
  end.

Definition wf_dataset (ds : Dataset) : bool :=
  unique (dict_keys (data_vars ds))
  && forallb (fun kv => shape_ok ds (values (snd kv))) (data_vars ds).

Definition is_coord_name (name : string) : bool :=
  String.eqb name "valid_time" || String.eqb name "latitude"
  || String.eqb name "longitude".

(** A coordinate read as an array, as it enters arithmetic with a variable
    on the grid: its labels spread over the grid.  (On its own the
    coordinate is an array along its one dimension; the statements on the
    values of the wind speed take data variables as components.) *)
Definition coord_grid (ds : Dataset) (name : string) : grid :=
  map (fun t =>
    map (fun la =>
      map (fun lo =>
        if String.eqb name "valid_time" then t
        else if String.eqb name "latitude" then la else lo)
        (longitude ds))
      (latitude ds))
    (valid_time ds).

(** [name in ds]: data variables and coordinates. *)
Definition ds_contains (ds : Dataset) (name : string) : bool :=
  dict_mem (data_vars ds) name || is_coord_name name.

(** [ds[name]] *)
Definition ds_getitem (ds : Dataset) (name : string) : result DataArray :=
  match dict_get (data_vars ds) name with
  | Some da => Ok da
  | None =>
      if is_coord_name name
      then Ok {| values := coord_grid ds name; attrs := [] |}
      else Raise (Exn KeyError name)
  end.

(** [ds[name] = da], for [name] not the name of a coordinate. *)
Definition ds_setitem (ds : Dataset) (name : string) (da : DataArray) : Dataset :=
  {| valid_time := valid_time ds;
     latitude := latitude ds;
     longitude := longitude ds;
     data_vars := dict_set (data_vars ds) name da |}.

(** [ds[name].attrs = a] *)
Definition ds_set_attrs (ds : Dataset) (name : string) (a : dict string) : Dataset :=
  match dict_get (data_vars ds) name with
  | Some da => ds_setitem ds name {| values := values da; attrs := a |}
  | None => ds
  end.

(** Applying a list operation along one axis of every variable. *)
Definition on_valid_time (f : grid -> grid) (g : grid) : grid := f g.
Definition on_latitude (f : list (list Q) -> list (list Q)) (g : grid) : grid :=
  map f g.
Definition on_longitude (f : list Q -> list Q) (g : grid) : grid :=
  map (map f) g.

Definition map_vars (f : grid -> grid) (vars : dict DataArray) : dict DataArray :=
  map (fun kv => (fst kv, {| values := f (values (snd kv)); attrs := attrs (snd kv) |}))
      vars.

(** *** Floating-point arithmetic *)

(** A binary format: the number of significand bits, the exponent of its
    smallest positive (subnormal) value, and the power of two its finite
    values stay below. *)
Record float_format : Type := {
  prec : Z;
  emin : Z;
  emax : Z
}.

Definition binary64 : float_format :=
  {| prec := 53; emin := -1074; emax := 1024 |}.
Definition binary32 : float_format :=
  {| prec := 24; emin := -149; emax := 128 |}.

(** The smallest positive value the format holds with its full precision,
    and the largest relative error of one rounding from there on. *)
Definition min_normal (fmt : float_format) : Q :=
  2 ^ (emin fmt + prec fmt - 1).
Definition unit_roundoff (fmt : float_format) : Q := 2 ^ (- prec fmt).

(** The integer [e] with [2 ^ e <= x < 2 ^ (e + 1)], for a positive [x]. *)
Definition ilog2 (x : Q) : Z :=
  let e := (Z.log2 (Qnum x) - Z.log2 (Z.pos (Qden x)))%Z in
  if Qle_bool (2 ^ e) x then e else (e - 1)%Z.

(** The nearest integer, a tie going to the even one. *)
Definition rne (y : Q) : Z :=
  let f := Qfloor y in
  match Qcompare (y - inject_Z f) (1 # 2) with
  | Lt => f
  | Gt => (f + 1)%Z
  | Eq => if Z.even f then f else (f + 1)%Z
  end.

(** The value of the format nearest to [x] (ties to even): the nearest
    multiple of the spacing the format has at the size of [x]. *)
Definition round (fmt : float_format) (x : Q) : Q :=
  if Qeq_bool x 0 then 0
  else
    let e := Z.max (ilog2 (Qabs x) - (prec fmt - 1)) (emin fmt) in
    Qred (inject_Z (rne (x / 2 ^ e)) * 2 ^ e).

(** The integer part, towards zero. *)
Definition Qtrunc (q : Q) : Z := if Qle_bool 0 q then Qfloor q else Qceiling q.

(** C's [fmod]: the remainder with the sign of [x]; it is exact. *)
Definition fmod (x y : Q) : Q := x - y * inject_Z (Qtrunc (x / y)).

(** The spacing of the format at the square root of a positive [x]. *)
Definition sqrt_exponent (fmt : float_format) (x : Q) : Z :=
  Z.max (ilog2 x / 2 - (prec fmt - 1)) (emin fmt).

(** The square root rounded to the format, as IEEE 754 asks of [sqrt]:
    the integer root of the scaled argument, moved up by one when the
    argument is past the square of the midpoint.  (Of a negative number the
    root is not-a-number, which is not represented; the processor takes the
    root of a sum of squares.) *)
Definition fsqrt (fmt : float_format) (x : Q) : Q :=
  if Qle_bool x 0 then 0
  else
    let e := sqrt_exponent fmt x in
    let y := x / 2 ^ (2 * e) in
    let n := Z.sqrt (Qfloor y) in
    let m :=
      match Qcompare y ((inject_Z n + (1 # 2)) * (inject_Z n + (1 # 2))) with
      | Lt => n
      | Gt => (n + 1)%Z
      | Eq => if Z.even n then n else (n + 1)%Z
      end in
    Qred (inject_Z m * 2 ^ e).

Arguments round : simpl never.
Arguments fsqrt : simpl never.

(** *** Element-wise arithmetic

    On arrays of floating-point numbers of format [fmt].  The result
    carries no attributes here (whether it keeps those of its operands
    depends on the version of xarray). *)
Fixpoint zip_with {A B C : Type} (f : A -> B -> C) (a : list A) (b : list B) : list C :=
  match a, b with
  | x :: a', y :: b' => f x y :: zip_with f a' b'
  | _, _ => []
  end.

Definition da_map (f : Q -> Q) (a : DataArray) : DataArray :=
  {| values := map (map (map f)) (values a); attrs := [] |}.

(** [a + b] *)
Definition da_add (fmt : float_format) (a b : DataArray) : DataArray :=
  {| values :=
       zip_with (zip_with (zip_with (fun x y => round fmt (x + y))))
                (values a) (values b);
     attrs := [] |}.

(** [a ** 2], which numpy evaluates as the product [a * a]. *)
Definition da_square (fmt : float_format) (a : DataArray) : DataArray :=
  da_map (fun x => round fmt (x * x)) a.

(** *** Label-based selection (pandas index) *)

Definition Qltb (x y : Q) : bool := negb (Qle_bool y x).

Fixpoint is_monotonic_increasing (l : list Q) : bool :=
  match l with
  | x :: ((y :: _) as l') => Qle_bool x y && is_monotonic_increasing l'
  | _ => true
  end.

Fixpoint is_monotonic_decreasing (l : list Q) : bool :=
  match l with
  | x :: ((y :: _) as l') => Qle_bool y x && is_monotonic_decreasing l'
  | _ => true
  end.

(** [searchsorted] on an ascending list: the number of leading elements
    strictly below ([side='left']) or not above ([side='right']) the label. *)
Fixpoint searchsorted_left (l : list Q) (x : Q) : nat :=
  match l with
  | [] => O
  | y :: l' => if Qltb y x then S (searchsorted_left l' x) else O
  end.

Fixpoint searchsorted_right (l : list Q) (x : Q) : nat :=
  match l with
  | [] => O
  | y :: l' => if Qle_bool y x then S (searchsorted_right l' x) else O
  end.

Fixpoint positions_from (i : nat) (l : list Q) (x : Q) : list nat :=
  match l with
  | [] => []
  | y :: l' =>
      if Qeq_bool y x then i :: positions_from (S i) l' x
      else positions_from (S i) l' x
  end.

Fixpoint contiguous (ps : list nat) : bool :=
  match ps with
  | p :: ((q :: _) as ps') => (q =? S p)%nat && contiguous ps'
  | _ => true
  end.

Inductive side : Type := Left | Right.

(** [Index.get_slice_bound]: on a monotonic index the bound is found by
    search; otherwise the label has to be there, in one run.  (The texts of
    the two [KeyError]s stand for the messages of pandas, which quote the
    label.) *)
Definition get_slice_bound (idx : list Q) (label : Q) (s : side) : result nat :=
  if is_monotonic_increasing idx then
    Ok (match s with
        | Left => searchsorted_left idx label
        | Right => searchsorted_right idx label
        end)
  else if is_monotonic_decreasing idx then
    Ok (length idx - match s with
                     | Left => searchsorted_right (rev idx) label
                     | Right => searchsorted_left (rev idx) label
                     end)%nat
  else
    match positions_from 0 idx label with
    | [] => Raise (Exn KeyError "label not found in a non-monotonic index")
    | p :: ps =>
        if contiguous (p :: ps)
        then Ok (match s with Left => p | Right => S (last ps p) end)
        else Raise (Exn KeyError "Cannot get slice bound for non-unique label")
    end.

(** [Index.slice_indexer(start, stop)]: the positions [lo, hi) selected. *)
Definition slice_indexer (idx : list Q) (start stop : Q) : result (nat * nat) :=
  lo <- get_slice_bound idx start Left ;;
  hi <- get_slice_bound idx stop Right ;;
  Ok (lo, hi).

(** [l[lo:hi]] *)
Definition take_slice {A : Type} (b : nat * nat) (l : list A) : list A :=
  firstn (snd b - fst b) (skipn (fst b) l).

(** [ds.sel(valid_time=slice(start, stop))] *)
Definition sel_valid_time (ds : Dataset) (start stop : Q) : result Dataset :=
  b <- slice_indexer (valid_time ds) start stop ;;
  Ok {| valid_time := take_slice b (valid_time ds);
        latitude := latitude ds;
        longitude := longitude ds;
        data_vars := map_vars (on_valid_time (take_slice b)) (data_vars ds) |}.

(** [ds.sel(latitude=slice(la0, la1), longitude=slice(lo0, lo1))] *)
Definition sel_region (ds : Dataset) (la0 la1 lo0 lo1 : Q) : result Dataset :=
  bla <- slice_indexer (latitude ds) la0 la1 ;;
  blo <- slice_indexer (longitude ds) lo0 lo1 ;;
  Ok {| valid_time := valid_time ds;
        latitude := take_slice bla (latitude ds);
        longitude := take_slice blo (longitude ds);
        data_vars :=
          map_vars (fun g => on_longitude (take_slice blo)
                               (on_latitude (take_slice bla) g))
                   (data_vars ds) |}.

(** [ds[var_list]]: the listed data variables, coordinates kept.  (xarray
    keeps the coordinates that the listed variables lie along: all three
    as soon as one data variable is listed.) *)
Fixpoint select_vars (ds : Dataset) (var_list : list string)
         (acc : dict DataArray) : result (dict DataArray) :=
  match var_list with
  | [] => Ok acc
  | name :: rest =>
      match dict_get (data_vars ds) name with
      | Some da => select_vars ds rest (dict_set acc name da)
      | None =>
          if is_coord_name name then select_vars ds rest acc
          else Raise (Exn KeyError name)
      end
  end.

Definition ds_getitem_list (ds : Dataset) (var_list : list string) : result Dataset :=
  vars <- select_vars ds var_list [] ;;
  Ok {| valid_time := valid_time ds;
        latitude := latitude ds;
        longitude := longitude ds;
        data_vars := vars |}.

(** *** Longitude convention *)

(** [x % m] on floats, as Python and numpy compute it: [fmod], moved by [m]
    (one rounded addition) when its sign is not that of [m]. *)
Definition py_mod (fmt : float_format) (x m : Q) : Q :=
  let r := fmod x m in
  if negb (Qeq_bool r 0) && xorb (Qltb m 0) (Qltb r 0)
  then round fmt (r + m)
  else r.

(** [(lon + 180) % 360 - 180] *)
Definition convert_lon (fmt : float_format) (lon : Q) : Q :=
  round fmt (py_mod fmt (round fmt (lon + 180)) 360 - 180).

Arguments convert_lon : simpl never.

(** [ds.assign_coords(longitude=labels)] *)
Definition assign_longitude (ds : Dataset) (labels : list Q) : Dataset :=
  {| valid_time := valid_time ds;
     latitude := latitude ds;
     longitude := labels;
     data_vars := data_vars ds |}.

(** A stable ascending sort of the labels, as positions. *)
Fixpoint insert_key (p : Q * nat) (l : list (Q * nat)) : list (Q * nat) :=
  match l with
  | [] => [p]
  | q :: l' => if Qle_bool (fst p) (fst q) then p :: l else q :: insert_key p l'
  end.

Definition sort_keys (l : list Q) : list (Q * nat) :=
  fold_right insert_key [] (combine l (seq 0 (length l))).

Definition argsort (l : list Q) : list nat := map snd (sort_keys l).

(** [l[positions]] *)
Definition take {A : Type} (positions : list nat) (l : list A) : list A :=
  flat_map (fun i => match nth_error l i with Some x => [x] | None => [] end)
           positions.

(** [ds.sortby('longitude')] *)
Definition sortby_longitude (ds : Dataset) : Dataset :=
  let order := argsort (longitude ds) in
  {| valid_time := valid_time ds;
     latitude := latitude ds;
     longitude := take order (longitude ds);
     data_vars := map_vars (on_longitude (take order)) (data_vars ds) |}.

(** ** era5_processor.py: the processor *)

(** [spatial_range]: ['lat': [min_lat, max_lat]], ['lon': [min_lon, max_lon]]. *)
Record SpatialRange : Type := {
  lat : Q * Q;
  lon : Q * Q
}.

Record ERA5DataProcessor : Type := {
  dataset : Dataset;
  loaded_dataset : option Dataset;
  variables : names;
  date_range : Q * Q;
  spatial_range : SpatialRange;
  convert_longitude : bool;
  include_attributes : bool
}.

(** [ERA5DataProcessor(ds, variables, date_range, spatial_range, ...)] *)
Definition init (ds : Dataset) (variables : names) (date_range : Q * Q)
           (spatial_range : SpatialRange)
           (convert_longitude include_attributes : bool) : ERA5DataProcessor :=
  {| dataset := ds;
     loaded_dataset := None;
     variables := variables;
     date_range := date_range;
     spatial_range := spatial_range;
     convert_longitude := convert_longitude;
     include_attributes := include_attributes |}.

(** A method: from the processor to an outcome and the processor after. *)
Definition method (A : Type) : Type :=
  ERA5DataProcessor -> result A * ERA5DataProcessor.

Definition ret {A : Type} (a : A) : method A := fun self => (Ok a, self).

Definition raise {A : Type} (e : exn) : method A := fun self => (Raise e, self).

Definition lift {A : Type} (r : result A) : method A := fun self => (r, self).

Definition then_ {A B : Type} (m : method A) (k : A -> method B) : method B :=
  fun self =>
    match m self with
    | (Ok a, self') => k a self'
    | (Raise e, self') => (Raise e, self')
    end.

Notation "x <<- m ;; k" := (then_ m (fun x => k))
  (at level 61, m at next level, right associativity).

Definition get_self : method ERA5DataProcessor := fun self => (Ok self, self).

Definition with_loaded_dataset (self : ERA5DataProcessor) (d : Dataset)
  : ERA5DataProcessor :=
  {| dataset := dataset self;
     loaded_dataset := Some d;
     variables := variables self;
     date_range := date_range self;
     spatial_range := spatial_range self;
     convert_longitude := convert_longitude self;
     include_attributes := include_attributes self |}.

(** [self.loaded_dataset = d], and any later change to the dataset object
    the field refers to. *)
Definition set_loaded_dataset (d : Dataset) : method unit :=
  fun self => (Ok tt, with_loaded_dataset self d).

(** [fmt] is the floating-point format of the longitude coordinate. *)
Definition process_data (fmt : float_format) : method unit :=
  self <<- get_self ;;
  let '(start_date, end_date) := date_range self in
  let latitude_range := lat (spatial_range self) in
  let longitude_range := lon (spatial_range self) in
  data <<- lift (sel_valid_time (dataset self) start_date end_date) ;;
  let var_list := names_list (variables self) in
  data <<- lift (ds_getitem_list data var_list) ;;
  let data :=
    if convert_longitude self
    then sortby_longitude
           (assign_longitude data (map (convert_lon fmt) (longitude data)))
    else data in
  data <<- lift (sel_region data
                   (snd latitude_range) (fst latitude_range)
                   (fst longitude_range) (snd longitude_range)) ;;
  set_loaded_dataset data.

(** What one entry of the extracted mapping holds: the (lat x lon) slice of
    a variable, or a coordinate array. *)
Inductive component : Type :=
| Field (slice : list (list Q)) (a : dict string)
| Axis (labels : list Q).

(** [da.isel(valid_time=timestep)]: a negative index counts from the end. *)
Definition isel_valid_time (da : DataArray) (timestep : Z) : result component :=
  let n := Z.of_nat (length (values da)) in
  let i := if (timestep <? 0)%Z then (timestep + n)%Z else timestep in
  if (i <? 0)%Z || (n <=? i)%Z then
    Raise (Exn IndexError
             ("index " ++ str_of_int timestep
              ++ " is out of bounds for axis 0 with size " ++ str_of_int n))
  else Ok (Field (nth (Z.to_nat i) (values da) []) (attrs da)).

Fixpoint extract_loop (data : Dataset) (timestep : Z) (var_list : list string)
         (output_vars : dict component) : result (dict component) :=
  match var_list with
  | [] => Ok output_vars
  | var :: rest =>
      if dict_mem (data_vars data) var then
        da <- ds_getitem data var ;;
        slice <- isel_valid_time da timestep ;;
        extract_loop data timestep rest (dict_set output_vars var slice)
      else Raise (Exn KeyError ("Variable " ++ var ++ " not found in dataset."))
  end.

(** [extract_variables] is [None] when the caller passes [None]: the
    parameter is then bound to an exception object, which has no [keys]. *)
Definition extract_components_by_given_timestep
           (timestep : Z) (extract_variables : option names) (lat_long : bool)
  : method (dict component) :=
  self <<- get_self ;;
  match loaded_dataset self with
  | None =>
      raise (Exn ValueError
               "You must run process_data() before extracting timestep.")
  | Some data =>
      if (timestep >=? Z.of_nat (length (valid_time data)))%Z then
        raise (Exn IndexError
                 ("Timestep " ++ str_of_int timestep
                  ++ " is out of bounds for the selected data."))
      else
        match extract_variables with
        | None =>
            raise (Exn AttributeError
                     "'ValueError' object has no attribute 'keys'")
        | Some extract_variables =>
            let var_list := names_list extract_variables in
            output_vars <<- lift (extract_loop data timestep var_list []) ;;
            let output_vars :=
              if lat_long
              then dict_set (dict_set output_vars "lat" (Axis (latitude data)))
                            "long" (Axis (longitude data))
              else output_vars in
            ret output_vars
        end
  end.

Section WindSpeed.

(** [np.sqrt] on one element, and the floating-point format of the
    arrays of the two components. *)
Variable np_sqrt : Q -> Q.
Variable fmt : float_format.

Definition calculate_wind_speed
           (u_component v_component new_var_name : string) : method unit :=
  self <<- get_self ;;
  match loaded_dataset self with
  | None =>
      raise (Exn ValueError
               "No processed data available. Run process_data() first.")
  | Some ds =>
      if negb (ds_contains ds u_component) || negb (ds_contains ds v_component)
      then
        raise (Exn ValueError
                 ("Variables " ++ u_component ++ " and/or " ++ v_component
                  ++ " not found in processed dataset."))
      else
        u <<- lift (ds_getitem ds u_component) ;;
        v <<- lift (ds_getitem ds v_component) ;;
        let wind_speed :=
          da_map np_sqrt (da_add fmt (da_square fmt u) (da_square fmt v)) in
        let ds := ds_setitem ds new_var_name wind_speed in
        _ <<- set_loaded_dataset ds ;;
        if include_attributes self then
          u <<- lift (ds_getitem ds u_component) ;;
          let units :=
            match dict_get (attrs u) "units" with
            | Some units => units
            | None => "m s**-1"
            end in
          set_loaded_dataset
            (ds_set_attrs ds new_var_name
               [("long_name",
                 "Wind Speed calculated from " ++ u_component ++ " and "
                 ++ v_component);
                ("units", units)])
        else set_loaded_dataset ds
  end.

End WindSpeed.

(** [xr.Dataset(vars)]: the coordinates are those the variables carry; with
    no variable there is none. *)
Definition xr_Dataset (time_labels lat_labels lon_labels : list Q)
           (vars : dict DataArray) : Dataset :=
  match vars with
  | [] => {| valid_time := []; latitude := []; longitude := []; data_vars := [] |}
  | _ :: _ =>
      {| valid_time := time_labels;
         latitude := lat_labels;
         longitude := lon_labels;
         data_vars := vars |}
  end.

(** [da.isel(latitude=slice(None, None, step), longitude=slice(None, None, step))] *)
Definition isel_step (da : DataArray) (step : Z) : result DataArray :=
  if (step =? 0)%Z then Raise (Exn ValueError "slice step cannot be zero")
  else
    Ok {| values :=
            on_longitude (strided step) (on_latitude (strided step) (values da));
          attrs := attrs da |}.

Fixpoint subsample_loop (step : Z) (vars : dict DataArray)
         (subsampled_vars : dict DataArray) : result (dict DataArray) :=
  match vars with
  | [] => Ok subsampled_vars
  | (var, da) :: rest =>
      sub <- isel_step da step ;;
      subsample_loop step rest (dict_set subsampled_vars var sub)
  end.

Definition subsample_data (step : Z) : method Dataset :=
  self <<- get_self ;;
  match loaded_dataset self with
  | None =>
      raise (Exn ValueError "You must run process_data() before subsampling.")
  | Some ds =>
      lon_sub <<- lift (slice_step (longitude ds) step) ;;
      lat_sub <<- lift (slice_step (latitude ds) step) ;;
      subsampled_vars <<- lift (subsample_loop step (data_vars ds) []) ;;
      let subsampled_ds :=
        xr_Dataset (valid_time ds) lat_sub lon_sub subsampled_vars in
      let subsampled_ds :=
        {| valid_time := valid_time subsampled_ds;
           latitude := lat_sub;
           longitude := lon_sub;
           data_vars := data_vars subsampled_ds |} in
      ret subsampled_ds
  end.

Definition get_processed_data : method Dataset :=
  self <<- get_self ;;
  match loaded_dataset self with
  | None =>
      raise (Exn ValueError
               "No processed data available. Run process_data() first.")
  | Some ds => ret ds
  end.

End ERA5.

(** ** Sequences of calls on one processor *)

Module Session.

Import ERA5.

Inductive call : Type :=
| ProcessData
| ExtractComponents (timestep : Z) (extract_variables : option names)
                    (lat_long : bool)
| CalculateWindSpeed (u_component v_component new_var_name : string)
| SubsampleData (step : Z)
| GetProcessedData.

(** Two processors that hold the same original dataset and the same
    options. *)
Definition same_inputs (a b : ERA5DataProcessor) : Prop :=
  dataset a = dataset b
  /\ variables a = variables b
  /\ date_range a = date_range b
  /\ spatial_range a = spatial_range b
  /\ convert_longitude a = convert_longitude b
  /\ include_attributes a = include_attributes b.

(** The call names data variables only, none of the coordinates. *)
Definition names_data_variables (c : call) : bool :=
  match c with
  | CalculateWindSpeed u_component v_component new_var_name =>
      negb (is_coord_name u_component) && negb (is_coord_name v_component)
      && negb (is_coord_name new_var_name)
  | _ => true
  end.

Section Run.

(** [np.sqrt], the format of the longitude coordinate and the format of
    the data arrays. *)
Variable np_sqrt : Q -> Q.
Variable lon_fmt data_fmt : float_format.

(** The processor after one call, whether the call returned or raised. *)
Definition run_call (self : ERA5DataProcessor) (c : call) : ERA5DataProcessor :=
  match c with
  | ProcessData => snd (process_data lon_fmt self)
  | ExtractComponents timestep extract_variables lat_long =>
      snd (extract_components_by_given_timestep
             timestep extract_variables lat_long self)
  | CalculateWindSpeed u_component v_component new_var_name =>
      snd (calculate_wind_speed np_sqrt data_fmt
             u_component v_component new_var_name self)
  | SubsampleData step => snd (subsample_data step self)
  | GetProcessedData => snd (get_processed_data self)
  end.

Definition run_calls (self : ERA5DataProcessor) (cs : list call)
  : ERA5DataProcessor :=
  fold_left run_call cs self.

End Run.

End Session.

(** ** A small dataset to run the definitions on *)

Module Sample.

Import ERA5.
Local Open Scope string_scope.
Local Open Scope Q_scope.

(** Two time steps, three latitudes (north to south), four longitudes in
    the 0..360 convention. *)
Definition u10 : DataArray :=
  {| values := [[[3; 6; 0; 5]; [8; 3; 6; 0]; [5; 8; 3; 6]];
                [[0; 5; 8; 3]; [6; 0; 5; 8]; [3; 6; 0; 5]]];
     attrs := [("units", "m s**-1")] |}.

Definition v10 : DataArray :=
  {| values := [[[4; 8; 0; 12]; [6; 4; 8; 0]; [12; 6; 4; 8]];
                [[0; 12; 6; 4]; [8; 0; 12; 6]; [4; 8; 0; 12]]];
     attrs := [] |}.

Definition source : Dataset :=
  {| valid_time := [1; 2];
     latitude := [50; 40; 30];
     longitude := [0; 90; 180; 270];
     data_vars := [("u10", u10); ("v10", v10)] |}.

Definition window : SpatialRange := {| lat := (35, 55); lon := (-100, 100) |}.

Definition fresh : ERA5DataProcessor :=
  init source (NameList ["u10"; "v10"]) (1, 2) window true true.

Definition processed : ERA5DataProcessor :=
  Eval vm_compute in snd (process_data binary64 fresh).

(** What [process_data] loads from [source]: both time steps, the two
    northern latitudes, and the longitudes 270, 0 and 90 as -90, 0 and 90. *)
Definition loaded : Dataset :=
  {| valid_time := [1; 2];
     latitude := [50; 40];
     longitude := [-90; 0; 90];
     data_vars :=
       [("u10",
         {| values := [[[5; 3; 6]; [0; 8; 3]]; [[3; 0; 5]; [8; 6; 0]]];
            attrs := [("units", "m s**-1")] |});
        ("v10",
         {| values := [[[12; 4; 8]; [0; 6; 4]]; [[4; 0; 12]; [6; 8; 0]]];
            attrs := [] |})] |}.

(** The integer square root, standing for [np.sqrt] on these values. *)
Definition int_sqrt (x : Q) : Q := inject_Z (Z.sqrt (Qfloor x)).

End Sample.

(** ** Further processors on the sample dataset *)

Module MoreSamples.

Import ERA5.
Local Open Scope string_scope.
Local Open Scope Q_scope.

(** [variables] given as a mapping from a name to a new name. *)
Definition keyed : ERA5DataProcessor :=
  init Sample.source (NameDict [("v10", "northward wind")]) (1, 2)
       Sample.window true true.

Definition keyed_processed : ERA5DataProcessor :=
  Eval vm_compute in snd (process_data binary64 keyed).


(** No longitude conversion, no attributes on the wind speed. *)
Definition plain : ERA5DataProcessor :=
  init Sample.source (NameList ["u10"; "v10"]) (1, 2)
       {| lat := (35, 55); lon := (0, 200) |} false false.

Definition plain_processed : ERA5DataProcessor :=
  Eval vm_compute in snd (process_data binary64 plain).

(** The sample grid with its first longitude at 0.1, that is at the
    binary64 value nearest to it, and a window that starts there. *)
Definition tenth : Q := 3602879701896397 # 36028797018963968.

Definition tenth_source : Dataset :=
  {| valid_time := [1; 2];
     latitude := [50; 40; 30];
     longitude := [tenth; 90; 180; 270];
     data_vars := [("u10", Sample.u10); ("v10", Sample.v10)] |}.

Definition tenth_fresh : ERA5DataProcessor :=
  init tenth_source (NameList ["u10"; "v10"]) (1, 2)
       {| lat := (35, 55); lon := (tenth, 100) |} true true.

Definition tenth_processed : ERA5DataProcessor :=
  Eval vm_compute in snd (process_data binary64 tenth_fresh).

(** A grid whose first longitude is the binary64 value next below -180,
    that is [-180 - 2 ^ -45]. *)
Definition edge_source : Dataset :=
  {| valid_time := [1];
     latitude := [10; 0];
     longitude := [-6333186975989761 # 35184372088832; 0];
     data_vars := [("t2m", {| values := [[[1; 2]; [3; 4]]]; attrs := [] |})] |}.

Definition edge : ERA5DataProcessor :=
  init edge_source (NameList ["t2m"]) (1, 1)
       {| lat := (-5, 15); lon := (-200, 200) |} true false.

(** At the first grid point the wind components are [3 * k] and [4 * k]
    for [k = 1797604937284198 / 2 ^ 50], about 4.79 and 6.39 m/s: binary64
    values, whose speed [5 * k] is a binary64 value too. *)
Definition gust_source : Dataset :=
  {| valid_time := [1];
     latitude := [1; 0];
     longitude := [0; 1];
     data_vars :=
       [("u10",
         {| values := [[[5392814811852594 # 1125899906842624; 3]; [5; 8]]];
            attrs := [("units", "m s**-1")] |});
        ("v10",
         {| values := [[[7190419749136792 # 1125899906842624; 4]; [12; 6]]];
            attrs := [("units", "m s**-1")] |})] |}.

Definition gust : ERA5DataProcessor :=
  Eval vm_compute in
    snd (process_data binary64
           (init gust_source (NameList ["u10"; "v10"]) (1, 1)
                 {| lat := (-5, 5); lon := (-5, 5) |} false false)).

End MoreSamples.

(** * Properties *)

Import ERA5.

(** ** The key prompt *)

Section CachebKey.

Import CachebPath.
Local Open Scope string_scope.

(** C9: a line that is empty once trimmed makes [cacheb_key] print an error
    message and return [None] (the call returns, nothing is raised); a line
    that is not empty once trimmed is returned trimmed. *)
Theorem cacheb_key_empty_or_trimmed (line : string) :
  (strip line = "" ->
   cacheb_key (Ok line)
   = (Ok None, [prompt; "Error getting key: Key cannot be empty"]))
  /\ (strip line <> "" ->
      cacheb_key (Ok line) = (Ok (Some (strip line)), [prompt])).
Proof.
  unfold cacheb_key, bind. split; intros H.
  - rewrite H. reflexivity.
  - destruct (String.eqb (strip line) "") eqn:E.
    + apply String.eqb_eq in E. contradiction.
    + reflexivity.
Qed.

Lemma cacheb_key_empty_or_trimmed_witness :
  cacheb_key (Ok "   ")
  = (Ok None, [prompt; "Error getting key: Key cannot be empty"])
  /\ cacheb_key (Ok "  k-01 ") = (Ok (Some "k-01"), [prompt]).
Proof.
  split.
  - apply (proj1 (cacheb_key_empty_or_trimmed "   ")). reflexivity.
  - apply (proj2 (cacheb_key_empty_or_trimmed "  k-01 ")). discriminate.
Defined.

End CachebKey.

(** ** The processor before [process_data] *)

Local Open Scope string_scope.

(** C2: while [loaded_dataset] is [None], each of the four methods raises
    its ValueError and leaves the processor as it was. *)
Theorem unprocessed_methods_fail
        (np_sqrt : Q -> Q) (fmt : float_format) (self : ERA5DataProcessor)
        (timestep : Z) (extract_variables : option names) (lat_long : bool)
        (u_component v_component new_var_name : string) (step : Z)
        (H : loaded_dataset self = None) :
  extract_components_by_given_timestep timestep extract_variables lat_long self
  = (Raise (Exn ValueError
              "You must run process_data() before extracting timestep."), self)
  /\ calculate_wind_speed np_sqrt fmt u_component v_component new_var_name self
     = (Raise (Exn ValueError
                 "No processed data available. Run process_data() first."), self)
  /\ subsample_data step self
     = (Raise (Exn ValueError
                 "You must run process_data() before subsampling."), self)
  /\ get_processed_data self
     = (Raise (Exn ValueError
                 "No processed data available. Run process_data() first."), self).
Proof.
  unfold extract_components_by_given_timestep, calculate_wind_speed,
    subsample_data, get_processed_data, then_, get_self, raise.
  rewrite H. repeat split.
Qed.

Lemma unprocessed_methods_fail_witness :
  loaded_dataset Sample.fresh = None
  /\ subsample_data 2 Sample.fresh
     = (Raise (Exn ValueError
                 "You must run process_data() before subsampling."),
        Sample.fresh).
Proof.
  split; [reflexivity|].
  apply (unprocessed_methods_fail Sample.int_sqrt binary32 Sample.fresh 0 None true
           "u10" "v10" "wind_speed" 2 eq_refl).
Defined.

(** ** Dictionaries *)

Lemma dict_mem_get {V : Type} (d : dict V) (k : string) :
  dict_mem d k = true <-> exists v, dict_get d k = Some v.
Proof.
  unfold dict_mem, dict_keys.
  induction d as [|[k' v'] d IH]; simpl.
  - split; [discriminate | intros [v Hv]; discriminate].
  - destruct (String.eqb k k'); simpl.
    + split; eauto.
    + exact IH.
Qed.


Lemma dict_get_In {V : Type} (d : dict V) (k : string) (v : V) :
  dict_get d k = Some v -> In (k, v) d.
Proof.
  induction d as [|[k' v'] d IH]; simpl; [discriminate|].
  destruct (String.eqb k k') eqn:E.
  - apply String.eqb_eq in E. intros [= ->]. subst. now left.
  - intros H. right. auto.
Qed.

Lemma dict_get_set {V : Type} (d : dict V) (k k' : string) (v : V) :
  dict_get (dict_set d k v) k'
  = if String.eqb k' k then Some v else dict_get d k'.
Proof.
  induction d as [|[k0 v0] d IH]; simpl.
  - reflexivity.
  - destruct (String.eqb k k0) eqn:E; simpl.
    + apply String.eqb_eq in E. subst k0.
      destruct (String.eqb k' k); reflexivity.
    + rewrite IH. destruct (String.eqb k' k0) eqn:E0; [|reflexivity].
      apply String.eqb_eq in E0. subst k0.
      destruct (String.eqb k' k) eqn:E1; [|reflexivity].
      apply String.eqb_eq in E1. subst k'.
      rewrite String.eqb_refl in E. discriminate.
Qed.

(** ** Wind speed *)

(** C4: when either component name is not in the loaded dataset,
    [calculate_wind_speed] raises its ValueError and the processor, with its
    loaded dataset, is what it was before the call. *)
Theorem wind_speed_missing_component
        (np_sqrt : Q -> Q) (fmt : float_format)
        (self : ERA5DataProcessor) (ds : Dataset)
        (u_component v_component new_var_name : string)
        (Hloaded : loaded_dataset self = Some ds)
        (Hmissing : ds_contains ds u_component = false
                    \/ ds_contains ds v_component = false) :
  calculate_wind_speed np_sqrt fmt u_component v_component new_var_name self
  = (Raise (Exn ValueError
              ("Variables " ++ u_component ++ " and/or " ++ v_component
               ++ " not found in processed dataset.")), self).
Proof.
  unfold calculate_wind_speed, then_, get_self, raise.
  rewrite Hloaded.
  destruct Hmissing as [-> | ->]; simpl.
  - reflexivity.
  - rewrite orb_true_r. reflexivity.
Qed.

Lemma wind_speed_missing_component_witness :
  loaded_dataset Sample.processed <> None
  /\ calculate_wind_speed Sample.int_sqrt binary32 "u10" "t2m" "wind_speed"
       Sample.processed
     = (Raise (Exn ValueError
                 "Variables u10 and/or t2m not found in processed dataset."),
        Sample.processed).
Proof.
  split; [discriminate|].
  eapply (wind_speed_missing_component Sample.int_sqrt binary32 Sample.processed
            "u10" "t2m" "wind_speed").
  - reflexivity.
  - right. reflexivity.
Defined.

(** ** Extracting a time step *)

Local Open Scope Z_scope.

Lemma wf_dataset_time_length (data : Dataset) (var : string) (da : DataArray) :
  wf_dataset data = true ->
  dict_get (data_vars data) var = Some da ->
  length (values da) = length (valid_time data).
Proof.
  unfold wf_dataset. intros Hwf Hget.
  apply andb_true_iff in Hwf as [_ Hwf].
  rewrite forallb_forall in Hwf.
  specialize (Hwf _ (dict_get_In _ _ Hget)). simpl in Hwf.
  unfold shape_ok in Hwf. apply andb_true_iff in Hwf as [Hlen _].
  now apply Nat.eqb_eq in Hlen.
Qed.

Lemma ds_getitem_data_var (data : Dataset) (var : string) (da : DataArray) :
  dict_get (data_vars data) var = Some da -> ds_getitem data var = Ok da.
Proof. unfold ds_getitem. now intros ->. Qed.

(** Inside [-n, n) the index is accepted, and read from the end when it is
    negative. *)
Lemma isel_valid_time_in_range (da : DataArray) (timestep : Z) :
  - Z.of_nat (length (values da)) <= timestep < Z.of_nat (length (values da)) ->
  isel_valid_time da timestep
  = Ok (Field (nth (Z.to_nat (timestep mod Z.of_nat (length (values da))))
                   (values da) [])
              (attrs da)).
Proof.
  intros Ht. unfold isel_valid_time.
  set (n := Z.of_nat (length (values da))) in *.
  destruct (Z.ltb_spec timestep 0) as [Hneg | Hpos].
  - destruct (Z.ltb_spec (timestep + n) 0); [lia|].
    destruct (Z.leb_spec n (timestep + n)); [lia|]. simpl.
    replace (timestep mod n) with (timestep + n); [reflexivity|].
    apply Z.mod_unique with (q := -1); lia.
  - destruct (Z.ltb_spec timestep 0); [lia|].
    destruct (Z.leb_spec n timestep); [lia|]. simpl.
    rewrite Z.mod_small by lia. reflexivity.
Qed.

Lemma isel_valid_time_below (da : DataArray) (timestep : Z) :
  timestep < - Z.of_nat (length (values da)) ->
  is_kind IndexError (isel_valid_time da timestep).
Proof.
  intros Ht. unfold isel_valid_time.
  set (n := Z.of_nat (length (values da))) in *.
  assert (0 <= n) by (unfold n; lia).
  destruct (Z.ltb_spec timestep 0); [|lia].
  destruct (Z.ltb_spec (timestep + n) 0); [|lia]. simpl.
  eexists. reflexivity.
Qed.

Lemma extract_loop_in_range (data : Dataset) (timestep : Z)
      (Hwf : wf_dataset data = true)
      (Ht : - Z.of_nat (length (valid_time data)) <= timestep
            < Z.of_nat (length (valid_time data))) :
  forall (var_list : list string) (output_vars : dict component),
    ~ is_kind IndexError (extract_loop data timestep var_list output_vars).
Proof.
  induction var_list as [|var rest IH]; intros out; simpl.
  - intros [msg Hmsg]. discriminate.
  - destruct (dict_mem (data_vars data) var) eqn:Hmem.
    + apply dict_mem_get in Hmem as [da Hda].
      rewrite (ds_getitem_data_var _ _ Hda). simpl.
      rewrite isel_valid_time_in_range
        by (rewrite (wf_dataset_time_length _ _ Hwf Hda); exact Ht).
      simpl. apply IH.
    + intros [msg Hmsg]. discriminate.
Qed.

(** The mapping [extract_loop] builds when every requested variable is a
    data variable. *)
Lemma extract_loop_all_present (data : Dataset) (timestep : Z)
      (Hwf : wf_dataset data = true)
      (Ht : - Z.of_nat (length (valid_time data)) <= timestep
            < Z.of_nat (length (valid_time data))) :
  forall (var_list : list string) (output_vars : dict component),
    forallb (dict_mem (data_vars data)) var_list = true ->
    exists out,
      extract_loop data timestep var_list output_vars = Ok out
      /\ forall var,
           dict_get out var
           = if existsb (String.eqb var) var_list
             then match dict_get (data_vars data) var with
                  | Some da =>
                      Some (Field
                              (nth (Z.to_nat
                                      (timestep
                                       mod Z.of_nat (length (valid_time data))))
                                   (values da) [])
                              (attrs da))
                  | None => None
                  end
             else dict_get output_vars var.
Proof.
  induction var_list as [|var rest IH]; intros out Hall; simpl.
  - exists out. split; reflexivity.
  - simpl in Hall. apply andb_true_iff in Hall as [Hmem Hrest].
    rewrite Hmem.
    apply dict_mem_get in Hmem as [da Hda].
    rewrite (ds_getitem_data_var _ _ Hda). simpl.
    rewrite isel_valid_time_in_range
      by (rewrite (wf_dataset_time_length _ _ Hwf Hda); exact Ht).
    simpl.
    destruct (IH (dict_set out var
                    (Field (nth (Z.to_nat
                                   (timestep mod Z.of_nat (length (values da))))
                                (values da) [])
                           (attrs da))) Hrest)
      as (out' & Hout' & Hget).
    exists out'. split; [exact Hout'|].
    intros var'. rewrite Hget, dict_get_set.
    rewrite (wf_dataset_time_length _ _ Hwf Hda).
    destruct (String.eqb var' var) eqn:E; simpl.
    + apply String.eqb_eq in E. subst var'. rewrite Hda.
      destruct (existsb (String.eqb var) rest); reflexivity.
    + reflexivity.
Qed.

(** C10: a time step [t] with [-N <= t < 0] passes the bounds check and no
    IndexError is raised; when the requested names are data variables the
    call returns a mapping that holds, for each of them, its slice at index
    [N + t].  (With [lat_long] set, the keys [lat] and [long] hold the
    coordinate arrays.) *)
Theorem extract_negative_timestep_wraps
        (self : ERA5DataProcessor) (data : Dataset) (timestep : Z)
        (extract_variables : names) (lat_long : bool)
        (Hloaded : loaded_dataset self = Some data)
        (Hwf : wf_dataset data = true)
        (Ht : - Z.of_nat (length (valid_time data)) <= timestep < 0) :
  let N := Z.of_nat (length (valid_time data)) in
  let outcome :=
    fst (extract_components_by_given_timestep
           timestep (Some extract_variables) lat_long self) in
  ~ is_kind IndexError outcome
  /\ (forallb (dict_mem (data_vars data)) (names_list extract_variables) = true ->
      exists out,
        outcome = Ok out
        /\ forall var da,
             In var (names_list extract_variables) ->
             dict_get (data_vars data) var = Some da ->
             (lat_long = true -> var <> "lat"%string /\ var <> "long"%string) ->
             dict_get out var
             = Some (Field (nth (Z.to_nat (N + timestep)) (values da) [])
                           (attrs da))).
Proof.
  intros N outcome. subst outcome.
  unfold extract_components_by_given_timestep, then_, get_self, raise, lift, ret.
  rewrite Hloaded. fold N in Ht |- *.
  rewrite Z.geb_leb. destruct (Z.leb_spec N timestep) as [Hge | Hlt]; [lia|].
  assert (Hrange : - N <= timestep < N) by lia.
  split.
  - pose proof (extract_loop_in_range data Hwf Hrange
                  (names_list extract_variables) []) as Hloop.
    destruct (extract_loop data timestep (names_list extract_variables) [])
      as [out | e]; simpl in *.
    + intros [msg Hmsg]. discriminate.
    + exact Hloop.
  - intros Hall.
    destruct (extract_loop_all_present data Hwf Hrange
                (names_list extract_variables) [] Hall)
      as (out & Hout & Hget).
    rewrite Hout. simpl. eexists. split; [reflexivity|].
    intros var da Hin Hda Hkeys.
    assert (Hslice : dict_get out var
                     = Some (Field (nth (Z.to_nat (N + timestep)) (values da) [])
                                   (attrs da))).
    { rewrite Hget, Hda.
      replace (existsb (String.eqb var) (names_list extract_variables))
        with true.
      - fold N. replace (timestep mod N) with (N + timestep); [reflexivity|].
        apply Z.mod_unique with (q := -1); lia.
      - symmetry. apply existsb_exists. exists var. split; [exact Hin|].
        apply String.eqb_refl. }
    destruct lat_long; [|exact Hslice].
    destruct (Hkeys eq_refl) as [Hlat Hlong].
    rewrite !dict_get_set.
    apply String.eqb_neq in Hlat, Hlong. rewrite Hlat, Hlong. exact Hslice.
Qed.

Lemma extract_negative_timestep_wraps_witness :
  exists out,
    fst (extract_components_by_given_timestep
           (-1) (Some (NameList ["u10"; "v10"]%string)) true Sample.processed)
    = Ok out
    /\ dict_get out "v10"%string = Some (Field [[4; 0; 12]; [6; 8; 0]]%Q []).
Proof.
  destruct (@extract_negative_timestep_wraps
              Sample.processed Sample.loaded (-1)
              (NameList ["u10"; "v10"]%string) true
              eq_refl eq_refl ltac:(simpl; lia))
    as [_ Hslices].
  destruct (Hslices eq_refl) as (out & Hout & Hget).
  exists out. split; [exact Hout|].
  apply (Hget "v10"%string
              {| values := [[[12; 4; 8]; [0; 6; 4]]; [[4; 0; 12]; [6; 8; 0]]]%Q;
                 attrs := [] |}).
  - simpl. auto.
  - reflexivity.
  - intros _. split; discriminate.
Defined.

(** C1, as stated, fails: on the processed sample (two time steps) the
    negative time step -1 is not rejected; the call returns the slice of the
    last time step. *)
Lemma extract_negative_timestep_not_rejected :
  loaded_dataset Sample.processed = Some Sample.loaded
  /\ -1 < 0
  /\ fst (extract_components_by_given_timestep
            (-1) (Some (NameList ["u10"%string])) false Sample.processed)
     = Ok [("u10"%string,
            Field [[3; 0; 5]; [8; 6; 0]]%Q [("units", "m s**-1")]%string)]
  /\ ~ is_kind IndexError
         (fst (extract_components_by_given_timestep
                 (-1) (Some (NameList ["u10"%string])) false Sample.processed)).
Proof.
  repeat split; try reflexivity.
  intros [msg Hmsg]. vm_compute in Hmsg. discriminate.
Qed.

(** C1, amended: the bounds check rejects exactly the time steps [t >= N]
    with its IndexError; for [-N <= t < N] no IndexError is raised (a
    negative [t] is read from the end); a time step below [-N] passes the
    check and runs into the IndexError of the array indexing when the first
    requested variable is sliced. *)
Theorem extract_timestep_bounds
        (self : ERA5DataProcessor) (data : Dataset) (timestep : Z)
        (extract_variables : option names) (lat_long : bool)
        (Hloaded : loaded_dataset self = Some data)
        (Hwf : wf_dataset data = true) :
  let N := Z.of_nat (length (valid_time data)) in
  let outcome :=
    fst (extract_components_by_given_timestep
           timestep extract_variables lat_long self) in
  (N <= timestep ->
   outcome
   = Raise (Exn IndexError
              ("Timestep " ++ str_of_int timestep
               ++ " is out of bounds for the selected data.")))
  /\ (- N <= timestep < N -> ~ is_kind IndexError outcome)
  /\ (timestep < - N ->
      forall vars var rest,
        extract_variables = Some vars ->
        names_list vars = var :: rest ->
        dict_mem (data_vars data) var = true ->
        is_kind IndexError outcome).
Proof.
  intros N outcome. subst outcome.
  unfold extract_components_by_given_timestep, then_, get_self, raise, lift, ret.
  rewrite Hloaded. fold N. rewrite Z.geb_leb.
  destruct (Z.leb_spec N timestep) as [Hge | Hlt].
  - split; [reflexivity|]. split; intros; lia.
  - split; [lia|]. split.
    + intros Hrange.
      destruct extract_variables as [vars|].
      * pose proof (extract_loop_in_range data Hwf Hrange (names_list vars) [])
          as Hloop.
        destruct (extract_loop data timestep (names_list vars) [])
          as [out | e]; simpl in *.
        -- intros [msg Hmsg]. discriminate.
        -- exact Hloop.
      * intros [msg Hmsg]. discriminate.
    + intros Hbelow vars var rest -> Hvars Hmem.
      rewrite Hvars. simpl. rewrite Hmem.
      apply dict_mem_get in Hmem as [da Hda].
      rewrite (ds_getitem_data_var _ _ Hda). simpl.
      destruct (@isel_valid_time_below da timestep) as [msg Hmsg].
      { rewrite (wf_dataset_time_length _ _ Hwf Hda). exact Hbelow. }
      rewrite Hmsg. simpl. exists msg. reflexivity.
Qed.

Lemma extract_timestep_bounds_witness :
  fst (extract_components_by_given_timestep
         2 (Some (NameList ["u10"%string])) true Sample.processed)
  = Raise (Exn IndexError "Timestep 2 is out of bounds for the selected data.")
  /\ ~ is_kind IndexError
         (fst (extract_components_by_given_timestep
                 (-2) (Some (NameList ["u10"%string])) true Sample.processed))
  /\ is_kind IndexError
       (fst (extract_components_by_given_timestep
               (-3) (Some (NameList ["u10"%string])) true Sample.processed)).
Proof.
  split; [|split].
  - apply (proj1 (@extract_timestep_bounds
                    Sample.processed Sample.loaded 2
                    (Some (NameList ["u10"%string])) true eq_refl eq_refl)).
    simpl. lia.
  - apply (proj1 (proj2 (@extract_timestep_bounds
                           Sample.processed Sample.loaded (-2)
                           (Some (NameList ["u10"%string])) true
                           eq_refl eq_refl))).
    simpl. lia.
  - apply (proj2 (proj2 (@extract_timestep_bounds
                           Sample.processed Sample.loaded (-3)
                           (Some (NameList ["u10"%string])) true
                           eq_refl eq_refl))
             ltac:(simpl; lia) (NameList ["u10"%string]) "u10"%string []);
      reflexivity.
Defined.

(** ** Floating-point arithmetic *)

Local Open Scope Q_scope.

Lemma Qle_bool_false (x y : Q) : Qle_bool x y = false -> y < x.
Proof.
  intros H. apply Qnot_le_lt. intros Hle.
  apply Qle_bool_iff in Hle. congruence.
Qed.

Lemma rne_le (y : Q) (N : Z) : y <= inject_Z N -> (rne y <= N)%Z.
Proof.
  intros Hy. unfold rne.
  pose proof (Qfloor_le y) as Hfl.
  assert (Hf : (Qfloor y <= N)%Z).
  { rewrite Zle_Qle. lra. }
  destruct (Qcompare_spec (y - inject_Z (Qfloor y)) (1 # 2)) as [H | H | H].
  - destruct (Z.even (Qfloor y)); [exact Hf|].
    assert (H0 : inject_Z (Qfloor y) < inject_Z N) by lra.
    rewrite <- Zlt_Qlt in H0. lia.
  - exact Hf.
  - assert (H0 : inject_Z (Qfloor y) < inject_Z N) by lra.
    rewrite <- Zlt_Qlt in H0. lia.
Qed.

Lemma rne_ge (y : Q) (N : Z) : inject_Z N <= y -> (N <= rne y)%Z.
Proof.
  intros Hy. unfold rne.
  pose proof (Qlt_floor y) as Hfu.
  rewrite inject_Z_plus in Hfu. change (inject_Z 1) with 1 in Hfu.
  assert (Hf : (N <= Qfloor y)%Z).
  { assert (H : inject_Z N < inject_Z (Qfloor y + 1)).
    { rewrite inject_Z_plus. change (inject_Z 1) with 1. lra. }
    rewrite <- Zlt_Qlt in H. lia. }
  destruct (Qcompare (y - inject_Z (Qfloor y)) (1 # 2));
    [destruct (Z.even (Qfloor y))| |]; lia.
Qed.

Lemma pow2_pos (z : Z) : 0 < 2 ^ z.
Proof. apply Qpower_0_lt. reflexivity. Qed.

Lemma pow2_nonneg_exponent (z : Z) : (0 <= z)%Z -> 2 ^ z == inject_Z (2 ^ z).
Proof. intros H. now rewrite Zpower_Qpower. Qed.

Lemma pow2_split (a b : Z) : 2 ^ a == 2 ^ (a - b) * 2 ^ b.
Proof.
  rewrite <- Qpower_plus by discriminate. now replace (a - b + b)%Z with a by lia.
Qed.

(** [2 ^ ilog2 x <= x] for a positive [x]. *)
Lemma ilog2_lower (x : Q) : 0 < x -> 2 ^ ilog2 x <= x.
Proof.
  intros Hx. unfold ilog2. destruct x as [n d]. cbn [Qnum Qden].
  set (a := Z.log2 n). set (b := Z.log2 (Z.pos d)).
  destruct (Qle_bool (2 ^ (a - b)) (n # d)) eqn:E; [now apply Qle_bool_iff|].
  unfold Qlt in Hx. simpl in Hx.
  assert (Hn : (0 < n)%Z) by lia.
  destruct (Z.log2_spec n Hn) as [Hlo _].
  destruct (Z.log2_spec (Z.pos d) (Pos2Z.is_pos d)) as [_ Hhi].
  fold a in Hlo. fold b in Hhi.
  assert (Ha : (0 <= a)%Z) by apply Z.log2_nonneg.
  assert (Hb : (0 <= b)%Z) by apply Z.log2_nonneg.
  assert (H1 : 2 ^ (a - b - 1) * 2 ^ (b + 1) == 2 ^ a).
  { rewrite <- Qpower_plus by discriminate.
    now replace (a - b - 1 + (b + 1))%Z with a by lia. }
  assert (H2 : inject_Z (Z.pos d) < 2 ^ (b + 1)).
  { rewrite pow2_nonneg_exponent by lia. rewrite <- Zlt_Qlt.
    replace (b + 1)%Z with (Z.succ b) by lia. exact Hhi. }
  assert (H3 : 2 ^ a <= inject_Z n).
  { rewrite pow2_nonneg_exponent by lia. now rewrite <- Zle_Qle. }
  assert (H4 : 0 < 2 ^ (a - b - 1)) by apply pow2_pos.
  assert (H5 : (n # d) == inject_Z n / inject_Z (Z.pos d)).
  { now rewrite Qmake_Qdiv. }
  rewrite H5.
  apply Qle_shift_div_l; [reflexivity|].
  assert (H6 : 2 ^ (a - b - 1) * inject_Z (Z.pos d)
               <= 2 ^ (a - b - 1) * 2 ^ (b + 1)).
  { apply Qmult_le_l; [exact H4 | lra]. }
  lra.
Qed.

Lemma ilog2_lt (x : Q) (n : Z) : 0 < x -> x < 2 ^ n -> (ilog2 x < n)%Z.
Proof.
  intros Hx Hn. pose proof (@ilog2_lower x Hx) as Hlo.
  apply Qpower_lt_compat_l_inv with (q := 2); [lra | reflexivity].
Qed.

(** A multiple of [2 ^ j] is a multiple of [2 ^ e] for [e <= j]. *)
Lemma multiple_pow2 (k e j : Z) :
  (e <= j)%Z -> inject_Z k * 2 ^ j == inject_Z (k * 2 ^ (j - e)) * 2 ^ e.
Proof.
  intros H. rewrite inject_Z_mult, <- pow2_nonneg_exponent by lia.
  rewrite (pow2_split j e). ring.
Qed.

Lemma round_exponent (fmt : float_format) (x : Q) (j : Z) :
  ~ x == 0 ->
  (emin fmt <= j)%Z ->
  Qabs x < 2 ^ (j + prec fmt) ->
  (Z.max (ilog2 (Qabs x) - (prec fmt - 1)) (emin fmt) <= j)%Z.
Proof.
  intros Hx Hemin Hj.
  assert (Hpos : 0 < Qabs x).
  { apply Qabs_case; intros H; apply Qnot_le_lt; intros Hc; apply Hx; lra. }
  pose proof (@ilog2_lt (Qabs x) (j + prec fmt) Hpos Hj). lia.
Qed.

(** Rounding does not cross a multiple of [2 ^ j] that the format holds at
    the size of [x]. *)
Lemma round_le (fmt : float_format) (x : Q) (k j : Z) :
  (emin fmt <= j)%Z ->
  Qabs x < 2 ^ (j + prec fmt) ->
  x <= inject_Z k * 2 ^ j ->
  round fmt x <= inject_Z k * 2 ^ j.
Proof.
  intros Hemin Hsize Hx. unfold round.
  destruct (Qeq_bool x 0) eqn:E.
  - apply Qeq_bool_iff in E. lra.
  - apply Qeq_bool_neq in E.
    set (e := Z.max (ilog2 (Qabs x) - (prec fmt - 1)) (emin fmt)).
    assert (He : (e <= j)%Z) by now apply round_exponent.
    rewrite Qred_correct, (@multiple_pow2 k e j He).
    pose proof (pow2_pos e) as Hpos.
    apply Qmult_le_compat_r; [|lra].
    rewrite <- Zle_Qle. apply rne_le.
    apply Qle_shift_div_r; [exact Hpos|].
    now rewrite <- (@multiple_pow2 k e j He).
Qed.

Lemma round_ge (fmt : float_format) (x : Q) (k j : Z) :
  (emin fmt <= j)%Z ->
  Qabs x < 2 ^ (j + prec fmt) ->
  inject_Z k * 2 ^ j <= x ->
  inject_Z k * 2 ^ j <= round fmt x.
Proof.
  intros Hemin Hsize Hx. unfold round.
  destruct (Qeq_bool x 0) eqn:E.
  - apply Qeq_bool_iff in E. lra.
  - apply Qeq_bool_neq in E.
    set (e := Z.max (ilog2 (Qabs x) - (prec fmt - 1)) (emin fmt)).
    assert (He : (e <= j)%Z) by now apply round_exponent.
    rewrite Qred_correct, (@multiple_pow2 k e j He).
    pose proof (pow2_pos e) as Hpos.
    apply Qmult_le_compat_r; [|lra].
    rewrite <- Zle_Qle. apply rne_ge.
    apply Qle_shift_div_l; [exact Hpos|].
    now rewrite <- (@multiple_pow2 k e j He).
Qed.

(** A multiple of [2 ^ j] with fewer than [prec] bits is a value of the
    format: rounding leaves it as it is. *)
Lemma round_exact (fmt : float_format) (x : Q) (k j : Z) :
  (emin fmt <= j)%Z ->
  Qabs x < 2 ^ (j + prec fmt) ->
  x == inject_Z k * 2 ^ j ->
  round fmt x == x.
Proof.
  intros Hemin Hsize Hx. apply Qle_antisym.
  - rewrite Hx at 2. apply round_le; [assumption | assumption | lra].
  - rewrite Hx at 1. apply round_ge; [assumption | assumption | lra].
Qed.

Lemma fmod_range (x m : Q) :
  0 < m ->
  (0 <= x -> 0 <= fmod x m /\ fmod x m < m)
  /\ (x < 0 -> - m < fmod x m /\ fmod x m <= 0).
Proof.
  intros Hm. unfold fmod, Qtrunc.
  set (q := x / m).
  assert (Hq : m * q == x).
  { unfold q. apply Qmult_div_r. lra. }
  split; intros Hx.
  - assert (H0 : 0 <= q).
    { unfold q. apply Qle_shift_div_l; lra. }
    apply Qle_bool_iff in H0. rewrite H0.
    pose proof (Qfloor_le q) as Hlo.
    pose proof (Qlt_floor q) as Hhi.
    rewrite inject_Z_plus in Hhi. change (inject_Z 1) with 1 in Hhi.
    assert (H1 : 0 <= m * (q - inject_Z (Qfloor q)))
      by (apply Qmult_le_0_compat; lra).
    assert (H2 : 0 < m * (inject_Z (Qfloor q) + 1 - q))
      by (apply Qmult_lt_0_compat; lra).
    split; lra.
  - assert (H0 : Qle_bool 0 q = false).
    { destruct (Qle_bool 0 q) eqn:E; [|reflexivity].
      apply Qle_bool_iff in E.
      assert (0 <= m * q) by (apply Qmult_le_0_compat; lra). lra. }
    rewrite H0.
    pose proof (Qle_ceiling q) as Hhi.
    pose proof (Qceiling_lt q) as Hlo.
    unfold Z.sub in Hlo. rewrite inject_Z_plus in Hlo.
    change (inject_Z (- (1))) with (-1) in Hlo.
    assert (H1 : 0 <= m * (inject_Z (Qceiling q) - q))
      by (apply Qmult_le_0_compat; lra).
    assert (H2 : 0 < m * (q - (inject_Z (Qceiling q) + -1)))
      by (apply Qmult_lt_0_compat; lra).
    split; lra.
Qed.

Lemma pow2_le_prec (fmt : float_format) (n j : Z) :
  (n <= j + prec fmt)%Z -> 2 ^ n <= 2 ^ (j + prec fmt).
Proof. intros H. apply Qpower_le_compat_l; [exact H | lra]. Qed.

Lemma Qfloor_unit_interval (y : Q) (z : Z) :
  inject_Z z <= y -> y < inject_Z z + 1 -> Qfloor y = z.
Proof.
  intros Hlo Hhi.
  pose proof (Qfloor_le y) as Hfl.
  pose proof (Qlt_floor y) as Hfu.
  rewrite inject_Z_plus in Hfu. change (inject_Z 1) with 1 in Hfu.
  assert (H1 : inject_Z (Qfloor y) < inject_Z (z + 1)).
  { rewrite inject_Z_plus. change (inject_Z 1) with 1. lra. }
  assert (H2 : inject_Z z < inject_Z (Qfloor y + 1)).
  { rewrite inject_Z_plus. change (inject_Z 1) with 1. lra. }
  rewrite <- Zlt_Qlt in H1, H2. lia.
Qed.

(** [fmod x m] for [x] in [z * m, (z + 1) * m), [z] not negative. *)
Lemma fmod_period (x m : Q) (z : Z) :
  0 < m -> (0 <= z)%Z ->
  inject_Z z * m <= x -> x < (inject_Z z + 1) * m ->
  fmod x m == x - inject_Z z * m.
Proof.
  intros Hm Hz Hlo Hhi. unfold fmod, Qtrunc.
  set (q := x / m).
  assert (Hq : m * q == x).
  { unfold q. apply Qmult_div_r. lra. }
  assert (Hz' : 0 <= inject_Z z).
  { change 0 with (inject_Z 0). now rewrite <- Zle_Qle. }
  assert (Hq1 : inject_Z z <= q).
  { unfold q. apply Qle_shift_div_l; lra. }
  assert (Hq2 : q < inject_Z z + 1).
  { unfold q. apply Qlt_shift_div_r; lra. }
  assert (H0 : Qle_bool 0 q = true) by (apply Qle_bool_iff; lra).
  rewrite H0, (Qfloor_unit_interval Hq1 Hq2). ring.
Qed.

Lemma ilog2_upper (x : Q) : 0 < x -> x < 2 ^ (ilog2 x + 1).
Proof.
  intros Hx. unfold ilog2. destruct x as [n d]. cbn [Qnum Qden].
  set (a := Z.log2 n). set (b := Z.log2 (Z.pos d)).
  destruct (Qle_bool (2 ^ (a - b)) (n # d)) eqn:E.
  - unfold Qlt in Hx. simpl in Hx.
    assert (Hn : (0 < n)%Z) by lia.
    destruct (Z.log2_spec n Hn) as [_ Hhi].
    destruct (Z.log2_spec (Z.pos d) (Pos2Z.is_pos d)) as [Hlo _].
    fold a in Hhi. fold b in Hlo.
    assert (Ha : (0 <= a)%Z) by apply Z.log2_nonneg.
    assert (Hb : (0 <= b)%Z) by apply Z.log2_nonneg.
    assert (H1 : 2 ^ (a - b + 1) * 2 ^ b == 2 ^ (a + 1)).
    { rewrite <- Qpower_plus by discriminate.
      now replace (a - b + 1 + b)%Z with (a + 1)%Z by lia. }
    assert (H2 : 2 ^ b <= inject_Z (Z.pos d)).
    { rewrite pow2_nonneg_exponent by lia. now rewrite <- Zle_Qle. }
    assert (H3 : inject_Z n < 2 ^ (a + 1)).
    { rewrite pow2_nonneg_exponent by lia. rewrite <- Zlt_Qlt.
      replace (a + 1)%Z with (Z.succ a) by lia. exact Hhi. }
    assert (H4 : 0 < 2 ^ (a - b + 1)) by apply pow2_pos.
    assert (H5 : (n # d) == inject_Z n / inject_Z (Z.pos d)).
    { now rewrite Qmake_Qdiv. }
    rewrite H5.
    apply Qlt_shift_div_r; [reflexivity|].
    assert (H6 : 2 ^ (a - b + 1) * 2 ^ b
                 <= 2 ^ (a - b + 1) * inject_Z (Z.pos d)).
    { apply Qmult_le_l; [exact H4 | lra]. }
    lra.
  - apply Qle_bool_false in E.
    now replace (a - b - 1 + 1)%Z with (a - b)%Z by lia.
Qed.

Lemma ilog2_ge (x : Q) (n : Z) : 0 < x -> 2 ^ n <= x -> (n <= ilog2 x)%Z.
Proof.
  intros Hx Hn. pose proof (@ilog2_upper x Hx) as Hup.
  assert (H : (n < ilog2 x + 1)%Z).
  { apply Qpower_lt_compat_l_inv with (q := 2); [lra | reflexivity]. }
  lia.
Qed.

Lemma round_nonneg (fmt : float_format) (x : Q) : 0 <= x -> 0 <= round fmt x.
Proof.
  intros Hx. unfold round. destruct (Qeq_bool x 0); [lra|].
  set (e := Z.max (ilog2 (Qabs x) - (prec fmt - 1)) (emin fmt)).
  rewrite Qred_correct. pose proof (pow2_pos e) as Hpos.
  apply Qmult_le_0_compat; [|lra].
  change 0 with (inject_Z 0). rewrite <- Zle_Qle. apply rne_ge.
  change (inject_Z 0) with 0. apply Qle_shift_div_l; lra.
Qed.

(** From [2 ^ (j + prec - 1)] on, the values of the format are multiples
    of [2 ^ j]. *)
Lemma round_on_grid (fmt : float_format) (x : Q) (j : Z) :
  (j <= emin fmt)%Z \/ 2 ^ (j + prec fmt - 1) <= x ->
  exists k : Z, round fmt x == inject_Z k * 2 ^ j.
Proof.
  intros Hj. unfold round. destruct (Qeq_bool x 0) eqn:E.
  - exists 0%Z. change (inject_Z 0) with 0. ring.
  - set (e := Z.max (ilog2 (Qabs x) - (prec fmt - 1)) (emin fmt)).
    assert (He : (j <= e)%Z).
    { destruct Hj as [Hj | Hj]; [lia|].
      pose proof (pow2_pos (j + prec fmt - 1)) as Hpos.
      assert (Hx : 0 < x) by lra.
      assert (Habs : Qabs x == x) by (apply Qabs_pos; lra).
      assert (H : (j + prec fmt - 1 <= ilog2 (Qabs x))%Z).
      { apply ilog2_ge; rewrite Habs; assumption. }
      lia. }
    exists (rne (x / 2 ^ e) * 2 ^ (e - j))%Z.
    rewrite Qred_correct. now apply multiple_pow2.
Qed.

Lemma fsqrt_nearest_positive (fmt : float_format) (x : Q) :
  0 < x ->
  let w := fsqrt fmt x in
  let h := 2 ^ sqrt_exponent fmt x / 2 in
  0 <= w /\ x <= (w + h) * (w + h) /\ (h <= w -> (w - h) * (w - h) <= x).
Proof.
  intros Hx w h. unfold w, fsqrt.
  assert (E : Qle_bool x 0 = false).
  { destruct (Qle_bool x 0) eqn:E; [|reflexivity].
    apply Qle_bool_iff in E. lra. }
  rewrite E.
  set (e := sqrt_exponent fmt x) in *.
  pose proof (pow2_pos e) as HP.
  assert (H4 : 2 ^ (2 * e) == 2 ^ e * 2 ^ e).
  { rewrite <- Qpower_plus by discriminate.
    now replace (2 * e)%Z with (e + e)%Z by lia. }
  set (P := 2 ^ e) in *.
  set (y := x / 2 ^ (2 * e)).
  assert (Hy : x == y * (P * P)).
  { unfold y. rewrite H4. field. lra. }
  assert (Hy0 : 0 <= y).
  { unfold y. rewrite H4. apply Qle_shift_div_l; [|lra].
    apply Qmult_lt_0_compat; exact HP. }
  set (n := Z.sqrt (Qfloor y)).
  assert (Hf0 : (0 <= Qfloor y)%Z).
  { change 0%Z with (Qfloor 0). now apply Qfloor_resp_le. }
  destruct (Z.sqrt_spec (Qfloor y) Hf0) as [Hn1 Hn2]. fold n in Hn1, Hn2.
  assert (Hn0 : (0 <= n)%Z) by apply Z.sqrt_nonneg.
  pose proof (Qfloor_le y) as Hfl.
  pose proof (Qlt_floor y) as Hfu.
  rewrite inject_Z_plus in Hfu. change (inject_Z 1) with 1 in Hfu.
  set (N := inject_Z n).
  assert (HN0 : 0 <= N).
  { unfold N. change 0 with (inject_Z 0). now rewrite <- Zle_Qle. }
  assert (Hlo : N * N <= y).
  { unfold N. rewrite <- inject_Z_mult.
    apply Qle_trans with (y := inject_Z (Qfloor y)); [|exact Hfl].
    now rewrite <- Zle_Qle. }
  assert (Hhi : y < (N + 1) * (N + 1)).
  { apply Qlt_le_trans with (y := inject_Z (Qfloor y) + 1); [exact Hfu|].
    unfold N. change 1 with (inject_Z 1).
    rewrite <- !inject_Z_plus, <- inject_Z_mult, <- Zle_Qle. lia. }
  assert (Hm : forall m : Z,
             y <= (inject_Z m + (1 # 2)) * (inject_Z m + (1 # 2)) ->
             ((1 <= m)%Z -> (inject_Z m - (1 # 2)) * (inject_Z m - (1 # 2)) <= y) ->
             (0 <= m)%Z ->
             0 <= Qred (inject_Z m * P)
             /\ x <= (Qred (inject_Z m * P) + h) * (Qred (inject_Z m * P) + h)
             /\ (h <= Qred (inject_Z m * P) ->
                 (Qred (inject_Z m * P) - h) * (Qred (inject_Z m * P) - h) <= x)).
  { intros m Hup Hdown Hm0. rewrite Qred_correct. unfold h. fold P.
    assert (HM0 : 0 <= inject_Z m).
    { change 0 with (inject_Z 0). now rewrite <- Zle_Qle. }
    assert (HPP : 0 < P * P) by (apply Qmult_lt_0_compat; exact HP).
    split; [apply Qmult_le_0_compat; lra|]. split.
    - setoid_replace ((inject_Z m * P + P / 2) * (inject_Z m * P + P / 2))
        with ((inject_Z m + (1 # 2)) * (inject_Z m + (1 # 2)) * (P * P)) by field.
      rewrite Hy. apply Qmult_le_compat_r; lra.
    - intros Hh.
      assert (H1 : (1 <= m)%Z).
      { destruct (Z.eq_dec m 0) as [-> | Hne]; [|lia].
        change (inject_Z 0) with 0 in Hh.
        assert (H0 : 0 * P == 0) by ring. rewrite H0 in Hh.
        assert (Hh' : 0 < P / 2) by (apply Qlt_shift_div_l; lra). lra. }
      setoid_replace ((inject_Z m * P - P / 2) * (inject_Z m * P - P / 2))
        with ((inject_Z m - (1 # 2)) * (inject_Z m - (1 # 2)) * (P * P)) by field.
      rewrite Hy. apply Qmult_le_compat_r; [auto | lra]. }
  assert (Hsq : forall a b : Q, 0 <= a -> a <= b -> a * a <= b * b).
  { intros a b Ha Hab.
    apply Qle_trans with (y := b * a).
    - apply Qmult_le_compat_r; lra.
    - rewrite (Qmult_comm b a). apply Qmult_le_compat_r; lra. }
  assert (Hn1' : inject_Z (n + 1) == N + 1).
  { unfold N. rewrite inject_Z_plus. reflexivity. }
  assert (Hup1 : y <= (inject_Z (n + 1) + (1 # 2)) * (inject_Z (n + 1) + (1 # 2))).
  { rewrite Hn1'.
    apply Qle_trans with (y := (N + 1) * (N + 1)); [lra|].
    apply Hsq; lra. }
  assert (Hdown0 : (1 <= n)%Z ->
                   (N - (1 # 2)) * (N - (1 # 2)) <= y).
  { intros H1.
    assert (1 <= N).
    { unfold N. change 1 with (inject_Z 1). now rewrite <- Zle_Qle. }
    apply Qle_trans with (y := N * N); [|exact Hlo].
    apply Hsq; lra. }
  fold N.
  destruct (Qcompare_spec y ((N + (1 # 2)) * (N + (1 # 2)))) as [Hc | Hc | Hc].
  - destruct (Z.even n).
    + apply Hm; [fold N; lra | fold N; exact Hdown0 | exact Hn0].
    + apply Hm; [exact Hup1 | | lia].
      intros _. rewrite Hn1'.
      setoid_replace (N + 1 - (1 # 2)) with (N + (1 # 2)) by ring. lra.
  - apply Hm; [fold N; lra | fold N; exact Hdown0 | exact Hn0].
  - apply Hm; [exact Hup1 | | lia].
    intros _. rewrite Hn1'.
    setoid_replace (N + 1 - (1 # 2)) with (N + (1 # 2)) by ring. lra.
Qed.

(** The square root, rounded to the format: within half the spacing the
    format has at the root. *)
Lemma fsqrt_nearest (fmt : float_format) (x : Q) :
  0 <= x ->
  let w := fsqrt fmt x in
  let h := 2 ^ sqrt_exponent fmt x / 2 in
  0 <= w /\ x <= (w + h) * (w + h) /\ (h <= w -> (w - h) * (w - h) <= x).
Proof.
  intros Hx. destruct (Qlt_le_dec 0 x) as [Hpos | Hzero].
  - now apply fsqrt_nearest_positive.
  - intros w h.
    assert (Hw : w = 0).
    { unfold w, fsqrt.
      assert (E : Qle_bool x 0 = true) by now apply Qle_bool_iff.
      now rewrite E. }
    assert (Hh : 0 < h).
    { unfold h. apply Qlt_shift_div_l; [reflexivity|].
      pose proof (pow2_pos (sqrt_exponent fmt x)). lra. }
    rewrite Hw. split; [lra|]. split; [|lra].
    assert (0 <= h * h) by (apply Qmult_le_0_compat; lra).
    setoid_replace ((0 + h) * (0 + h)) with (h * h) by ring. lra.
Qed.

(** ** Wind speed, element by element *)

Lemma nth_error_zip_with {A B C : Type} (f : A -> B -> C) :
  forall (a : list A) (b : list B) (i : nat),
    nth_error (zip_with f a b) i
    = match nth_error a i, nth_error b i with
      | Some x, Some y => Some (f x y)
      | _, _ => None
      end.
Proof.
  induction a as [|x a IH]; intros [|y b] [|i]; simpl; try reflexivity.
  - destruct (nth_error a i); reflexivity.
  - apply IH.
Qed.

Lemma get3_map (f : Q -> Q) (g : grid) (t i j : nat) :
  get3 (map (map (map f)) g) t i j = option_map f (get3 g t i j).
Proof.
  unfold get3. rewrite nth_error_map.
  destruct (nth_error g t) as [plane|]; simpl; [|reflexivity].
  rewrite nth_error_map.
  destruct (nth_error plane i) as [row|]; simpl; [|reflexivity].
  apply nth_error_map.
Qed.

Lemma get3_zip_with (f : Q -> Q -> Q) (a b : grid) (t i j : nat) :
  get3 (zip_with (zip_with (zip_with f)) a b) t i j
  = match get3 a t i j, get3 b t i j with
    | Some x, Some y => Some (f x y)
    | _, _ => None
    end.
Proof.
  unfold get3. rewrite nth_error_zip_with.
  destruct (nth_error a t) as [pa|], (nth_error b t) as [pb|]; try reflexivity.
  - rewrite nth_error_zip_with.
    destruct (nth_error pa i) as [ra|], (nth_error pb i) as [rb|];
      try reflexivity.
    + apply nth_error_zip_with.
    + destruct (nth_error ra j); reflexivity.
  - destruct (nth_error pa i) as [ra|]; [|reflexivity].
    destruct (nth_error ra j); reflexivity.
Qed.

Lemma ds_contains_getitem (ds : Dataset) (name : string) :
  ds_contains ds name = true -> exists da, ds_getitem ds name = Ok da.
Proof.
  unfold ds_contains, ds_getitem. intros H.
  destruct (dict_get (data_vars ds) name) as [da|] eqn:E; [eauto|].
  destruct (dict_mem (data_vars ds) name) eqn:M.
  - apply dict_mem_get in M as [da Hda]. congruence.
  - simpl in H. rewrite H. eauto.
Qed.

Local Open Scope Q_scope.


(** What [calculate_wind_speed] stores when the two components are data
    variables. *)
Lemma calculate_wind_speed_stores
      (np_sqrt : Q -> Q) (fmt : float_format)
      (self : ERA5DataProcessor) (ds : Dataset)
      (u_component v_component new_var_name : string) (u v : DataArray)
      (Hloaded : loaded_dataset self = Some ds)
      (Hu : dict_get (data_vars ds) u_component = Some u)
      (Hv : dict_get (data_vars ds) v_component = Some v) :
  exists wind_speed ds',
    calculate_wind_speed np_sqrt fmt u_component v_component new_var_name self
    = (Ok tt, with_loaded_dataset self ds')
    /\ dict_get (data_vars ds') new_var_name = Some wind_speed
    /\ (forall t i j,
           get3 (values wind_speed) t i j
           = match get3 (values u) t i j, get3 (values v) t i j with
             | Some x, Some y =>
                 Some (np_sqrt (round fmt (round fmt (x * x)
                                           + round fmt (y * y))))
             | _, _ => None
             end)
    /\ (forall name,
           name <> new_var_name ->
           dict_get (data_vars ds') name = dict_get (data_vars ds) name)
    /\ valid_time ds' = valid_time ds
    /\ latitude ds' = latitude ds
    /\ longitude ds' = longitude ds.
Proof.
  assert (Hcu : ds_contains ds u_component = true).
  { unfold ds_contains. apply orb_true_iff. left.
    apply dict_mem_get. eauto. }
  assert (Hcv : ds_contains ds v_component = true).
  { unfold ds_contains. apply orb_true_iff. left.
    apply dict_mem_get. eauto. }
  assert (Hgu : ds_getitem ds u_component = Ok u).
  { unfold ds_getitem. now rewrite Hu. }
  assert (Hgv : ds_getitem ds v_component = Ok v).
  { unfold ds_getitem. now rewrite Hv. }
  set (w := da_map np_sqrt (da_add fmt (da_square fmt u) (da_square fmt v))).
  assert (Hw : forall t i j,
             get3 (values w) t i j
             = match get3 (values u) t i j, get3 (values v) t i j with
               | Some x, Some y =>
                   Some (np_sqrt (round fmt (round fmt (x * x)
                                             + round fmt (y * y))))
               | _, _ => None
               end).
  { intros t i j. unfold w, da_add, da_square, da_map. cbn [values].
    rewrite get3_map, get3_zip_with, !get3_map.
    destruct (get3 (values u) t i j), (get3 (values v) t i j); reflexivity. }
  assert (Hother : forall (d : Dataset) name,
             name <> new_var_name ->
             dict_get (data_vars (ds_setitem d new_var_name w)) name
             = dict_get (data_vars d) name).
  { intros d name Hne. simpl. rewrite dict_get_set.
    apply String.eqb_neq in Hne. now rewrite Hne. }
  assert (Hset : forall d da,
             dict_get (data_vars (ds_setitem d new_var_name da)) new_var_name
             = Some da).
  { intros d da. simpl. rewrite dict_get_set, String.eqb_refl. reflexivity. }
  unfold calculate_wind_speed, then_, get_self, raise, lift,
    set_loaded_dataset.
  rewrite Hloaded, Hcu, Hcv, Hgu, Hgv. fold w. clearbody w. simpl.
  destruct (include_attributes self).
  - assert (Hu' : ds_contains (ds_setitem ds new_var_name w) u_component
                  = true).
    { unfold ds_contains. apply orb_true_iff. left. apply dict_mem_get.
      destruct (String.eqb u_component new_var_name) eqn:E.
      - apply String.eqb_eq in E. subst. rewrite Hset. eauto.
      - apply String.eqb_neq in E. rewrite (Hother ds _ E). eauto. }
    destruct (ds_contains_getitem _ _ Hu') as [u' Hgu']. rewrite Hgu'.
    unfold ds_set_attrs. rewrite Hset.
    eexists _, _. split; [reflexivity|]. split; [apply Hset|].
    split; [exact Hw|]. split; [|repeat split].
    intros name Hne. simpl. rewrite !dict_get_set.
    apply String.eqb_neq in Hne. rewrite Hne. reflexivity.
  - exists w, (ds_setitem ds new_var_name w).
    split; [reflexivity|]. split; [apply Hset|].
    split; [exact Hw|]. split; [|repeat split].
    intros name Hne. now apply Hother.
Qed.



(** ** Subsampling *)

Lemma nth_error_stride_from {A : Type} (step : nat) (Hstep : (0 < step)%nat) :
  forall (l : list A) (k j : nat),
    nth_error (stride_from step k l) j = nth_error l (k + j * step).
Proof.
  induction l as [|x l IH]; intros k j; simpl.
  - destruct j, (k + _)%nat; reflexivity.
  - destruct k as [|k]; simpl.
    + destruct j as [|j]; simpl; [reflexivity|].
      rewrite IH.
      replace (step + j * step)%nat with (S (step - 1 + j * step)) by lia.
      reflexivity.
    + apply IH.
Qed.

Lemma nth_error_stride {A : Type} (step : nat) (l : list A) (j : nat) :
  (0 < step)%nat -> nth_error (stride step l) j = nth_error l (j * step).
Proof. intros H. unfold stride. now rewrite nth_error_stride_from. Qed.

Lemma length_stride_from {A : Type} (step : nat) (Hstep : (0 < step)%nat) :
  forall (l : list A) (k : nat),
    (k < step)%nat ->
    length (stride_from step k l) = ((length l + (step - 1) - k) / step)%nat.
Proof.
  induction l as [|x l IH]; intros k Hk; simpl.
  - symmetry. apply Nat.div_small. lia.
  - destruct k as [|k]; simpl.
    + rewrite IH by lia.
      replace (length l + (step - 1) - (step - 1))%nat with (length l) by lia.
      replace (S (length l + (step - 1)))%nat
        with (length l + 1 * step)%nat by lia.
      rewrite Nat.div_add by lia. lia.
    + rewrite IH by lia. reflexivity.
Qed.

(** The length of [l[::step]] is the length of [l] over [step], rounded up. *)
Lemma length_stride {A : Type} (step : Z) (l : list A) :
  (0 < step)%Z ->
  Z.of_nat (length (stride (Z.to_nat step) l))
  = ((Z.of_nat (length l) + step - 1) / step)%Z.
Proof.
  intros H. unfold stride.
  rewrite length_stride_from by lia.
  rewrite Nat.sub_0_r, Nat2Z.inj_div, Nat2Z.inj_add, Nat2Z.inj_sub by lia.
  rewrite Z2Nat.id by lia. f_equal. lia.
Qed.

Lemma strided_positive {A : Type} (step : Z) (l : list A) :
  (0 < step)%Z -> strided step l = stride (Z.to_nat step) l.
Proof.
  intros H. unfold strided. destruct (Z.ltb_spec 0 step); [reflexivity | lia].
Qed.

Lemma get3_strided (step : nat) (g : grid) (t i j : nat) :
  (0 < step)%nat ->
  get3 (on_longitude (stride step) (on_latitude (stride step) g)) t i j
  = get3 g t (i * step) (j * step).
Proof.
  intros H. unfold get3, on_longitude, on_latitude.
  rewrite !nth_error_map.
  destruct (nth_error g t) as [plane|]; simpl; [|reflexivity].
  rewrite nth_error_map, nth_error_stride by exact H.
  destruct (nth_error plane (i * step)) as [row|]; simpl; [|reflexivity].
  now apply nth_error_stride.
Qed.

Lemma dict_set_fresh {V : Type} (d : dict V) (k : string) (v : V) :
  dict_mem d k = false -> dict_set d k v = (d ++ [(k, v)])%list.
Proof.
  unfold dict_mem, dict_keys.
  induction d as [|[k' v'] d IH]; simpl; [reflexivity|].
  destruct (String.eqb k k'); simpl; [discriminate|].
  intros H. now rewrite IH.
Qed.

Lemma dict_mem_app {V : Type} (d d' : dict V) (k : string) :
  dict_mem (d ++ d')%list k = dict_mem d k || dict_mem d' k.
Proof. unfold dict_mem, dict_keys. now rewrite map_app, existsb_app. Qed.

Lemma dict_get_map_values {V W : Type} (f : V -> W) (d : dict V) (k : string) :
  dict_get (map (fun kv => (fst kv, f (snd kv))) d) k
  = option_map f (dict_get d k).
Proof.
  induction d as [|[k' v'] d IH]; simpl; [reflexivity|].
  destruct (String.eqb k k'); [reflexivity | exact IH].
Qed.

(** With distinct names the loop maps [isel] over the variables, in order. *)
Lemma subsample_loop_map (step : Z) (Hstep : step <> 0%Z) :
  forall (vars subsampled_vars : dict DataArray),
    unique (dict_keys vars) = true ->
    (forall k, In k (dict_keys vars) -> dict_mem subsampled_vars k = false) ->
    subsample_loop step vars subsampled_vars
    = Ok (subsampled_vars
          ++ map (fun kv =>
                    (fst kv,
                     {| values := on_longitude (strided step)
                                    (on_latitude (strided step) (values (snd kv)));
                        attrs := attrs (snd kv) |}))
                 vars)%list.
Proof.
  induction vars as [|[k da] vars IH]; intros acc Huniq Hfresh; simpl.
  - now rewrite app_nil_r.
  - simpl in Huniq. apply andb_true_iff in Huniq as [Hk Huniq].
    apply negb_true_iff in Hk.
    unfold isel_step. destruct (Z.eqb_spec step 0); [contradiction|]. simpl.
    rewrite dict_set_fresh by (apply Hfresh; simpl; auto).
    rewrite IH; [now rewrite <- app_assoc | exact Huniq |].
    intros k' Hin. rewrite dict_mem_app.
    rewrite Hfresh by (simpl; auto). simpl.
    unfold dict_mem. simpl. rewrite orb_false_r.
    destruct (String.eqb k' k) eqn:E; [|reflexivity].
    apply String.eqb_eq in E. subst k'.
    assert (existsb (String.eqb k) (dict_keys vars) = true); [|congruence].
    apply existsb_exists. exists k. split; [exact Hin | apply String.eqb_refl].
Qed.

(** C7: on a processed state and for a positive step, [subsample_data]
    returns a dataset and leaves the processor (so the loaded dataset) as it
    was; the result has [ceil(N / step)] latitudes and [ceil(M / step)]
    longitudes, its labels are the source labels at positions 0, step,
    2 * step, ..., and each variable is the source variable at those
    positions of the latitude and longitude axes. *)
Theorem subsample_data_every_step
        (self : ERA5DataProcessor) (ds : Dataset) (step : Z)
        (Hloaded : loaded_dataset self = Some ds)
        (Hwf : wf_dataset ds = true)
        (Hstep : (0 < step)%Z) :
  exists sub,
    subsample_data step self = (Ok sub, self)
    /\ Z.of_nat (length (latitude sub))
       = ((Z.of_nat (length (latitude ds)) + step - 1) / step)%Z
    /\ Z.of_nat (length (longitude sub))
       = ((Z.of_nat (length (longitude ds)) + step - 1) / step)%Z
    /\ (forall k,
           nth_error (latitude sub) k
           = nth_error (latitude ds) (k * Z.to_nat step))
    /\ (forall k,
           nth_error (longitude sub) k
           = nth_error (longitude ds) (k * Z.to_nat step))
    /\ dict_keys (data_vars sub) = dict_keys (data_vars ds)
    /\ (forall name da,
           dict_get (data_vars ds) name = Some da ->
           exists sda,
             dict_get (data_vars sub) name = Some sda
             /\ attrs sda = attrs da
             /\ forall t i j,
                  get3 (values sda) t i j
                  = get3 (values da) t (i * Z.to_nat step) (j * Z.to_nat step)).
Proof.
  assert (Hnz : step <> 0%Z) by lia.
  assert (Hnat : (0 < Z.to_nat step)%nat) by lia.
  apply andb_true_iff in Hwf as [Huniq _].
  unfold subsample_data, then_, get_self, raise, lift, ret, slice_step.
  rewrite Hloaded. destruct (Z.eqb_spec step 0); [contradiction|].
  rewrite (subsample_loop_map Hnz (data_vars ds) [] Huniq)
    by (intros; reflexivity).
  simpl. eexists. split; [reflexivity|]. simpl.
  rewrite !strided_positive by exact Hstep.
  repeat split.
  - now apply length_stride.
  - now apply length_stride.
  - intros k. now apply nth_error_stride.
  - intros k. now apply nth_error_stride.
  - destruct (data_vars ds) as [|kv vars] eqn:E; simpl; [reflexivity|].
    unfold dict_keys. simpl. f_equal. rewrite map_map. reflexivity.
  - intros name da Hda.
    exists {| values := on_longitude (strided step)
                          (on_latitude (strided step) (values da));
              attrs := attrs da |}.
    split; [|split; [reflexivity|]].
    + assert (Hget : dict_get
                       (map (fun kv =>
                               (fst kv,
                                {| values := on_longitude (strided step)
                                               (on_latitude (strided step)
                                                  (values (snd kv)));
                                   attrs := attrs (snd kv) |}))
                            (data_vars ds)) name
                     = Some {| values := on_longitude (strided step)
                                           (on_latitude (strided step) (values da));
                               attrs := attrs da |}).
      { rewrite (dict_get_map_values
                   (fun a => {| values := on_longitude (strided step)
                                            (on_latitude (strided step) (values a));
                                attrs := attrs a |})), Hda.
        reflexivity. }
      destruct (data_vars ds) as [|kv vars]; [discriminate|].
      exact Hget.
    + intros t i j. simpl. unfold strided.
      destruct (Z.ltb_spec 0 step); [|lia]. now apply get3_strided.
Qed.

Lemma subsample_data_every_step_witness :
  exists sub,
    subsample_data 2 Sample.processed = (Ok sub, Sample.processed)
    /\ longitude sub = [-90; 90]
    /\ dict_get (data_vars sub) "u10"%string
       = Some {| values := [[[5; 6]]; [[3; 5]]];
                 attrs := [("units", "m s**-1")]%string |}.
Proof.
  destruct (@subsample_data_every_step Sample.processed Sample.loaded 2
              eq_refl eq_refl eq_refl)
    as (sub & Hrun & _).
  exists sub. split; [exact Hrun|].
  assert (E : fst (subsample_data 2 Sample.processed) = Ok sub)
    by now rewrite Hrun.
  vm_compute in E. injection E as <-. split; reflexivity.
Defined.

(** ** Running [process_data] again *)

Import Session.

Lemma same_inputs_refl (a : ERA5DataProcessor) : same_inputs a a.
Proof. repeat split. Qed.

Lemma same_inputs_trans (a b c : ERA5DataProcessor) :
  same_inputs a b -> same_inputs b c -> same_inputs a c.
Proof.
  unfold same_inputs. intros (?&?&?&?&?&?) (?&?&?&?&?&?).
  repeat split; congruence.
Qed.

Lemma same_inputs_with_loaded (a : ERA5DataProcessor) (d : Dataset) :
  same_inputs a (with_loaded_dataset a d).
Proof. repeat split. Qed.

Lemma with_loaded_same_inputs (a b : ERA5DataProcessor) (d : Dataset) :
  same_inputs a b -> with_loaded_dataset b d = with_loaded_dataset a d.
Proof.
  unfold same_inputs, with_loaded_dataset. intros (?&?&?&?&?&?). congruence.
Qed.

Ltac step_method :=
  match goal with
  | |- context [match ?x with _ => _ end] => destruct x; simpl
  | |- context [if ?x then _ else _] => destruct x; simpl
  end.

Ltac keeps_inputs :=
  repeat step_method;
  solve [ apply same_inputs_refl
        | apply same_inputs_with_loaded
        | eapply same_inputs_trans; apply same_inputs_with_loaded ].

(** No method touches the original dataset or the options. *)
Lemma run_call_same_inputs (np_sqrt : Q -> Q) (lon_fmt data_fmt : float_format)
      (self : ERA5DataProcessor)
      (c : call) :
  same_inputs self (run_call np_sqrt lon_fmt data_fmt self c).
Proof.
  destruct c; simpl.
  - unfold process_data, then_, get_self, lift, set_loaded_dataset. simpl.
    keeps_inputs.
  - unfold extract_components_by_given_timestep, then_, get_self, lift,
      raise, ret. simpl. keeps_inputs.
  - unfold calculate_wind_speed, then_, get_self, lift, raise,
      set_loaded_dataset. simpl. keeps_inputs.
  - unfold subsample_data, then_, get_self, lift, raise, ret. simpl.
    keeps_inputs.
  - unfold get_processed_data, then_, get_self, raise, ret. simpl.
    keeps_inputs.
Qed.

Lemma run_calls_same_inputs (np_sqrt : Q -> Q) (lon_fmt data_fmt : float_format)
      (cs : list call) :
  forall self, same_inputs self (run_calls np_sqrt lon_fmt data_fmt self cs).
Proof.
  unfold run_calls.
  induction cs as [|c cs IH]; intros self; simpl.
  - apply same_inputs_refl.
  - eapply same_inputs_trans; [apply run_call_same_inputs | apply IH].
Qed.

(** [process_data] reads the original dataset and the options only. *)
Lemma process_data_same_inputs (fmt : float_format) (a b : ERA5DataProcessor) :
  same_inputs a b ->
  (exists d,
      process_data fmt a = (Ok tt, with_loaded_dataset a d)
      /\ process_data fmt b = (Ok tt, with_loaded_dataset b d))
  \/ (exists e,
        process_data fmt a = (Raise e, a) /\ process_data fmt b = (Raise e, b)).
Proof.
  unfold same_inputs. intros (Hd & Hv & Hr & Hs & Hc & Hi).
  unfold process_data, then_, get_self, lift, set_loaded_dataset. simpl.
  rewrite <- Hd, <- Hv, <- Hr, <- Hs, <- Hc.
  destruct (date_range a) as [start_date end_date].
  destruct (sel_valid_time (dataset a) start_date end_date) as [d1|e];
    simpl; [|right; eauto].
  destruct (ds_getitem_list d1 (names_list (variables a))) as [d2|e];
    simpl; [|right; eauto].
  match goal with
  | |- context [sel_region ?d ?x ?y ?z ?w] =>
      destruct (sel_region d x y z w) as [d3|e]
  end; simpl; [left | right]; eauto.
Qed.

(** C8: whatever calls are made after a first [process_data], a second
    [process_data] has the outcome of the first, and when the first
    returned, it leaves the processor, loaded dataset included, exactly as
    the first call left it; the original dataset is the one the processor
    started with. *)
Theorem process_data_idempotent
        (np_sqrt : Q -> Q) (lon_fmt data_fmt : float_format)
        (self : ERA5DataProcessor) (cs : list call) :
  let once := process_data lon_fmt self in
  let later := run_calls np_sqrt lon_fmt data_fmt (snd once) cs in
  let again := process_data lon_fmt later in
  fst again = fst once
  /\ (fst once = Ok tt -> again = once)
  /\ dataset later = dataset self.
Proof.
  intros once later again.
  assert (Hself : same_inputs self (snd once)).
  { apply (run_call_same_inputs np_sqrt lon_fmt data_fmt self ProcessData). }
  assert (Hlater : same_inputs self later).
  { eapply same_inputs_trans; [exact Hself | apply run_calls_same_inputs]. }
  destruct (process_data_same_inputs lon_fmt Hlater)
    as [(d & Ha & Hb) | (e & Ha & Hb)];
    subst again; fold once in Ha; rewrite Hb, Ha; simpl.
  - split; [reflexivity|]. split.
    + intros _. f_equal. now apply with_loaded_same_inputs.
    + symmetry. apply Hlater.
  - split; [reflexivity|]. split.
    + discriminate.
    + symmetry. apply Hlater.
Qed.

Lemma process_data_idempotent_witness :
  fst (process_data binary64 Sample.fresh) = Ok tt
  /\ process_data binary64
       (run_calls Sample.int_sqrt binary64 binary32
          (snd (process_data binary64 Sample.fresh))
          [CalculateWindSpeed "u10" "v10" "wind_speed"; SubsampleData 2;
           ExtractComponents 0 None true])
     = process_data binary64 Sample.fresh.
Proof.
  split; [vm_compute; reflexivity|].
  apply (proj1 (proj2 (process_data_idempotent
                         Sample.int_sqrt binary64 binary32 Sample.fresh
                         [CalculateWindSpeed "u10" "v10" "wind_speed";
                          SubsampleData 2; ExtractComponents 0 None true]))).
  vm_compute. reflexivity.
Defined.

(** ** Longitudes after conversion *)

(** The remap lands in [-180, 180], in every binary format with at least
    six bits of precision. *)
Lemma convert_lon_range (fmt : float_format) (lon : Q) :
  (6 <= prec fmt)%Z -> (emin fmt <= 2)%Z ->
  -180 <= convert_lon fmt lon /\ convert_lon fmt lon <= 180.
Proof.
  intros Hprec Hemin. unfold convert_lon, py_mod.
  set (a := round fmt (lon + 180)).
  destruct (@fmod_range a 360 ltac:(reflexivity)) as [Hpos Hneg].
  set (r := fmod a 360) in *.
  assert (H512 : 2 ^ 9 <= 2 ^ (3 + prec fmt)) by (apply pow2_le_prec; lia).
  assert (H256 : 2 ^ 8 <= 2 ^ (2 + prec fmt)) by (apply pow2_le_prec; lia).
  change (2 ^ 9) with 512 in H512. change (2 ^ 8) with 256 in H256.
  assert (Hm : 0 <= (if negb (Qeq_bool r 0) && xorb (Qltb 360 0) (Qltb r 0)
                     then round fmt (r + 360) else r)
               /\ (if negb (Qeq_bool r 0) && xorb (Qltb 360 0) (Qltb r 0)
                   then round fmt (r + 360) else r) <= 360).
  { change (Qltb 360 0) with false. simpl xorb.
    destruct (Qlt_le_dec a 0) as [Ha | Ha].
    - destruct (Hneg Ha) as [Hlo Hhi].
      destruct (negb (Qeq_bool r 0) && Qltb r 0) eqn:E.
      + assert (Habs : Qabs (r + 360) < 2 ^ (3 + prec fmt)).
        { apply Qabs_case; intros; lra. }
        split.
        * change 0 with (inject_Z 0 * 2 ^ 3).
          apply round_ge; [lia | exact Habs |].
          change (inject_Z 0 * 2 ^ 3) with 0. lra.
        * change 360 with (inject_Z 45 * 2 ^ 3) at 2.
          apply round_le; [lia | exact Habs |].
          change (inject_Z 45 * 2 ^ 3) with 360. lra.
      + apply andb_false_iff in E as [E | E].
        * apply negb_false_iff, Qeq_bool_iff in E. lra.
        * unfold Qltb in E. apply negb_false_iff, Qle_bool_iff in E. lra.
    - destruct (Hpos Ha) as [Hlo Hhi].
      destruct (negb (Qeq_bool r 0) && Qltb r 0) eqn:E; [|lra].
      apply andb_true_iff in E as [_ E].
      unfold Qltb in E. apply negb_true_iff, Qle_bool_false in E. lra. }
  set (m := if negb (Qeq_bool r 0) && xorb (Qltb 360 0) (Qltb r 0)
            then round fmt (r + 360) else r) in *.
  destruct Hm as [Hlo Hhi].
  assert (Habs : Qabs (m - 180) < 2 ^ (2 + prec fmt)).
  { apply Qabs_case; intros; lra. }
  split.
  - change (-180) with (inject_Z (-45) * 2 ^ 2).
    apply round_ge; [lia | exact Habs |].
    change (inject_Z (-45) * 2 ^ 2) with (-180). lra.
  - change 180 with (inject_Z 45 * 2 ^ 2) at 2.
    apply round_le; [lia | exact Habs |].
    change (inject_Z 45 * 2 ^ 2) with 180. lra.
Qed.

(** A source longitude from -180 on is mapped below 180. *)
Lemma convert_lon_below_180 (fmt : float_format) (lon : Q) :
  (7 <= prec fmt)%Z -> (emin fmt <= 2)%Z ->
  -180 <= lon -> convert_lon fmt lon < 180.
Proof.
  intros Hprec Hemin Hlon. unfold convert_lon, py_mod.
  set (x := lon + 180).
  assert (Hx : 0 <= x) by (unfold x; lra).
  pose proof (@round_nonneg fmt x Hx) as Ha.
  set (a := round fmt x) in *.
  destruct (@fmod_range a 360 ltac:(reflexivity)) as [Hpos _].
  destruct (Hpos Ha) as [Hlo Hhi].
  change (Qltb 360 0) with false. simpl xorb.
  assert (E : negb (Qeq_bool (fmod a 360) 0) && Qltb (fmod a 360) 0 = false).
  { apply andb_false_iff. right. unfold Qltb.
    now apply negb_false_iff, Qle_bool_iff. }
  rewrite E.
  assert (H256 : 2 ^ 8 <= 2 ^ (2 + prec fmt)) by (apply pow2_le_prec; lia).
  change (2 ^ 8) with 256 in H256.
  destruct (Qlt_le_dec x 256) as [Hsmall | Hlarge].
  - assert (Ha' : a <= 256).
    { change 256 with (inject_Z 1 * 2 ^ 8). apply round_le; [lia | |].
      - assert (H : 2 ^ 8 <= 2 ^ (8 + prec fmt)) by (apply pow2_le_prec; lia).
        change (2 ^ 8) with 256 in H. apply Qabs_case; intros; lra.
      - change (inject_Z 1 * 2 ^ 8) with 256. lra. }
    assert (Hr : fmod a 360 == a).
    { rewrite (@fmod_period a 360 0); [ring | reflexivity | lia | |];
        change (inject_Z 0) with 0; lra. }
    apply Qle_lt_trans with (y := 76); [|reflexivity].
    change 76 with (inject_Z 19 * 2 ^ 2). apply round_le; [lia | |].
    + apply Qabs_case; intros; lra.
    + change (inject_Z 19 * 2 ^ 2) with 76. lra.
  - set (j := Z.max (9 - prec fmt) (emin fmt)).
    assert (Hj2 : (j <= 2)%Z) by lia.
    destruct (@round_on_grid fmt x j) as [k Hk].
    { destruct (Z.max_spec (9 - prec fmt) (emin fmt)) as [[_ Hm] | [_ Hm]].
      - left. lia.
      - right. fold j in Hm. rewrite Hm.
        replace (9 - prec fmt + prec fmt - 1)%Z with 8%Z by lia. exact Hlarge. }
    fold a in Hk.
    set (r := fmod a 360) in *.
    set (T := Qtrunc (a / 360)).
    assert (H360 : 360 == inject_Z (45 * 2 ^ (3 - j)) * 2 ^ j).
    { rewrite <- multiple_pow2 by lia. reflexivity. }
    assert (H180 : 180 == inject_Z (45 * 2 ^ (2 - j)) * 2 ^ j).
    { rewrite <- multiple_pow2 by lia. reflexivity. }
    set (c := (45 * 2 ^ (2 - j))%Z) in *.
    assert (Hc : (45 * 2 ^ (3 - j) = 2 * c)%Z).
    { unfold c. replace (3 - j)%Z with (Z.succ (2 - j)) by lia.
      rewrite Z.pow_succ_r by lia. lia. }
    rewrite Hc in H360.
    pose proof (pow2_pos j) as HP.
    set (P := 2 ^ j) in *.
    assert (HK : inject_Z (k - 2 * c * T) == inject_Z k - inject_Z (2 * c) * inject_Z T).
    { unfold Z.sub. rewrite inject_Z_plus, inject_Z_opp, inject_Z_mult. ring. }
    assert (Hr : r == inject_Z (k - 2 * c * T) * P).
    { unfold r, fmod. fold T. rewrite HK, Hk.
      transitivity (inject_Z k * P - (inject_Z (2 * c) * P) * inject_Z T);
        [rewrite <- H360; ring | ring]. }
    assert (Hlt : (k - 2 * c * T < 2 * c)%Z).
    { rewrite Zlt_Qlt. apply Qmult_lt_r with (z := P); [exact HP|].
      rewrite <- Hr, <- H360. exact Hhi. }
    assert (Hle : r - 180 <= inject_Z (c - 1) * P).
    { assert (H1 : inject_Z (k - 2 * c * T) <= inject_Z (2 * c - 1)).
      { rewrite <- Zle_Qle. lia. }
      assert (H2 : inject_Z (2 * c - 1) == inject_Z (c - 1) + inject_Z c).
      { rewrite <- inject_Z_plus. now replace (2 * c - 1)%Z with (c - 1 + c)%Z by lia. }
      assert (H3 : inject_Z (k - 2 * c * T) * P <= inject_Z (2 * c - 1) * P).
      { apply Qmult_le_compat_r; lra. }
      rewrite Hr, H180.
      setoid_replace (inject_Z (c - 1) * P)
        with (inject_Z (2 * c - 1) * P - inject_Z c * P)
        by (rewrite H2; ring).
      lra. }
    assert (H512 : 2 ^ 9 <= 2 ^ (j + prec fmt)) by (apply pow2_le_prec; lia).
    change (2 ^ 9) with 512 in H512.
    apply Qle_lt_trans with (y := inject_Z (c - 1) * P).
    + apply round_le; [lia | | exact Hle].
      apply Qabs_case; intros; lra.
    + assert (H2 : inject_Z (c - 1) == inject_Z c - 1).
      { unfold Z.sub. rewrite inject_Z_plus. reflexivity. }
      rewrite H2, H180. lra.
Qed.

Lemma insert_key_In (p : Q * nat) (l : list (Q * nat)) (q : Q * nat) :
  In q (insert_key p l) <-> q = p \/ In q l.
Proof.
  induction l as [|r l IH]; simpl.
  - intuition.
  - destruct (Qle_bool (fst p) (fst r)); simpl; [intuition|].
    rewrite IH. intuition.
Qed.

Lemma insert_key_sorted (p : Q * nat) (l : list (Q * nat)) :
  StronglySorted (fun p q : Q * nat => fst p <= fst q) l ->
  StronglySorted (fun p q : Q * nat => fst p <= fst q) (insert_key p l).
Proof.
  induction 1 as [|r l Hsorted IH Hall]; simpl.
  - constructor; constructor.
  - destruct (Qle_bool (fst p) (fst r)) eqn:E.
    + apply Qle_bool_iff in E.
      constructor; [constructor; assumption|].
      constructor; [exact E|].
      rewrite Forall_forall in Hall |- *. intros q Hq.
      specialize (Hall q Hq). simpl in *. lra.
    + apply Qle_bool_false in E.
      constructor; [exact IH|].
      rewrite Forall_forall in Hall |- *. intros q Hq.
      apply insert_key_In in Hq as [-> | Hq].
      * simpl. lra.
      * now apply Hall.
Qed.

Lemma sort_keys_sorted (l : list Q) :
  StronglySorted (fun p q : Q * nat => fst p <= fst q) (sort_keys l).
Proof.
  unfold sort_keys.
  induction (combine l (seq 0 (length l))) as [|p ps IH]; simpl.
  - constructor.
  - now apply insert_key_sorted.
Qed.

Lemma fold_insert_key_In (ps : list (Q * nat)) (q : Q * nat) :
  In q (fold_right insert_key [] ps) <-> In q ps.
Proof.
  induction ps as [|p ps IH]; simpl; [reflexivity|].
  rewrite insert_key_In, IH. intuition.
Qed.

Lemma combine_seq_nth_error {A : Type} (l : list A) :
  forall (start : nat) (x : A) (i : nat),
    In (x, i) (combine l (seq start (length l))) ->
    (start <= i)%nat /\ nth_error l (i - start) = Some x.
Proof.
  induction l as [|y l IH]; intros start x i; simpl; [contradiction|].
  intros [[= -> ->] | Hin].
  - rewrite Nat.sub_diag. auto.
  - apply IH in Hin as [Hle Hnth]. split; [lia|].
    replace (i - start)%nat with (S (i - S start)) by lia. exact Hnth.
Qed.

(** Every sorted key is a label of the list, at the position it carries. *)
Lemma sort_keys_nth_error (l : list Q) (x : Q) (i : nat) :
  In (x, i) (sort_keys l) -> nth_error l i = Some x.
Proof.
  unfold sort_keys. rewrite fold_insert_key_In. intros Hin.
  apply combine_seq_nth_error in Hin as [_ Hnth].
  now rewrite Nat.sub_0_r in Hnth.
Qed.

Lemma take_keys (l : list Q) (ps : list (Q * nat)) :
  (forall x i, In (x, i) ps -> nth_error l i = Some x) ->
  take (map snd ps) l = map fst ps.
Proof.
  unfold take.
  induction ps as [|[x i] ps IH]; intros H; simpl; [reflexivity|].
  rewrite (H x i) by (simpl; auto). simpl. f_equal.
  apply IH. intros y j Hin. apply H. simpl. auto.
Qed.

(** Sorting by longitude puts the labels themselves in ascending order. *)
Lemma take_argsort (l : list Q) : take (argsort l) l = map fst (sort_keys l).
Proof. apply take_keys. apply sort_keys_nth_error. Qed.

Lemma take_argsort_sorted (l : list Q) : StronglySorted Qle (take (argsort l) l).
Proof.
  rewrite take_argsort.
  induction (sort_keys_sorted l) as [|p ps Hsorted IH Hall]; simpl.
  - constructor.
  - constructor; [exact IH|].
    rewrite Forall_forall in Hall |- *. intros x Hx.
    apply in_map_iff in Hx as (q & <- & Hq). now apply Hall.
Qed.

Lemma take_argsort_In (l : list Q) (x : Q) :
  In x (take (argsort l) l) -> In x l.
Proof.
  rewrite take_argsort. intros Hin.
  apply in_map_iff in Hin as ([y i] & <- & Hq).
  apply sort_keys_nth_error in Hq. simpl. eapply nth_error_In. exact Hq.
Qed.

(** ** Slices of a list *)

Lemma In_firstn {A : Type} (n : nat) (l : list A) (x : A) :
  In x (firstn n l) -> In x l.
Proof.
  intros H. rewrite <- (firstn_skipn n l). apply in_or_app. now left.
Qed.

Lemma In_skipn {A : Type} (n : nat) (l : list A) (x : A) :
  In x (skipn n l) -> In x l.
Proof.
  intros H. rewrite <- (firstn_skipn n l). apply in_or_app. now right.
Qed.

Lemma take_slice_In {A : Type} (b : nat * nat) (l : list A) (x : A) :
  In x (take_slice b l) -> In x (skipn (fst b) l) /\ In x (firstn (snd b) l).
Proof.
  unfold take_slice. intros Hin. split.
  - eapply In_firstn. exact Hin.
  - rewrite <- skipn_firstn_comm in Hin. eapply In_skipn. exact Hin.
Qed.

Lemma StronglySorted_skipn {A : Type} (R : A -> A -> Prop) (n : nat) :
  forall l, StronglySorted R l -> StronglySorted R (skipn n l).
Proof.
  induction n as [|n IH]; intros l H; simpl; [exact H|].
  destruct l as [|x l]; [exact H|].
  apply IH. now inversion H.
Qed.

Lemma StronglySorted_firstn {A : Type} (R : A -> A -> Prop) (n : nat) :
  forall l, StronglySorted R l -> StronglySorted R (firstn n l).
Proof.
  induction n as [|n IH]; intros l H; simpl; [constructor|].
  destruct l as [|x l]; [constructor|].
  inversion H as [|? ? Hsorted Hall]; subst.
  constructor; [now apply IH|].
  rewrite Forall_forall in Hall |- *. intros y Hy.
  apply Hall. eapply In_firstn. exact Hy.
Qed.

Lemma take_slice_sorted {A : Type} (R : A -> A -> Prop) (b : nat * nat)
      (l : list A) :
  StronglySorted R l -> StronglySorted R (take_slice b l).
Proof.
  intros H. unfold take_slice.
  now apply StronglySorted_firstn, StronglySorted_skipn.
Qed.

(** C5, as stated, fails: the remap is floating-point arithmetic, and a
    longitude just below -180 is mapped to 180 itself.  In binary64, for
    [lon = -180 - 2 ^ -45], [lon + 180] is [-2 ^ -45], the remainder
    modulo 360 is [360 - 2 ^ -45] rounded, that is 360, and the loaded
    dataset holds the longitude 180, outside [-180, 180). *)
Lemma process_data_longitude_reaches_180 :
  convert_longitude MoreSamples.edge = true
  /\ exists data,
       process_data binary64 MoreSamples.edge
       = (Ok tt, with_loaded_dataset MoreSamples.edge data)
       /\ longitude (dataset MoreSamples.edge)
          = [-6333186975989761 # 35184372088832; 0]
       /\ longitude data = [0; 180]
       /\ ~ Forall (fun x => -180 <= x /\ x < 180) (longitude data).
Proof.
  split; [reflexivity|].
  eexists. split; [vm_compute; reflexivity|].
  split; [reflexivity|]. split; [reflexivity|].
  simpl. intros H. inversion H as [|x l _ Htl]; subst.
  inversion Htl as [|x l [_ Hlt] _]; subst.
  revert Hlt. apply Qle_not_lt, Qle_refl.
Qed.

(** C5, amended: with longitude conversion on, when [process_data] returns,
    every longitude of the loaded dataset lies in [-180, 180] and is the
    value the floating-point expression [(lon + 180) % 360 - 180] has at a
    longitude [lon] of the original dataset, and the longitudes are in
    non-decreasing order; when no longitude of the original dataset is
    below -180 (so on every 0..360 grid), they all lie in [-180, 180).
    This holds in every binary format with at least seven significand bits
    that has the multiples of four among its values. *)
Theorem process_data_longitude_convention
        (fmt : float_format) (self self' : ERA5DataProcessor)
        (Hprec : (7 <= prec fmt)%Z) (Hemin : (emin fmt <= 2)%Z)
        (Hconvert : convert_longitude self = true)
        (Hrun : process_data fmt self = (Ok tt, self')) :
  exists data,
    loaded_dataset self' = Some data
    /\ Forall (fun x => -180 <= x /\ x <= 180) (longitude data)
    /\ (Forall (fun l => -180 <= l) (longitude (dataset self)) ->
        Forall (fun x => x < 180) (longitude data))
    /\ Forall (fun x => exists l,
                   In l (longitude (dataset self)) /\ x = convert_lon fmt l)
              (longitude data)
    /\ StronglySorted Qle (longitude data).
Proof.
  unfold process_data, then_, get_self, lift, set_loaded_dataset in Hrun.
  simpl in Hrun. rewrite Hconvert in Hrun.
  destruct (date_range self) as [start_date end_date].
  destruct (sel_valid_time (dataset self) start_date end_date) as [d1|e] eqn:E1;
    simpl in Hrun; [|discriminate].
  destruct (ds_getitem_list d1 (names_list (variables self))) as [d2|e] eqn:E2;
    simpl in Hrun; [|discriminate].
  assert (Hlon : longitude d2 = longitude (dataset self)).
  { unfold sel_valid_time in E1.
    destruct (slice_indexer (valid_time (dataset self)) start_date end_date);
      simpl in E1; [|discriminate].
    injection E1 as <-.
    unfold ds_getitem_list in E2.
    destruct (select_vars _ _ _); simpl in E2; [|discriminate].
    injection E2 as <-. reflexivity. }
  unfold sel_region in Hrun.
  destruct (slice_indexer (latitude _) _ _) as [bla|e]; simpl in Hrun;
    [|discriminate].
  match type of Hrun with
  | context [slice_indexer ?idx ?a ?b] =>
      destruct (slice_indexer idx a b) as [blo|e]
  end; simpl in Hrun; [|discriminate].
  injection Hrun as <-. simpl. eexists. split; [reflexivity|]. simpl.
  rewrite Hlon.
  set (converted := map (convert_lon fmt) (longitude (dataset self))).
  assert (Hin : forall x,
             In x (take_slice blo (take (argsort converted) converted)) ->
             exists l, In l (longitude (dataset self)) /\ x = convert_lon fmt l).
  { intros x Hx. apply take_slice_In in Hx as [Hx _].
    apply In_skipn, take_argsort_In in Hx.
    apply in_map_iff in Hx as (l & <- & Hl). eauto. }
  split; [|split; [|split]].
  - apply Forall_forall. intros x Hx.
    destruct (Hin x Hx) as (l & _ & ->).
    apply convert_lon_range; [lia | exact Hemin].
  - intros Hsrc. apply Forall_forall. intros x Hx.
    destruct (Hin x Hx) as (l & Hl & ->).
    rewrite Forall_forall in Hsrc.
    apply convert_lon_below_180; [exact Hprec | exact Hemin | now apply Hsrc].
  - apply Forall_forall. exact Hin.
  - apply take_slice_sorted, take_argsort_sorted.
Qed.

Lemma process_data_longitude_convention_witness :
  convert_longitude Sample.fresh = true
  /\ exists data,
       loaded_dataset Sample.processed = Some data
       /\ longitude data = [-90; 0; 90]
       /\ Forall (fun x => x < 180) (longitude data)
       /\ StronglySorted Qle (longitude data).
Proof.
  split; [reflexivity|].
  destruct (@process_data_longitude_convention
              binary64 Sample.fresh Sample.processed
              ltac:(simpl; lia) ltac:(simpl; lia) eq_refl eq_refl)
    as (data & Hdata & _ & Hbelow & _ & Hsorted).
  exists data. split; [exact Hdata|]. split; [|split; [|exact Hsorted]].
  - injection Hdata as <-. reflexivity.
  - apply Hbelow. simpl.
    repeat constructor; discriminate.
Defined.

(** ** Label slices of a monotonic index *)

Lemma is_monotonic_increasing_sorted (l : list Q) :
  is_monotonic_increasing l = true -> StronglySorted Qle l.
Proof.
  induction l as [|x l IH]; intros H; [constructor|].
  destruct l as [|y l]; [constructor; constructor|].
  simpl in H. apply andb_true_iff in H as [Hxy Hrest].
  apply Qle_bool_iff in Hxy.
  specialize (IH Hrest). constructor; [exact IH|].
  inversion IH as [|? ? _ Hall]; subst.
  constructor; [exact Hxy|].
  rewrite Forall_forall in Hall |- *. intros z Hz.
  specialize (Hall z Hz). lra.
Qed.

Lemma is_monotonic_decreasing_sorted (l : list Q) :
  is_monotonic_decreasing l = true -> StronglySorted (fun a b => b <= a) l.
Proof.
  induction l as [|x l IH]; intros H; [constructor|].
  destruct l as [|y l]; [constructor; constructor|].
  simpl in H. apply andb_true_iff in H as [Hxy Hrest].
  apply Qle_bool_iff in Hxy.
  specialize (IH Hrest). constructor; [exact IH|].
  inversion IH as [|? ? _ Hall]; subst.
  constructor; [exact Hxy|].
  rewrite Forall_forall in Hall |- *. intros z Hz.
  specialize (Hall z Hz). simpl in Hall. lra.
Qed.

Lemma sorted_descending_rev (l : list Q) :
  StronglySorted (fun a b => b <= a) l -> StronglySorted Qle (rev l).
Proof.
  induction 1 as [|x l Hsorted IH Hall]; simpl; [constructor|].
  clear Hsorted. revert IH Hall.
  rewrite <- (rev_involutive l) at 2. generalize (rev l) as r.
  induction r as [|y r IHr]; intros Hr Hall; simpl.
  - constructor; constructor.
  - inversion Hr as [|? ? Hr' Hy]; subst.
    simpl in Hall. apply Forall_app in Hall as [Hall Hyx].
    constructor.
    + apply IHr; assumption.
    + apply Forall_app. split; [exact Hy|].
      constructor; [|constructor]. now inversion Hyx.
Qed.

Lemma searchsorted_right_firstn (l : list Q) (b : Q) :
  Forall (fun x => x <= b) (firstn (searchsorted_right l b) l).
Proof.
  induction l as [|y l IH]; simpl; [constructor|].
  destruct (Qle_bool y b) eqn:E; simpl; [|constructor].
  apply Qle_bool_iff in E. now constructor.
Qed.

Lemma searchsorted_left_skipn (l : list Q) (a : Q) :
  StronglySorted Qle l ->
  Forall (fun x => a <= x) (skipn (searchsorted_left l a) l).
Proof.
  induction 1 as [|y l Hsorted IH Hall]; simpl; [constructor|].
  unfold Qltb. destruct (Qle_bool a y) eqn:E; simpl.
  - apply Qle_bool_iff in E. constructor; [exact E|].
    rewrite Forall_forall in Hall |- *. intros z Hz.
    specialize (Hall z Hz). lra.
  - exact IH.
Qed.

Lemma searchsorted_left_length (l : list Q) (x : Q) :
  (searchsorted_left l x <= length l)%nat.
Proof.
  induction l as [|y l IH]; simpl; [lia|].
  destruct (Qltb y x); simpl; lia.
Qed.

Lemma searchsorted_right_length (l : list Q) (x : Q) :
  (searchsorted_right l x <= length l)%nat.
Proof.
  induction l as [|y l IH]; simpl; [lia|].
  destruct (Qle_bool y x); simpl; lia.
Qed.

(** On an ascending index, [slice(a, b)] selects labels within [a, b]. *)
Lemma slice_indexer_increasing (idx : list Q) (a b : Q) (bounds : nat * nat) :
  is_monotonic_increasing idx = true ->
  slice_indexer idx a b = Ok bounds ->
  Forall (fun x => a <= x /\ x <= b) (take_slice bounds idx).
Proof.
  intros Hinc. unfold slice_indexer, get_slice_bound. rewrite Hinc. simpl.
  intros [= <-]. apply Forall_forall. intros x Hx.
  apply take_slice_In in Hx as [Hlo Hhi]. simpl in Hlo, Hhi. split.
  - pose proof (searchsorted_left_skipn a
                  (is_monotonic_increasing_sorted _ Hinc)) as H.
    rewrite Forall_forall in H. now apply H.
  - pose proof (searchsorted_right_firstn idx b) as H.
    rewrite Forall_forall in H. now apply H.
Qed.

(** On a descending index that is not also ascending, [slice(a, b)] selects
    labels within [b, a]. *)
Lemma slice_indexer_decreasing (idx : list Q) (a b : Q) (bounds : nat * nat) :
  is_monotonic_increasing idx = false ->
  is_monotonic_decreasing idx = true ->
  slice_indexer idx a b = Ok bounds ->
  Forall (fun x => b <= x /\ x <= a) (take_slice bounds idx).
Proof.
  intros Hinc Hdec. unfold slice_indexer, get_slice_bound.
  rewrite Hinc, Hdec. simpl.
  intros [= <-]. apply Forall_forall. intros x Hx.
  apply take_slice_In in Hx as [Hlo Hhi]. simpl in Hlo, Hhi.
  pose proof (sorted_descending_rev (is_monotonic_decreasing_sorted _ Hdec))
    as Hsorted.
  pose proof (searchsorted_right_length (rev idx) a) as Hka.
  pose proof (searchsorted_left_length (rev idx) b) as Hkb.
  rewrite length_rev in Hka, Hkb.
  set (ka := searchsorted_right (rev idx) a) in *.
  set (kb := searchsorted_left (rev idx) b) in *.
  assert (Hlo' : In x (skipn (length idx - ka) (rev (rev idx))))
    by now rewrite rev_involutive.
  assert (Hhi' : In x (firstn (length idx - kb) (rev (rev idx))))
    by now rewrite rev_involutive.
  clear Hlo Hhi. rename Hlo' into Hlo. rename Hhi' into Hhi.
  rewrite skipn_rev in Hlo. rewrite firstn_rev in Hhi.
  rewrite length_rev in Hlo, Hhi.
  apply in_rev in Hlo, Hhi.
  replace (length idx - (length idx - ka))%nat with ka in Hlo by lia.
  replace (length idx - (length idx - kb))%nat with kb in Hhi by lia.
  split.
  - pose proof (searchsorted_left_skipn b Hsorted) as H.
    rewrite Forall_forall in H. now apply H.
  - pose proof (searchsorted_right_firstn (rev idx) a) as H.
    rewrite Forall_forall in H. now apply H.
Qed.

Lemma sorted_is_monotonic_increasing (l : list Q) :
  StronglySorted Qle l -> is_monotonic_increasing l = true.
Proof.
  induction 1 as [|x l Hsorted IH Hall]; [reflexivity|].
  destruct l as [|y l]; [reflexivity|].
  simpl. apply andb_true_iff. split; [|exact IH].
  apply Qle_bool_iff. now inversion Hall.
Qed.

(** ** The spatial window *)

(** C6: for a window with [min_lat <= max_lat], an original dataset whose
    latitudes run north to south, and longitudes that are ascending when the
    crop is made (after the conversion sorts them, or already in the
    original dataset), when [process_data] returns every latitude of the
    loaded dataset lies in [min_lat, max_lat] and every longitude in
    [min_lon, max_lon]. *)
Theorem process_data_crops_to_window (fmt : float_format)
        (self self' : ERA5DataProcessor)
        (Hwindow : fst (lat (spatial_range self))
                   <= snd (lat (spatial_range self)))
        (Hlat : is_monotonic_decreasing (latitude (dataset self)) = true)
        (Hlon : convert_longitude self = true
                \/ is_monotonic_increasing (longitude (dataset self)) = true)
        (Hrun : process_data fmt self = (Ok tt, self')) :
  let min_lat := fst (lat (spatial_range self)) in
  let max_lat := snd (lat (spatial_range self)) in
  let min_lon := fst (lon (spatial_range self)) in
  let max_lon := snd (lon (spatial_range self)) in
  exists data,
    loaded_dataset self' = Some data
    /\ Forall (fun x => min_lat <= x /\ x <= max_lat) (latitude data)
    /\ Forall (fun x => min_lon <= x /\ x <= max_lon) (longitude data).
Proof.
  intros min_lat max_lat min_lon max_lon.
  unfold process_data, then_, get_self, lift, set_loaded_dataset in Hrun.
  simpl in Hrun.
  destruct (date_range self) as [start_date end_date].
  destruct (sel_valid_time (dataset self) start_date end_date) as [d1|e] eqn:E1;
    simpl in Hrun; [|discriminate].
  destruct (ds_getitem_list d1 (names_list (variables self))) as [d2|e] eqn:E2;
    simpl in Hrun; [|discriminate].
  assert (Hcoords : latitude d2 = latitude (dataset self)
                    /\ longitude d2 = longitude (dataset self)).
  { unfold sel_valid_time in E1.
    destruct (slice_indexer (valid_time (dataset self)) start_date end_date);
      simpl in E1; [|discriminate].
    injection E1 as <-.
    unfold ds_getitem_list in E2.
    destruct (select_vars _ _ _); simpl in E2; [|discriminate].
    injection E2 as <-. split; reflexivity. }
  destruct Hcoords as [Hla Hlo].
  set (at_crop :=
         if convert_longitude self
         then sortby_longitude
                (assign_longitude d2 (map (convert_lon fmt) (longitude d2)))
         else d2) in Hrun.
  assert (Hcrop_lat : latitude at_crop = latitude (dataset self)).
  { unfold at_crop. destruct (convert_longitude self); simpl; exact Hla. }
  assert (Hcrop_lon : is_monotonic_increasing (longitude at_crop) = true).
  { unfold at_crop. destruct (convert_longitude self); simpl.
    - apply sorted_is_monotonic_increasing, take_argsort_sorted.
    - rewrite Hlo. destruct Hlon as [Hc | Hinc]; [discriminate | exact Hinc]. }
  unfold sel_region in Hrun.
  destruct (slice_indexer (latitude at_crop) max_lat min_lat) as [bla|e] eqn:Ela;
    fold max_lat min_lat in Hrun; rewrite ?Ela in Hrun; simpl in Hrun;
    [|discriminate].
  destruct (slice_indexer (longitude at_crop) min_lon max_lon) as [blo|e] eqn:Elo;
    fold min_lon max_lon in Hrun; rewrite ?Elo in Hrun; simpl in Hrun;
    [|discriminate].
  injection Hrun as <-. simpl. eexists. split; [reflexivity|]. simpl.
  split.
  - rewrite Hcrop_lat in Ela |- *.
    destruct (is_monotonic_increasing (latitude (dataset self))) eqn:Hinc.
    + pose proof (slice_indexer_increasing _ _ _ Hinc Ela) as H.
      rewrite Forall_forall in H |- *. intros x Hx.
      specialize (H x Hx). fold min_lat max_lat in Hwindow. lra.
    + exact (slice_indexer_decreasing _ _ _ Hinc Hlat Ela).
  - exact (slice_indexer_increasing _ _ _ Hcrop_lon Elo).
Qed.

Lemma process_data_crops_to_window_witness :
  exists data,
    loaded_dataset Sample.processed = Some data
    /\ latitude data = [50; 40]
    /\ Forall (fun x => 35 <= x /\ x <= 55) (latitude data)
    /\ Forall (fun x => -100 <= x /\ x <= 100) (longitude data).
Proof.
  destruct (@process_data_crops_to_window binary64 Sample.fresh Sample.processed)
    as (data & Hdata & Hla & Hlo).
  - simpl. lra.
  - reflexivity.
  - left. reflexivity.
  - reflexivity.
  - exists data. split; [exact Hdata|]. split; [|split; assumption].
    injection Hdata as <-. reflexivity.
Defined.

(** * Further properties *)

(** ** The key prompt: handlers and the returned key *)

Section CachebKeyMore.

Import CachebPath.
Local Open Scope string_scope.

(** X1: an interrupted prompt makes [cacheb_key] print the cancellation
    line and return [None]; any other exception below [Exception] raised by
    [input] is printed after "Error getting key: " and [None] is returned. *)
Theorem cacheb_key_handlers (k : exn_kind) (msg : string) :
  cacheb_key (Raise (Exn KeyboardInterrupt msg))
  = (Ok None, [prompt; newline ++ "Key input cancelled by user"])
  /\ (is_Exception k = true ->
      cacheb_key (Raise (Exn k msg))
      = (Ok None, [prompt; "Error getting key: " ++ msg])).
Proof.
  split; [reflexivity|].
  destruct k; simpl; intros H; try discriminate; reflexivity.
Qed.

Lemma cacheb_key_handlers_witness :
  cacheb_key (Raise (Exn EOFError "EOF when reading a line"))
  = (Ok None, [prompt; "Error getting key: EOF when reading a line"]).
Proof.
  apply (proj2 (cacheb_key_handlers EOFError "EOF when reading a line")).
  reflexivity.
Defined.

Lemma lstrip_head (s : string) :
  lstrip s = "" \/ exists c r, lstrip s = String c r /\ py_isspace c = false.
Proof.
  induction s as [|c s IH]; simpl; [now left|].
  destruct (py_isspace c) eqn:E; [exact IH|].
  right. eauto.
Qed.

Lemma rstrip_idempotent (s : string) : rstrip (rstrip s) = rstrip s.
Proof.
  induction s as [|c s IH]; simpl; [reflexivity|].
  destruct (rstrip s) as [|d r] eqn:E.
  - destruct (py_isspace c) eqn:Ec; simpl; [reflexivity|].
    now rewrite Ec.
  - change (rstrip (String c (String d r))) with
      (match rstrip (String d r) with
       | "" => if py_isspace c then "" else String c ""
       | String _ _ as r' => String c r'
       end).
    now rewrite IH.
Qed.

Lemma rstrip_keeps_head (c : ascii) (r : string) :
  py_isspace c = false -> exists r', rstrip (String c r) = String c r'.
Proof.
  intros H. simpl. destruct (rstrip r); [rewrite H|]; eauto.
Qed.

Lemma strip_trimmed (s : string) :
  lstrip (strip s) = strip s /\ rstrip (strip s) = strip s.
Proof.
  unfold strip. split; [|apply rstrip_idempotent].
  destruct (lstrip_head s) as [-> | (c & r & -> & Hc)]; [reflexivity|].
  destruct (@rstrip_keeps_head c r Hc) as [r' ->]. simpl. now rewrite Hc.
Qed.

(** X2: a key that [cacheb_key] returns is never empty and has no white
    space at either end: trimming it again, on the left or on the right,
    changes nothing. *)
Theorem cacheb_key_returns_trimmed
        (typed : result string) (key : string) (printed : list string)
        (Hkey : cacheb_key typed = (Ok (Some key), printed)) :
  key <> "" /\ lstrip key = key /\ rstrip key = key.
Proof.
  unfold cacheb_key, bind in Hkey.
  destruct typed as [line | [k msg]].
  - destruct (String.eqb (strip line) "") eqn:E; [discriminate|].
    injection Hkey as <- _.
    apply String.eqb_neq in E. split; [exact E|]. apply strip_trimmed.
  - destruct k; discriminate.
Qed.

Lemma cacheb_key_returns_trimmed_witness :
  cacheb_key (Ok "  ab cd ") = (Ok (Some "ab cd"), [prompt])
  /\ lstrip "ab cd" = "ab cd" /\ rstrip "ab cd" = "ab cd".
Proof.
  split; [reflexivity|].
  apply (@cacheb_key_returns_trimmed (Ok "  ab cd ") "ab cd" [prompt] eq_refl).
Defined.

End CachebKeyMore.

(** ** The longitude remap on a regular grid *)

Local Open Scope Q_scope.

(** X3: on longitudes the format holds exactly with room to spare, the
    multiples of [2 ^ j] for [j <= 2] with ten bits to spare below the
    precision (in binary64 every multiple of [2 ^ -43], so the quarter-degree
    grid of ERA5), the floating-point remap [(lon + 180) % 360 - 180] is
    exact: it leaves a longitude of [-180, 180) as it is and moves a
    longitude of [180, 540) down by 360. *)
Theorem convert_lon_on_ranges (fmt : float_format) (lon : Q) (n j : Z) :
  (emin fmt <= j)%Z -> (j <= 2)%Z -> (10 <= j + prec fmt)%Z ->
  lon == inject_Z n * 2 ^ j ->
  (-180 <= lon /\ lon < 180 -> convert_lon fmt lon == lon)
  /\ (180 <= lon /\ lon < 540 -> convert_lon fmt lon == lon - 360).
Proof.
  intros Hemin Hj Hprec Hlon.
  assert (H1024 : 2 ^ 10 <= 2 ^ (j + prec fmt)) by (apply pow2_le_prec; lia).
  change (2 ^ 10) with 1024 in H1024.
  assert (H180 : 180 == inject_Z (45 * 2 ^ (2 - j)) * 2 ^ j).
  { rewrite <- multiple_pow2 by exact Hj. reflexivity. }
  assert (Hgrid : forall c : Z,
             lon + inject_Z c * 180
             == inject_Z (n + c * (45 * 2 ^ (2 - j))) * 2 ^ j).
  { intros c. rewrite inject_Z_plus, inject_Z_mult, Hlon, H180 at 1. ring. }
  assert (Ha : forall lo hi : Q,
             lo <= lon -> lon < hi -> -180 <= lo -> hi <= 540 ->
             round fmt (lon + 180) == lon + 180).
  { intros lo hi Hlo Hhi Hlo' Hhi'.
    apply round_exact with (k := (n + 1 * (45 * 2 ^ (2 - j)))%Z) (j := j).
    - exact Hemin.
    - apply Qabs_case; intros; lra.
    - rewrite <- Hgrid. change (inject_Z 1) with 1. ring. }
  unfold convert_lon, py_mod. change (Qltb 360 0) with false. simpl xorb.
  split; intros [Hlo Hhi].
  - specialize (Ha (-180) 180 Hlo Hhi ltac:(lra) ltac:(lra)).
    set (a := round fmt (lon + 180)) in *.
    assert (Hr : fmod a 360 == a).
    { rewrite (@fmod_period a 360 0); [ring | reflexivity | lia | |];
        change (inject_Z 0) with 0; lra. }
    set (r := fmod a 360) in *.
    assert (E : negb (Qeq_bool r 0) && Qltb r 0 = false).
    { apply andb_false_iff. right. unfold Qltb.
      apply negb_false_iff, Qle_bool_iff. lra. }
    rewrite E.
    assert (Hres : r - 180 == lon) by lra.
    rewrite (@round_exact fmt (r - 180) n j); [exact Hres | exact Hemin | |].
    + apply Qabs_case; intros; lra.
    + lra.
  - specialize (Ha 180 540 Hlo Hhi ltac:(lra) ltac:(lra)).
    set (a := round fmt (lon + 180)) in *.
    assert (Hr : fmod a 360 == a - 360).
    { rewrite (@fmod_period a 360 1); [ring | reflexivity | lia | |];
        change (inject_Z 1) with 1; lra. }
    set (r := fmod a 360) in *.
    assert (E : negb (Qeq_bool r 0) && Qltb r 0 = false).
    { apply andb_false_iff. right. unfold Qltb.
      apply negb_false_iff, Qle_bool_iff. lra. }
    rewrite E.
    assert (Hres : r - 180 == lon - 360) by lra.
    rewrite (@round_exact fmt (r - 180)
               (n + (-2) * (45 * 2 ^ (2 - j)))%Z j);
      [exact Hres | exact Hemin | |].
    + apply Qabs_case; intros; lra.
    + rewrite Hres, <- Hgrid. change (inject_Z (-2)) with (-2). ring.
Qed.

Lemma convert_lon_on_ranges_witness :
  convert_lon binary64 (1439 # 4) == (1439 # 4) - 360
  /\ convert_lon binary32 (-(1 # 4)) == -(1 # 4).
Proof.
  split.
  - apply (proj2 (@convert_lon_on_ranges binary64 (1439 # 4) 1439 (-2)
                    ltac:(simpl; lia) ltac:(lia) ltac:(simpl; lia)
                    ltac:(reflexivity))).
    split; reflexivity || discriminate.
  - apply (proj1 (@convert_lon_on_ranges binary32 (-(1 # 4)) (-1) (-2)
                    ltac:(simpl; lia) ltac:(lia) ltac:(simpl; lia)
                    ltac:(reflexivity))).
    split; reflexivity || discriminate.
Defined.

(** ** What [process_data] loads *)

(** The stages of a [process_data] call that returns: the time slice, the
    selected variables, the longitudes as they are when the crop is made,
    and the two spatial slices. *)
Lemma process_data_returns (fmt : float_format) (self self' : ERA5DataProcessor) :
  process_data fmt self = (Ok tt, self') ->
  let src := dataset self in
  let converted := map (convert_lon fmt) (longitude src) in
  let lon_at_crop :=
    if convert_longitude self then take (argsort converted) converted
    else longitude src in
  exists bt vars bla blo,
    slice_indexer (valid_time src) (fst (date_range self))
                  (snd (date_range self)) = Ok bt
    /\ select_vars
         {| valid_time := take_slice bt (valid_time src);
            latitude := latitude src;
            longitude := longitude src;
            data_vars := map_vars (on_valid_time (take_slice bt))
                                  (data_vars src) |}
         (names_list (variables self)) [] = Ok vars
    /\ slice_indexer (latitude src) (snd (lat (spatial_range self)))
                     (fst (lat (spatial_range self))) = Ok bla
    /\ slice_indexer lon_at_crop (fst (lon (spatial_range self)))
                     (snd (lon (spatial_range self))) = Ok blo
    /\ self'
       = with_loaded_dataset self
           {| valid_time := take_slice bt (valid_time src);
              latitude := take_slice bla (latitude src);
              longitude := take_slice blo lon_at_crop;
              data_vars :=
                map_vars (fun g => on_longitude (take_slice blo)
                                     (on_latitude (take_slice bla) g))
                         (if convert_longitude self
                          then map_vars (on_longitude (take (argsort converted)))
                                        vars
                          else vars) |}.
Proof.
  intros Hrun src converted lon_at_crop.
  unfold process_data, then_, get_self, lift, set_loaded_dataset in Hrun.
  simpl in Hrun. fold src in Hrun.
  destruct (date_range self) as [start_date end_date]. simpl.
  unfold sel_valid_time in Hrun.
  destruct (slice_indexer (valid_time src) start_date end_date) as [bt|e];
    simpl in Hrun; [|discriminate].
  unfold ds_getitem_list in Hrun.
  match type of Hrun with
  | context [select_vars ?d ?l ?a] =>
      destruct (select_vars d l a) as [vars|e] eqn:Evars
  end; simpl in Hrun; [|discriminate].
  exists bt, vars.
  unfold lon_at_crop, converted.
  destruct (convert_longitude self); unfold sel_region in Hrun; simpl in Hrun.
  - destruct (slice_indexer (latitude src) _ _) as [bla|e]; simpl in Hrun;
      [|discriminate].
    match type of Hrun with
    | context [slice_indexer ?idx ?a ?b] =>
        destruct (slice_indexer idx a b) as [blo|e] eqn:Elon
    end; simpl in Hrun; [|discriminate].
    exists bla, blo. injection Hrun as <-. repeat split; assumption.
  - destruct (slice_indexer (latitude src) _ _) as [bla|e]; simpl in Hrun;
      [|discriminate].
    match type of Hrun with
    | context [slice_indexer ?idx ?a ?b] =>
        destruct (slice_indexer idx a b) as [blo|e] eqn:Elon
    end; simpl in Hrun; [|discriminate].
    exists bla, blo. injection Hrun as <-. repeat split; assumption.
Qed.

(** ** Label slices keep every label inside the bounds *)

Lemma searchsorted_left_position (l : list Q) (a : Q) :
  StronglySorted Qle l ->
  forall i x, nth_error l i = Some x -> a <= x ->
              (searchsorted_left l a <= i)%nat.
Proof.
  induction 1 as [|y l Hsorted IH Hall]; intros i x Hnth Hx; simpl; [lia|].
  unfold Qltb. destruct (Qle_bool a y) eqn:E; simpl; [lia|].
  apply Qle_bool_false in E.
  destruct i as [|i]; simpl in Hnth.
  - injection Hnth as ->. lra.
  - specialize (IH i x Hnth Hx). lia.
Qed.

Lemma searchsorted_right_position (l : list Q) (b : Q) :
  StronglySorted Qle l ->
  forall i x, nth_error l i = Some x -> x <= b ->
              (i < searchsorted_right l b)%nat.
Proof.
  induction 1 as [|y l Hsorted IH Hall]; intros i x Hnth Hx.
  - destruct i; discriminate.
  - simpl. destruct i as [|i]; simpl in Hnth.
    + injection Hnth as ->.
      apply Qle_bool_iff in Hx. rewrite Hx. lia.
    + assert (Hy : y <= b).
      { rewrite Forall_forall in Hall.
        specialize (Hall x (nth_error_In _ _ Hnth)). lra. }
      apply Qle_bool_iff in Hy. rewrite Hy.
      specialize (IH i x Hnth Hx). lia.
Qed.

Lemma take_slice_position {A : Type} (lo hi i : nat) (l : list A) (x : A) :
  (lo <= i < hi)%nat -> nth_error l i = Some x -> In x (take_slice (lo, hi) l).
Proof.
  intros Hi Hnth. unfold take_slice. simpl.
  apply (@nth_error_In _ _ (i - lo)).
  rewrite nth_error_firstn.
  destruct (Nat.ltb_spec (i - lo) (hi - lo)); [|lia].
  rewrite nth_error_skipn.
  replace (lo + (i - lo))%nat with i by lia. exact Hnth.
Qed.

(** On an ascending index, [slice(a, b)] keeps every label within [a, b]. *)
Lemma slice_indexer_increasing_complete
      (idx : list Q) (a b : Q) (bounds : nat * nat) (x : Q) :
  is_monotonic_increasing idx = true ->
  slice_indexer idx a b = Ok bounds ->
  In x idx -> a <= x -> x <= b ->
  In x (take_slice bounds idx).
Proof.
  intros Hinc. unfold slice_indexer, get_slice_bound. rewrite Hinc. simpl.
  intros [= <-] Hin Ha Hb.
  apply In_nth_error in Hin as [i Hi].
  pose proof (is_monotonic_increasing_sorted _ Hinc) as Hsorted.
  apply (@take_slice_position _ _ _ i); [|exact Hi]. split.
  - now apply (@searchsorted_left_position _ a Hsorted i x).
  - now apply (@searchsorted_right_position _ b Hsorted i x).
Qed.

(** A slice of the reversed list is the reversed slice, counted from the
    other end. *)
Lemma take_slice_rev {A : Type} (r : list A) (ka kb : nat) :
  (ka <= length r)%nat ->
  (kb <= length r)%nat ->
  take_slice ((length r - ka)%nat, (length r - kb)%nat) (rev r)
  = rev (take_slice (kb, ka) r).
Proof.
  intros Hka Hkb. unfold take_slice. simpl.
  rewrite <- skipn_firstn_comm, firstn_rev, skipn_rev, length_skipn.
  replace (length r - (length r - kb))%nat with kb by lia.
  f_equal. f_equal. lia.
Qed.

(** On a descending index that is not also ascending, [slice(a, b)] keeps
    every label within [b, a]. *)
Lemma slice_indexer_decreasing_complete
      (idx : list Q) (a b : Q) (bounds : nat * nat) (x : Q) :
  is_monotonic_increasing idx = false ->
  is_monotonic_decreasing idx = true ->
  slice_indexer idx a b = Ok bounds ->
  In x idx -> b <= x -> x <= a ->
  In x (take_slice bounds idx).
Proof.
  intros Hinc Hdec. unfold slice_indexer, get_slice_bound.
  rewrite Hinc, Hdec. simpl.
  intros [= <-] Hin Hb Ha.
  pose proof (sorted_descending_rev (is_monotonic_decreasing_sorted _ Hdec))
    as Hsorted.
  pose proof (searchsorted_right_length (rev idx) a) as Hka.
  pose proof (searchsorted_left_length (rev idx) b) as Hkb.
  set (ka := searchsorted_right (rev idx) a) in *.
  set (kb := searchsorted_left (rev idx) b) in *.
  assert (E : take_slice ((length idx - ka)%nat, (length idx - kb)%nat) idx
              = rev (take_slice (kb, ka) (rev idx))).
  { rewrite <- take_slice_rev by assumption.
    now rewrite length_rev, rev_involutive. }
  rewrite E. apply -> in_rev.
  apply in_rev in Hin. apply In_nth_error in Hin as [i Hi].
  apply (@take_slice_position _ _ _ i); [|exact Hi]. split.
  - now apply (@searchsorted_left_position _ b Hsorted i x).
  - now apply (@searchsorted_right_position _ a Hsorted i x).
Qed.

Lemma combine_seq_In {A : Type} (l : list A) :
  forall (start i : nat) (x : A),
    nth_error l i = Some x ->
    In (x, (start + i)%nat) (combine l (seq start (length l))).
Proof.
  induction l as [|y l IH]; intros start i x Hnth.
  - destruct i; discriminate.
  - simpl. destruct i as [|i]; simpl in Hnth.
    + injection Hnth as ->. left. f_equal. lia.
    + right. replace (start + S i)%nat with (S start + i)%nat by lia.
      now apply IH.
Qed.

(** Sorting loses no label. *)
Lemma In_take_argsort (l : list Q) (x : Q) :
  In x l -> In x (take (argsort l) l).
Proof.
  intros Hin. rewrite take_argsort.
  apply In_nth_error in Hin as [i Hi].
  apply in_map_iff. exists (x, i). split; [reflexivity|].
  unfold sort_keys. apply fold_insert_key_In.
  exact (combine_seq_In l 0 i Hi).
Qed.

(** X4: on a time axis in ascending order, the time stamps [process_data]
    loads are exactly the time stamps of the original dataset that lie in
    [start_date, end_date], both ends included. *)
Theorem process_data_time_window (fmt : float_format)
        (self self' : ERA5DataProcessor)
        (Hinc : is_monotonic_increasing (valid_time (dataset self)) = true)
        (Hrun : process_data fmt self = (Ok tt, self')) :
  exists data,
    loaded_dataset self' = Some data
    /\ forall x,
         In x (valid_time data)
         <-> In x (valid_time (dataset self))
             /\ fst (date_range self) <= x /\ x <= snd (date_range self).
Proof.
  destruct (@process_data_returns fmt self self' Hrun)
    as (bt & vars & bla & blo & Ht & _ & _ & _ & ->).
  simpl. eexists. split; [reflexivity|]. simpl.
  intros x. split.
  - intros Hx. split.
    + apply take_slice_In in Hx as [Hx _]. now apply In_skipn in Hx.
    + pose proof (slice_indexer_increasing _ _ _ Hinc Ht) as H.
      rewrite Forall_forall in H. now apply H.
  - intros (Hin & Hlo & Hhi).
    eapply slice_indexer_increasing_complete; eassumption.
Qed.

Lemma process_data_time_window_witness :
  exists data,
    loaded_dataset Sample.processed = Some data
    /\ (In 2 (valid_time data) <-> In 2 [1; 2] /\ 1 <= 2 /\ 2 <= 2).
Proof.
  destruct (@process_data_time_window binary64 Sample.fresh Sample.processed
              eq_refl eq_refl)
    as (data & Hdata & Hwindow).
  exists data. split; [exact Hdata | exact (Hwindow 2)].
Defined.

(** X5: when the longitudes are ascending at the crop (always so with the
    conversion on), the longitudes [process_data] loads are exactly the
    longitudes at hand that lie in [min_lon, max_lon]: nothing inside the
    window is dropped.  With the conversion on, the longitudes at hand are
    the floating-point values of [(lon + 180) % 360 - 180]; a source
    longitude such as 0.1, whose value is a little below 0.1, is then
    outside a window that starts at 0.1. *)
Theorem process_data_longitude_window (fmt : float_format)
        (self self' : ERA5DataProcessor)
        (Hlon : convert_longitude self = true
                \/ is_monotonic_increasing (longitude (dataset self)) = true)
        (Hrun : process_data fmt self = (Ok tt, self')) :
  let labels :=
    if convert_longitude self
    then map (convert_lon fmt) (longitude (dataset self))
    else longitude (dataset self) in
  exists data,
    loaded_dataset self' = Some data
    /\ forall x,
         In x (longitude data)
         <-> In x labels
             /\ fst (lon (spatial_range self)) <= x
             /\ x <= snd (lon (spatial_range self)).
Proof.
  intros labels.
  destruct (@process_data_returns fmt self self' Hrun)
    as (bt & vars & bla & blo & _ & _ & _ & Hlo & ->).
  simpl. eexists. split; [reflexivity|]. simpl.
  set (at_crop :=
         if convert_longitude self
         then take (argsort (map (convert_lon fmt) (longitude (dataset self))))
                   (map (convert_lon fmt) (longitude (dataset self)))
         else longitude (dataset self)) in *.
  assert (Hinc : is_monotonic_increasing at_crop = true).
  { unfold at_crop. destruct (convert_longitude self).
    - apply sorted_is_monotonic_increasing, take_argsort_sorted.
    - destruct Hlon as [Hc | Hinc]; [discriminate | exact Hinc]. }
  assert (Hsame : forall x, In x at_crop <-> In x labels).
  { intros x. unfold at_crop, labels. destruct (convert_longitude self).
    - split; [apply take_argsort_In | apply In_take_argsort].
    - reflexivity. }
  intros x. split.
  - intros Hx. split.
    + apply Hsame. apply take_slice_In in Hx as [Hx _].
      now apply In_skipn in Hx.
    + pose proof (slice_indexer_increasing _ _ _ Hinc Hlo) as H.
      rewrite Forall_forall in H. now apply H.
  - intros (Hin & Ha & Hb). apply Hsame in Hin.
    eapply slice_indexer_increasing_complete; eassumption.
Qed.

Lemma process_data_longitude_window_witness :
  exists data,
    loaded_dataset MoreSamples.tenth_processed = Some data
    /\ longitude data = [90]
    /\ (In MoreSamples.tenth (longitude data)
        <-> In MoreSamples.tenth
               (map (convert_lon binary64) [MoreSamples.tenth; 90; 180; 270])
            /\ MoreSamples.tenth <= MoreSamples.tenth
            /\ MoreSamples.tenth <= 100).
Proof.
  destruct (@process_data_longitude_window
              binary64 MoreSamples.tenth_fresh MoreSamples.tenth_processed
              (or_introl eq_refl) ltac:(vm_compute; reflexivity))
    as (data & Hdata & Hwindow).
  exists data. split; [exact Hdata|]. split.
  - injection Hdata as <-. reflexivity.
  - exact (Hwindow MoreSamples.tenth).
Defined.

(** X6: on latitudes that run north to south (descending, not all equal),
    the latitudes [process_data] loads are exactly the latitudes of the
    original dataset that lie in [min_lat, max_lat]. *)
Theorem process_data_latitude_window (fmt : float_format)
        (self self' : ERA5DataProcessor)
        (Hinc : is_monotonic_increasing (latitude (dataset self)) = false)
        (Hdec : is_monotonic_decreasing (latitude (dataset self)) = true)
        (Hrun : process_data fmt self = (Ok tt, self')) :
  exists data,
    loaded_dataset self' = Some data
    /\ forall x,
         In x (latitude data)
         <-> In x (latitude (dataset self))
             /\ fst (lat (spatial_range self)) <= x
             /\ x <= snd (lat (spatial_range self)).
Proof.
  destruct (@process_data_returns fmt self self' Hrun)
    as (bt & vars & bla & blo & _ & _ & Hla & _ & ->).
  simpl. eexists. split; [reflexivity|]. simpl.
  intros x. split.
  - intros Hx. split.
    + apply take_slice_In in Hx as [Hx _]. now apply In_skipn in Hx.
    + pose proof (slice_indexer_decreasing _ _ _ Hinc Hdec Hla) as H.
      rewrite Forall_forall in H. now apply H.
  - intros (Hin & Ha & Hb).
    eapply slice_indexer_decreasing_complete; eassumption.
Qed.

Lemma process_data_latitude_window_witness :
  exists data,
    loaded_dataset Sample.processed = Some data
    /\ (In 40 (latitude data) <-> In 40 [50; 40; 30] /\ 35 <= 40 /\ 40 <= 55).
Proof.
  destruct (@process_data_latitude_window binary64 Sample.fresh Sample.processed
              eq_refl eq_refl eq_refl)
    as (data & Hdata & Hwindow).
  exists data. split; [exact Hdata | exact (Hwindow 40)].
Defined.

(** ** The variables [process_data] keeps *)

Local Open Scope string_scope.

Lemma dict_mem_set {V : Type} (d : dict V) (k k' : string) (v : V) :
  dict_mem (dict_set d k v) k' = String.eqb k' k || dict_mem d k'.
Proof.
  unfold dict_mem, dict_keys.
  induction d as [|[k0 v0] d IH]; simpl.
  - now rewrite orb_false_r.
  - destruct (String.eqb k k0) eqn:E; simpl.
    + apply String.eqb_eq in E. subst k0.
      destruct (String.eqb k' k); reflexivity.
    + rewrite IH. destruct (String.eqb k' k), (String.eqb k' k0); reflexivity.
Qed.

Lemma dict_keys_map_vars (f : grid -> grid) (d : dict DataArray) :
  dict_keys (map_vars f d) = dict_keys d.
Proof. unfold dict_keys, map_vars. rewrite map_map. reflexivity. Qed.

Lemma dict_mem_map_vars (f : grid -> grid) (d : dict DataArray) (k : string) :
  dict_mem (map_vars f d) k = dict_mem d k.
Proof. unfold dict_mem. now rewrite dict_keys_map_vars. Qed.

Lemma dict_get_map_vars (f : grid -> grid) (d : dict DataArray) (k : string) :
  dict_get (map_vars f d) k
  = option_map (fun da => {| values := f (values da); attrs := attrs da |})
               (dict_get d k).
Proof.
  unfold map_vars.
  exact (dict_get_map_values
           (fun da => {| values := f (values da); attrs := attrs da |}) d k).
Qed.

Lemma dict_mem_get_none {V : Type} (d : dict V) (k : string) :
  dict_get d k = None -> dict_mem d k = false.
Proof.
  intros H. destruct (dict_mem d k) eqn:E; [|reflexivity].
  apply dict_mem_get in E as [v Hv]. congruence.
Qed.

(** The names [ds[var_list]] ends with: those it started with and the
    listed names that are data variables. *)
Lemma select_vars_mem (ds : Dataset) :
  forall (var_list : list string) (acc vars : dict DataArray),
    select_vars ds var_list acc = Ok vars ->
    forall k,
      dict_mem vars k
      = dict_mem acc k
        || existsb (String.eqb k) var_list && dict_mem (data_vars ds) k.
Proof.
  induction var_list as [|name rest IH]; intros acc vars Hsel k; simpl in *.
  - injection Hsel as <-. now rewrite orb_false_r.
  - destruct (dict_get (data_vars ds) name) as [da|] eqn:E.
    + rewrite (IH _ _ Hsel k), dict_mem_set.
      destruct (String.eqb k name) eqn:Ek; simpl; [|reflexivity].
      apply String.eqb_eq in Ek. subst k.
      assert (Hmem : dict_mem (data_vars ds) name = true)
        by (apply dict_mem_get; eauto).
      rewrite Hmem. simpl. now rewrite !orb_true_r.
    + destruct (is_coord_name name); [|discriminate].
      rewrite (IH _ _ Hsel k).
      destruct (String.eqb k name) eqn:Ek; simpl; [|reflexivity].
      apply String.eqb_eq in Ek. subst k.
      rewrite (dict_mem_get_none _ _ E). now rewrite !andb_false_r.
Qed.

(** X7: when [process_data] returns, the data variables of the loaded
    dataset are exactly the configured names that are data variables of the
    original dataset; with a mapping for [variables] these are its keys,
    whatever the values are. *)
Theorem process_data_selects_variables (fmt : float_format)
        (self self' : ERA5DataProcessor)
        (Hrun : process_data fmt self = (Ok tt, self')) :
  exists data,
    loaded_dataset self' = Some data
    /\ forall name,
         dict_mem (data_vars data) name
         = existsb (String.eqb name) (names_list (variables self))
           && dict_mem (data_vars (dataset self)) name.
Proof.
  destruct (@process_data_returns fmt self self' Hrun)
    as (bt & vars & bla & blo & _ & Hsel & _ & _ & ->).
  simpl. eexists. split; [reflexivity|]. simpl.
  intros name. rewrite dict_mem_map_vars.
  assert (Hvars : dict_mem vars name
                  = existsb (String.eqb name) (names_list (variables self))
                    && dict_mem (data_vars (dataset self)) name).
  { rewrite (select_vars_mem _ _ _ Hsel name). simpl.
    now rewrite dict_mem_map_vars. }
  destruct (convert_longitude self); [rewrite dict_mem_map_vars|]; exact Hvars.
Qed.

Lemma process_data_selects_variables_witness :
  exists data,
    loaded_dataset MoreSamples.keyed_processed = Some data
    /\ dict_mem (data_vars data) "v10" = true
    /\ dict_mem (data_vars data) "u10" = false
    /\ dict_mem (data_vars data) "northward wind" = false.
Proof.
  destruct (@process_data_selects_variables
              binary64 MoreSamples.keyed MoreSamples.keyed_processed
              ltac:(vm_compute; reflexivity))
    as (data & Hdata & Hmem).
  exists data. split; [exact Hdata|].
  rewrite !Hmem. repeat split.
Defined.




(** ** Shapes *)

Lemma shape_ok_iff (ds : Dataset) (g : grid) :
  shape_ok ds g = true
  <-> length g = length (valid_time ds)
      /\ forall plane,
           In plane g ->
           length plane = length (latitude ds)
           /\ forall row, In row plane -> length row = length (longitude ds).
Proof.
  unfold shape_ok. rewrite andb_true_iff, Nat.eqb_eq, forallb_forall.
  split; intros [Hlen Hplanes]; (split; [exact Hlen|]); intros plane Hplane.
  - specialize (Hplanes plane Hplane).
    rewrite andb_true_iff, Nat.eqb_eq, forallb_forall in Hplanes.
    destruct Hplanes as [Hla Hrows]. split; [exact Hla|].
    intros row Hrow. now apply Nat.eqb_eq, Hrows.
  - destruct (Hplanes plane Hplane) as [Hla Hrows].
    rewrite andb_true_iff, Nat.eqb_eq, forallb_forall. split; [exact Hla|].
    intros row Hrow. now apply Nat.eqb_eq, Hrows.
Qed.

Lemma wf_dataset_iff (ds : Dataset) :
  wf_dataset ds = true
  <-> unique (dict_keys (data_vars ds)) = true
      /\ forall k da, In (k, da) (data_vars ds) -> shape_ok ds (values da) = true.
Proof.
  unfold wf_dataset. rewrite andb_true_iff, forallb_forall.
  split; intros [Hu Hs]; (split; [exact Hu|]).
  - intros k da Hin. exact (Hs (k, da) Hin).
  - intros [k da] Hin. exact (Hs k da Hin).
Qed.

Lemma shape_ok_on_valid_time (ds ds' : Dataset) (f : grid -> grid) (g : grid) :
  length (latitude ds') = length (latitude ds) ->
  length (longitude ds') = length (longitude ds) ->
  (forall g0 : grid,
      length g0 = length (valid_time ds) ->
      length (f g0) = length (valid_time ds')) ->
  (forall (g0 : grid) plane, In plane (f g0) -> In plane g0) ->
  shape_ok ds g = true -> shape_ok ds' (on_valid_time f g) = true.
Proof.
  intros Hla Hlo Hlen Hin. rewrite !shape_ok_iff. unfold on_valid_time.
  intros [Ht Hplanes]. split; [now apply Hlen|].
  intros plane Hplane. rewrite Hla, Hlo. apply Hplanes. eapply Hin, Hplane.
Qed.

Lemma shape_ok_on_latitude (ds ds' : Dataset)
      (f : list (list Q) -> list (list Q)) (g : grid) :
  length (valid_time ds') = length (valid_time ds) ->
  length (longitude ds') = length (longitude ds) ->
  (forall plane : list (list Q),
      length plane = length (latitude ds) ->
      length (f plane) = length (latitude ds')) ->
  (forall (plane : list (list Q)) row, In row (f plane) -> In row plane) ->
  shape_ok ds g = true -> shape_ok ds' (on_latitude f g) = true.
Proof.
  intros Ht Hlo Hlen Hin. rewrite !shape_ok_iff. unfold on_latitude.
  intros [Hg Hplanes]. split; [now rewrite length_map, Ht|].
  intros plane' Hplane'. apply in_map_iff in Hplane' as (plane & <- & Hplane).
  destruct (Hplanes plane Hplane) as [Hla Hrows]. split; [now apply Hlen|].
  intros row Hrow. rewrite Hlo. apply Hrows. eapply Hin, Hrow.
Qed.

Lemma shape_ok_on_longitude (ds ds' : Dataset) (f : list Q -> list Q) (g : grid) :
  length (valid_time ds') = length (valid_time ds) ->
  length (latitude ds') = length (latitude ds) ->
  (forall row : list Q,
      length row = length (longitude ds) ->
      length (f row) = length (longitude ds')) ->
  shape_ok ds g = true -> shape_ok ds' (on_longitude f g) = true.
Proof.
  intros Ht Hla Hlen. rewrite !shape_ok_iff. unfold on_longitude.
  intros [Hg Hplanes]. split; [now rewrite length_map, Ht|].
  intros plane' Hplane'. apply in_map_iff in Hplane' as (plane & <- & Hplane).
  destruct (Hplanes plane Hplane) as [Hlat Hrows].
  split; [now rewrite length_map, Hla|].
  intros row' Hrow'. apply in_map_iff in Hrow' as (row & <- & Hrow).
  apply Hlen. now apply Hrows.
Qed.

Lemma length_take_slice {A B : Type} (b : nat * nat) (l : list A) (l' : list B) :
  length l = length l' -> length (take_slice b l) = length (take_slice b l').
Proof.
  intros H. unfold take_slice. now rewrite !length_firstn, !length_skipn, H.
Qed.

Lemma In_take_slice {A : Type} (b : nat * nat) (l : list A) (x : A) :
  In x (take_slice b l) -> In x l.
Proof. intros H. apply take_slice_In in H as [H _]. now apply In_skipn in H. Qed.

Lemma length_take {A B : Type} (positions : list nat) (l : list A) (l' : list B) :
  length l = length l' -> length (take positions l) = length (take positions l').
Proof.
  intros H. unfold take.
  induction positions as [|i positions IH]; simpl; [reflexivity|].
  rewrite !length_app, IH. f_equal.
  destruct (nth_error l i) eqn:E, (nth_error l' i) eqn:E'; try reflexivity.
  - apply nth_error_None in E'.
    assert (i < length l)%nat by (apply nth_error_Some; congruence). lia.
  - apply nth_error_None in E.
    assert (i < length l')%nat by (apply nth_error_Some; congruence). lia.
Qed.

Lemma In_stride_from {A : Type} (step : nat) (x : A) :
  forall (l : list A) (k : nat), In x (stride_from step k l) -> In x l.
Proof.
  induction l as [|y l IH]; intros k H; simpl in *; [exact H|].
  destruct k as [|k]; simpl in H.
  - destruct H as [-> | H]; [now left | right; eauto].
  - right. eauto.
Qed.

Lemma In_strided {A : Type} (step : Z) (l : list A) (x : A) :
  In x (strided step l) -> In x l.
Proof.
  unfold strided, stride. destruct (0 <? step)%Z; intros H.
  - eapply In_stride_from, H.
  - apply in_rev. eapply In_stride_from, H.
Qed.

Lemma length_strided {A B : Type} (step : Z) (l : list A) (l' : list B) :
  step <> 0%Z ->
  length l = length l' -> length (strided step l) = length (strided step l').
Proof.
  intros Hstep H. unfold strided, stride.
  destruct (Z.ltb_spec 0 step).
  - rewrite !length_stride_from by lia. now rewrite H.
  - rewrite !length_stride_from by lia. now rewrite !length_rev, H.
Qed.

Lemma shape_ok_lengths (ds ds' : Dataset) (g : grid) :
  length (valid_time ds') = length (valid_time ds) ->
  length (latitude ds') = length (latitude ds) ->
  length (longitude ds') = length (longitude ds) ->
  shape_ok ds' g = shape_ok ds g.
Proof. unfold shape_ok. now intros -> -> ->. Qed.

Lemma unique_dict_set {V : Type} (d : dict V) (k : string) (v : V) :
  unique (dict_keys d) = true -> unique (dict_keys (dict_set d k v)) = true.
Proof.
  induction d as [|[k0 v0] d IH]; simpl; [reflexivity|].
  rewrite andb_true_iff, negb_true_iff. intros [Hk0 Hd].
  destruct (String.eqb k k0) eqn:E; simpl.
  - apply String.eqb_eq in E. subst k0. now rewrite Hk0, Hd.
  - rewrite IH by exact Hd. rewrite andb_true_r, negb_true_iff.
    change (existsb (String.eqb k0) (dict_keys (dict_set d k v)))
      with (dict_mem (dict_set d k v) k0).
    rewrite dict_mem_set. unfold dict_mem. rewrite Hk0, orb_false_r.
    rewrite String.eqb_sym. exact E.
Qed.

Lemma In_dict_set {V : Type} (d : dict V) (k k' : string) (v v' : V) :
  In (k', v') (dict_set d k v) -> (k', v') = (k, v) \/ In (k', v') d.
Proof.
  induction d as [|[k0 v0] d IH]; simpl.
  - intros [H | []]. now left.
  - destruct (String.eqb k k0); simpl.
    + intros [H | H]; [now left | right; now right].
    + intros [H | H]; [right; now left|].
      destruct (IH H) as [H' | H']; [now left | right; now right].
Qed.

Lemma select_vars_unique (ds : Dataset) :
  forall (var_list : list string) (acc vars : dict DataArray),
    unique (dict_keys acc) = true ->
    select_vars ds var_list acc = Ok vars ->
    unique (dict_keys vars) = true.
Proof.
  induction var_list as [|name rest IH]; intros acc vars Hacc Hsel;
    simpl in Hsel.
  - now injection Hsel as <-.
  - destruct (dict_get (data_vars ds) name) as [da|].
    + eapply IH; [|exact Hsel]. now apply unique_dict_set.
    + destruct (is_coord_name name); [|discriminate]. eauto.
Qed.

Lemma select_vars_In (ds : Dataset) :
  forall (var_list : list string) (acc vars : dict DataArray),
    select_vars ds var_list acc = Ok vars ->
    forall k da,
      In (k, da) vars -> In (k, da) acc \/ dict_get (data_vars ds) k = Some da.
Proof.
  induction var_list as [|name rest IH]; intros acc vars Hsel k da Hin;
    simpl in Hsel.
  - injection Hsel as <-. now left.
  - destruct (dict_get (data_vars ds) name) as [da0|] eqn:E.
    + destruct (IH _ _ Hsel k da Hin) as [H | H]; [|now right].
      apply In_dict_set in H as [[= -> ->] | H]; [now right | now left].
    + destruct (is_coord_name name); [|discriminate]. eauto.
Qed.

Lemma In_map_vars (f : grid -> grid) (d : dict DataArray) (k : string)
      (da : DataArray) :
  In (k, da) (map_vars f d) ->
  exists da0,
    In (k, da0) d /\ da = {| values := f (values da0); attrs := attrs da0 |}.
Proof.
  unfold map_vars. intros H.
  apply in_map_iff in H as ([k0 da0] & [= <- <-] & Hin). eauto.
Qed.

(** The shapes follow the coordinates through the time slice, the sort
    and the crop. *)
Lemma process_data_loaded_wf (fmt : float_format)
      (self self' : ERA5DataProcessor)
      (Hwf : wf_dataset (dataset self) = true)
      (Hrun : process_data fmt self = (Ok tt, self')) :
  exists data, loaded_dataset self' = Some data /\ wf_dataset data = true.
Proof.
  destruct (@process_data_returns fmt self self' Hrun)
    as (bt & vars & bla & blo & _ & Hsel & _ & _ & ->).
  simpl. eexists. split; [reflexivity|].
  apply wf_dataset_iff in Hwf as [Huniq Hshapes].
  apply wf_dataset_iff. simpl. split.
  - rewrite dict_keys_map_vars.
    assert (Hvars : unique (dict_keys vars) = true)
      by (eapply select_vars_unique; [|exact Hsel]; reflexivity).
    destruct (convert_longitude self); [rewrite dict_keys_map_vars|];
      exact Hvars.
  - intros k da Hin.
    set (src := dataset self) in *.
    set (converted := map (convert_lon fmt) (longitude src)) in *.
    set (lon_at_crop :=
           if convert_longitude self then take (argsort converted) converted
           else longitude src) in *.
    pose (timed := {| valid_time := take_slice bt (valid_time src);
                      latitude := latitude src;
                      longitude := longitude src;
                      data_vars := [] |}).
    pose (sorted := {| valid_time := take_slice bt (valid_time src);
                       latitude := latitude src;
                       longitude := lon_at_crop;
                       data_vars := [] |}).
    pose (rows := {| valid_time := take_slice bt (valid_time src);
                     latitude := take_slice bla (latitude src);
                     longitude := lon_at_crop;
                     data_vars := [] |}).
    apply In_map_vars in Hin as (da1 & Hin & ->). simpl.
    assert (Hsorted : shape_ok sorted (values da1) = true).
    { assert (Htimed : forall da2, In (k, da2) vars ->
                                   shape_ok timed (values da2) = true).
      { intros da2 Hda2.
        destruct (select_vars_In _ _ _ Hsel k da2 Hda2) as [[] | Hget].
        simpl in Hget. rewrite dict_get_map_vars in Hget.
        destruct (dict_get (data_vars src) k) as [da3|] eqn:E; [|discriminate].
        injection Hget as <-. simpl.
        apply (@shape_ok_on_valid_time src timed); try reflexivity.
        - intros g0 Hg0. simpl. now apply length_take_slice.
        - intros g0 plane. apply In_take_slice.
        - eapply Hshapes, dict_get_In, E. }
      unfold sorted, lon_at_crop.
      destruct (convert_longitude self).
      - apply In_map_vars in Hin as (da2 & Hin & ->). simpl.
        apply (@shape_ok_on_longitude timed); try reflexivity.
        + intros row Hrow. simpl in *. apply length_take.
          unfold converted. now rewrite length_map.
        + now apply Htimed.
      - now apply Htimed. }
    apply (@shape_ok_on_longitude rows); try reflexivity.
    + intros row Hrow. simpl in *. now apply length_take_slice.
    + apply (@shape_ok_on_latitude sorted); try reflexivity.
      * intros plane Hplane. simpl in *. now apply length_take_slice.
      * intros plane row. apply In_take_slice.
      * exact Hsorted.
Qed.

(** X9: [process_data] keeps datasets well formed: from a well-formed
    original dataset it loads a dataset whose variables all have the shape
    of the cropped coordinates, with no name twice. *)
Theorem process_data_keeps_shapes (fmt : float_format)
        (self self' : ERA5DataProcessor)
        (Hwf : wf_dataset (dataset self) = true)
        (Hrun : process_data fmt self = (Ok tt, self')) :
  exists data, loaded_dataset self' = Some data /\ wf_dataset data = true.
Proof. exact (@process_data_loaded_wf fmt self self' Hwf Hrun). Qed.

Lemma process_data_keeps_shapes_witness :
  exists data,
    loaded_dataset Sample.processed = Some data /\ wf_dataset data = true.
Proof.
  exact (@process_data_keeps_shapes binary64 Sample.fresh Sample.processed
           eq_refl eq_refl).
Defined.

(** ** More on extracting a time step *)

Local Open Scope Z_scope.

(** X10: for a time step [t] with [0 <= t < N] and requested names that
    are all data variables, [extract_components_by_given_timestep] returns
    a mapping that holds for each requested variable its (lat x lon) slice
    at time index [t], with the variable's attributes: entry (i, j) of the
    slice is entry (t, i, j) of the variable.  (With [lat_long] set, the
    keys [lat] and [long] hold the coordinate arrays.) *)
Theorem extract_timestep_slices
        (self : ERA5DataProcessor) (data : Dataset) (timestep : Z)
        (extract_variables : names) (lat_long : bool)
        (Hloaded : loaded_dataset self = Some data)
        (Hwf : wf_dataset data = true)
        (Ht : 0 <= timestep < Z.of_nat (length (valid_time data)))
        (Hall : forallb (dict_mem (data_vars data))
                        (names_list extract_variables) = true) :
  exists out,
    extract_components_by_given_timestep
      timestep (Some extract_variables) lat_long self = (Ok out, self)
    /\ forall var da,
         In var (names_list extract_variables) ->
         dict_get (data_vars data) var = Some da ->
         (lat_long = true -> var <> "lat"%string /\ var <> "long"%string) ->
         exists slice,
           dict_get out var = Some (Field slice (attrs da))
           /\ forall i j,
                match nth_error slice i with
                | Some row => nth_error row j
                | None => None
                end = get3 (values da) (Z.to_nat timestep) i j.
Proof.
  unfold extract_components_by_given_timestep, then_, get_self, raise, lift, ret.
  rewrite Hloaded. rewrite Z.geb_leb.
  destruct (Z.leb_spec (Z.of_nat (length (valid_time data))) timestep); [lia|].
  assert (Hrange : - Z.of_nat (length (valid_time data)) <= timestep
                   < Z.of_nat (length (valid_time data))) by lia.
  destruct (extract_loop_all_present data Hwf Hrange
              (names_list extract_variables) [] Hall)
    as (out & Hout & Hget).
  rewrite Hout. simpl. eexists. split; [reflexivity|].
  intros var da Hin Hda Hkeys.
  exists (nth (Z.to_nat timestep) (values da) []).
  assert (Hslice : dict_get out var
                   = Some (Field (nth (Z.to_nat timestep) (values da) [])
                                 (attrs da))).
  { rewrite Hget, Hda.
    replace (existsb (String.eqb var) (names_list extract_variables))
      with true.
    - rewrite Z.mod_small by lia. reflexivity.
    - symmetry. apply existsb_exists. exists var. split; [exact Hin|].
      apply String.eqb_refl. }
  split.
  - destruct lat_long; [|exact Hslice].
    destruct (Hkeys eq_refl) as [Hlat Hlong].
    rewrite !dict_get_set.
    apply String.eqb_neq in Hlat, Hlong. rewrite Hlat, Hlong. exact Hslice.
  - intros i j. unfold get3.
    assert (Hlen : (Z.to_nat timestep < length (values da))%nat).
    { rewrite (wf_dataset_time_length _ _ Hwf Hda). lia. }
    destruct (nth_error (values da) (Z.to_nat timestep)) as [plane|] eqn:E.
    + now rewrite (nth_error_nth _ _ [] E).
    + apply nth_error_None in E. lia.
Qed.

Lemma extract_timestep_slices_witness :
  exists out,
    extract_components_by_given_timestep
      1 (Some (NameList ["u10"; "v10"]%string)) true Sample.processed
    = (Ok out, Sample.processed)
    /\ dict_get out "u10"%string
       = Some (Field [[3; 0; 5]; [8; 6; 0]]%Q [("units", "m s**-1")]%string).
Proof.
  destruct (@extract_timestep_slices
              Sample.processed Sample.loaded 1
              (NameList ["u10"; "v10"]%string) true
              eq_refl eq_refl ltac:(simpl; lia) eq_refl)
    as (out & Hrun & _).
  exists out. split; [exact Hrun|].
  assert (E : fst (extract_components_by_given_timestep
                     1 (Some (NameList ["u10"; "v10"]%string)) true
                     Sample.processed) = Ok out) by now rewrite Hrun.
  vm_compute in E. injection E as <-. reflexivity.
Defined.

Lemma extract_loop_missing (data : Dataset) (timestep : Z) (var : string)
      (post : list string)
      (Hwf : wf_dataset data = true)
      (Ht : - Z.of_nat (length (valid_time data)) <= timestep
            < Z.of_nat (length (valid_time data)))
      (Hvar : dict_mem (data_vars data) var = false) :
  forall (pre : list string) (output_vars : dict component),
    forallb (dict_mem (data_vars data)) pre = true ->
    extract_loop data timestep (pre ++ var :: post) output_vars
    = Raise (Exn KeyError ("Variable " ++ var ++ " not found in dataset.")).
Proof.
  induction pre as [|k pre IH]; intros out Hpre; simpl.
  - now rewrite Hvar.
  - simpl in Hpre. apply andb_true_iff in Hpre as [Hk Hpre].
    rewrite Hk. apply dict_mem_get in Hk as [da Hda].
    rewrite (ds_getitem_data_var _ _ Hda). simpl.
    rewrite isel_valid_time_in_range
      by (rewrite (wf_dataset_time_length _ _ Hwf Hda); exact Ht).
    simpl. now apply IH.
Qed.

(** X11: for a time step within [-N, N), when a requested name is not a
    data variable of the loaded dataset (a coordinate name included), the
    call raises KeyError naming the first such name; nothing of the slices
    made before it is returned and the processor is unchanged. *)
Theorem extract_missing_variable
        (self : ERA5DataProcessor) (data : Dataset) (timestep : Z)
        (extract_variables : names) (pre post : list string) (var : string)
        (lat_long : bool)
        (Hloaded : loaded_dataset self = Some data)
        (Hwf : wf_dataset data = true)
        (Ht : - Z.of_nat (length (valid_time data)) <= timestep
              < Z.of_nat (length (valid_time data)))
        (Hnames : names_list extract_variables = (pre ++ var :: post)%list)
        (Hpre : forallb (dict_mem (data_vars data)) pre = true)
        (Hvar : dict_mem (data_vars data) var = false) :
  extract_components_by_given_timestep
    timestep (Some extract_variables) lat_long self
  = (Raise (Exn KeyError ("Variable " ++ var ++ " not found in dataset.")),
     self).
Proof.
  unfold extract_components_by_given_timestep, then_, get_self, raise, lift, ret.
  rewrite Hloaded. rewrite Z.geb_leb.
  destruct (Z.leb_spec (Z.of_nat (length (valid_time data))) timestep); [lia|].
  rewrite Hnames, (@extract_loop_missing data timestep var post Hwf Ht Hvar pre [] Hpre).
  reflexivity.
Qed.

Lemma extract_missing_variable_witness :
  extract_components_by_given_timestep
    0 (Some (NameList ["u10"; "latitude"; "v10"]%string)) true Sample.processed
  = (Raise (Exn KeyError "Variable latitude not found in dataset."),
     Sample.processed).
Proof.
  apply (@extract_missing_variable
           Sample.processed Sample.loaded 0
           (NameList ["u10"; "latitude"; "v10"]%string)
           ["u10"%string] ["v10"%string] "latitude" true);
    try reflexivity.
  simpl. lia.
Defined.

Lemma extract_loop_keys (data : Dataset) (timestep : Z) :
  forall (var_list : list string) (output_vars out : dict component),
    extract_loop data timestep var_list output_vars = Ok out ->
    forall k,
      dict_mem out k
      = dict_mem output_vars k || existsb (String.eqb k) var_list.
Proof.
  induction var_list as [|var rest IH]; intros acc out Hloop k;
    simpl in Hloop.
  - injection Hloop as <-. simpl. now rewrite orb_false_r.
  - destruct (dict_mem (data_vars data) var); [|discriminate].
    destruct (ds_getitem data var) as [da|]; simpl in Hloop; [|discriminate].
    destruct (isel_valid_time da timestep) as [slice|]; simpl in Hloop;
      [|discriminate].
    rewrite (IH _ _ Hloop k), dict_mem_set. simpl.
    destruct (String.eqb k var), (dict_mem acc k); reflexivity.
Qed.

(** X12: when the call returns, the keys of the mapping are the requested
    names and, with [lat_long] set, [lat] and [long], which hold the
    latitude and longitude arrays of the loaded dataset (whatever was
    requested under those names). *)
Theorem extract_returns_keys
        (self self' : ERA5DataProcessor) (data : Dataset) (timestep : Z)
        (extract_variables : names) (lat_long : bool)
        (out : dict component)
        (Hloaded : loaded_dataset self = Some data)
        (Hrun : extract_components_by_given_timestep
                  timestep (Some extract_variables) lat_long self
                = (Ok out, self')) :
  (forall k,
      dict_mem out k
      = existsb (String.eqb k) (names_list extract_variables)
        || lat_long && (String.eqb k "lat" || String.eqb k "long"))
  /\ (lat_long = true ->
      dict_get out "lat"%string = Some (Axis (latitude data))
      /\ dict_get out "long"%string = Some (Axis (longitude data))).
Proof.
  unfold extract_components_by_given_timestep, then_, get_self, raise, lift, ret
    in Hrun.
  rewrite Hloaded in Hrun.
  destruct (timestep >=? Z.of_nat (length (valid_time data))); [discriminate|].
  destruct (extract_loop data timestep (names_list extract_variables) [])
    as [vars|] eqn:Hloop; simpl in Hrun; [|discriminate].
  injection Hrun as <- _.
  pose proof (extract_loop_keys _ _ _ _ Hloop) as Hkeys. simpl in Hkeys.
  destruct lat_long; simpl.
  - split.
    + intros k. rewrite !dict_mem_set, Hkeys.
      destruct (String.eqb k "long"), (String.eqb k "lat"),
        (existsb (String.eqb k) (names_list extract_variables)); reflexivity.
    + intros _. rewrite !dict_get_set. simpl. split; reflexivity.
  - split; [|discriminate].
    intros k. now rewrite Hkeys, orb_false_r.
Qed.

Lemma extract_returns_keys_witness :
  exists out,
    extract_components_by_given_timestep
      0 (Some (NameList ["v10"%string])) true Sample.processed
    = (Ok out, Sample.processed)
    /\ dict_mem out "u10"%string = false
    /\ dict_get out "long"%string = Some (Axis [-90; 0; 90]%Q).
Proof.
  eexists. split; [reflexivity|].
  destruct (@extract_returns_keys
              Sample.processed Sample.processed Sample.loaded 0
              (NameList ["v10"%string]) true _ eq_refl eq_refl)
    as [Hkeys Haxes].
  split; [now rewrite Hkeys | exact (proj2 (Haxes eq_refl))].
Defined.

(** X13: on a processed state, a call with [None] for [extract_variables]
    and a time step below [N] does not raise the ValueError the method
    prepares for that case: the call fails with an AttributeError when the
    names are read, and the processor is unchanged. *)
Theorem extract_without_variables
        (self : ERA5DataProcessor) (data : Dataset) (timestep : Z)
        (lat_long : bool)
        (Hloaded : loaded_dataset self = Some data)
        (Ht : timestep < Z.of_nat (length (valid_time data))) :
  is_kind AttributeError
          (fst (extract_components_by_given_timestep
                  timestep None lat_long self))
  /\ snd (extract_components_by_given_timestep timestep None lat_long self)
     = self.
Proof.
  unfold extract_components_by_given_timestep, then_, get_self, raise.
  rewrite Hloaded, Z.geb_leb.
  destruct (Z.leb_spec (Z.of_nat (length (valid_time data))) timestep); [lia|].
  simpl. split; [eexists|]; reflexivity.
Qed.

Lemma extract_without_variables_witness :
  is_kind AttributeError
          (fst (extract_components_by_given_timestep
                  0 None true Sample.processed)).
Proof.
  apply (@extract_without_variables Sample.processed Sample.loaded 0 true
           eq_refl).
  simpl. lia.
Defined.

Lemma reading_methods_snd
      (self : ERA5DataProcessor) (timestep : Z)
      (extract_variables : option names) (lat_long : bool) (step : Z) :
  snd (extract_components_by_given_timestep
         timestep extract_variables lat_long self) = self
  /\ snd (subsample_data step self) = self
  /\ snd (get_processed_data self) = self.
Proof.
  unfold extract_components_by_given_timestep, subsample_data,
    get_processed_data, then_, get_self, raise, lift, ret.
  simpl. repeat split; repeat step_method; reflexivity.
Qed.

(** X14: [extract_components_by_given_timestep], [subsample_data] and
    [get_processed_data] only read: whatever the arguments and whether they
    return or raise, the processor after the call is the processor before
    it. *)
Theorem reading_methods_keep_processor
        (self : ERA5DataProcessor) (timestep : Z)
        (extract_variables : option names) (lat_long : bool) (step : Z) :
  snd (extract_components_by_given_timestep
         timestep extract_variables lat_long self) = self
  /\ snd (subsample_data step self) = self
  /\ snd (get_processed_data self) = self.
Proof. apply reading_methods_snd. Qed.

(** ** More on the wind speed *)

Local Open Scope string_scope.
Local Open Scope Q_scope.

(** What [calculate_wind_speed] leaves in the processor when both
    components are there. *)
Lemma calculate_wind_speed_returns
      (np_sqrt : Q -> Q) (fmt : float_format)
      (self : ERA5DataProcessor) (ds : Dataset)
      (u_component v_component new_var_name : string) (u v : DataArray) :
  loaded_dataset self = Some ds ->
  ds_contains ds v_component = true ->
  ds_getitem ds u_component = Ok u ->
  ds_getitem ds v_component = Ok v ->
  ds_contains ds u_component = true ->
  let wind_speed := da_map np_sqrt (da_add fmt (da_square fmt u) (da_square fmt v)) in
  let stored := ds_setitem ds new_var_name wind_speed in
  calculate_wind_speed np_sqrt fmt u_component v_component new_var_name self
  = (Ok tt,
     with_loaded_dataset self
       (if include_attributes self then
          ds_setitem stored new_var_name
            {| values := values wind_speed;
               attrs :=
                 [("long_name",
                   "Wind Speed calculated from " ++ u_component ++ " and "
                   ++ v_component);
                  ("units",
                   match ds_getitem stored u_component with
                   | Ok u' =>
                       match dict_get (attrs u') "units" with
                       | Some units => units
                       | None => "m s**-1"
                       end
                   | Raise _ => "m s**-1"
                   end)] |}
        else stored)).
Proof.
  intros Hloaded Hv Hgu Hgv Hu wind_speed stored.
  assert (Hnew : dict_get (data_vars stored) new_var_name = Some wind_speed).
  { simpl. now rewrite dict_get_set, String.eqb_refl. }
  assert (Hu' : ds_contains stored u_component = true).
  { unfold ds_contains in *. simpl. rewrite dict_mem_set.
    apply orb_true_iff in Hu as [Hu | Hu]; rewrite Hu.
    - now rewrite orb_true_r.
    - apply orb_true_r. }
  destruct (ds_contains_getitem _ _ Hu') as [u' Hgu'].
  unfold calculate_wind_speed, then_, get_self, raise, lift, set_loaded_dataset.
  rewrite Hloaded, Hu, Hv, Hgu, Hgv. simpl.
  fold wind_speed. fold stored.
  destruct (include_attributes self); [|reflexivity].
  rewrite Hgu'. unfold ds_set_attrs. rewrite Hnew. reflexivity.
Qed.

(** X15: with [include_attributes] on and a [u_component] that is a data
    variable other than [new_var_name], the new variable carries exactly
    two attributes: a [long_name] that names the two components, and
    [units], copied from the u component when it has units and
    ["m s**-1"] otherwise. *)
Theorem wind_speed_attributes
        (np_sqrt : Q -> Q) (fmt : float_format)
        (self : ERA5DataProcessor) (ds : Dataset)
        (u_component v_component new_var_name : string) (u : DataArray)
        (Hloaded : loaded_dataset self = Some ds)
        (Hattrs : include_attributes self = true)
        (Hu : dict_get (data_vars ds) u_component = Some u)
        (Hv : ds_contains ds v_component = true)
        (Hnew : u_component <> new_var_name) :
  exists ds' wind_speed,
    calculate_wind_speed np_sqrt fmt u_component v_component new_var_name self
    = (Ok tt, with_loaded_dataset self ds')
    /\ dict_get (data_vars ds') new_var_name = Some wind_speed
    /\ attrs wind_speed
       = [("long_name",
           "Wind Speed calculated from " ++ u_component ++ " and "
           ++ v_component);
          ("units",
           match dict_get (attrs u) "units" with
           | Some units => units
           | None => "m s**-1"
           end)].
Proof.
  destruct (ds_contains_getitem _ _ Hv) as [v Hgv].
  assert (Hcu : ds_contains ds u_component = true).
  { unfold ds_contains. apply orb_true_iff. left.
    apply dict_mem_get. eauto. }
  rewrite (@calculate_wind_speed_returns np_sqrt fmt self ds u_component
             v_component new_var_name u v Hloaded Hv
             (ds_getitem_data_var _ _ Hu) Hgv Hcu).
  rewrite Hattrs. eexists. eexists. split; [reflexivity|]. split.
  - simpl. rewrite dict_get_set, String.eqb_refl. reflexivity.
  - simpl. unfold ds_getitem. simpl. rewrite dict_get_set.
    apply String.eqb_neq in Hnew. rewrite Hnew, Hu. reflexivity.
Qed.

Lemma wind_speed_attributes_witness :
  exists ds' wind_speed,
    calculate_wind_speed Sample.int_sqrt binary32 "u10" "v10" "wind_speed"
      Sample.processed
    = (Ok tt, with_loaded_dataset Sample.processed ds')
    /\ dict_get (data_vars ds') "wind_speed" = Some wind_speed
    /\ attrs wind_speed
       = [("long_name", "Wind Speed calculated from u10 and v10");
          ("units", "m s**-1")].
Proof.
  exact (@wind_speed_attributes
           Sample.int_sqrt binary32 Sample.processed Sample.loaded
           "u10" "v10" "wind_speed"
           {| values := [[[5; 3; 6]; [0; 8; 3]]; [[3; 0; 5]; [8; 6; 0]]];
              attrs := [("units", "m s**-1")] |}
           eq_refl eq_refl eq_refl eq_refl ltac:(discriminate)).
Defined.

Lemma length_zip_with {A B C : Type} (f : A -> B -> C) :
  forall (a : list A) (b : list B),
    length a = length b -> length (zip_with f a b) = length a.
Proof.
  induction a as [|x a IH]; intros [|y b] H; simpl in *; try discriminate;
    [reflexivity|].
  f_equal. apply IH. lia.
Qed.

Lemma In_zip_with {A B C : Type} (f : A -> B -> C) (z : C) :
  forall (a : list A) (b : list B),
    In z (zip_with f a b) -> exists x y, In x a /\ In y b /\ z = f x y.
Proof.
  induction a as [|x a IH]; intros [|y b] H; simpl in H; try contradiction.
  destruct H as [<- | H].
  - exists x, y. simpl. auto.
  - destruct (IH b H) as (x' & y' & Hx & Hy & ->).
    exists x', y'. simpl. auto.
Qed.

Lemma shape_ok_zip_with (ds : Dataset) (f : Q -> Q -> Q) (a b : grid) :
  shape_ok ds a = true -> shape_ok ds b = true ->
  shape_ok ds (zip_with (zip_with (zip_with f)) a b) = true.
Proof.
  rewrite !shape_ok_iff. intros [Ha Hpa] [Hb Hpb]. split.
  - rewrite length_zip_with; congruence.
  - intros plane Hplane.
    apply In_zip_with in Hplane as (pa & pb & Hina & Hinb & ->).
    destruct (Hpa pa Hina) as [Hla Hra]. destruct (Hpb pb Hinb) as [Hlb Hrb].
    split; [rewrite length_zip_with; congruence|].
    intros row Hrow.
    apply In_zip_with in Hrow as (ra & rb & Hinra & Hinrb & ->).
    rewrite length_zip_with; [now apply Hra|].
    rewrite (Hra ra Hinra). symmetry. now apply Hrb.
Qed.

Lemma shape_ok_map (ds : Dataset) (f : Q -> Q) (g : grid) :
  shape_ok ds g = true -> shape_ok ds (map (map (map f)) g) = true.
Proof.
  intros H.
  apply (@shape_ok_on_longitude ds ds (map f) g); try reflexivity; [|exact H].
  intros row Hrow. now rewrite length_map.
Qed.

Lemma shape_ok_coord_grid (ds : Dataset) (name : string) :
  shape_ok ds (coord_grid ds name) = true.
Proof.
  apply shape_ok_iff. unfold coord_grid. split; [apply length_map|].
  intros plane Hplane. apply in_map_iff in Hplane as (t & <- & _).
  split; [apply length_map|].
  intros row Hrow. apply in_map_iff in Hrow as (la & <- & _).
  apply length_map.
Qed.

Lemma ds_getitem_shape (ds : Dataset) (name : string) (da : DataArray) :
  wf_dataset ds = true ->
  ds_getitem ds name = Ok da -> shape_ok ds (values da) = true.
Proof.
  intros Hwf. apply wf_dataset_iff in Hwf as [_ Hshapes].
  unfold ds_getitem.
  destruct (dict_get (data_vars ds) name) as [da0|] eqn:E.
  - intros [= <-]. eapply Hshapes, dict_get_In, E.
  - destruct (is_coord_name name); [|discriminate].
    intros [= <-]. apply shape_ok_coord_grid.
Qed.

Lemma wf_ds_setitem (ds : Dataset) (name : string) (da : DataArray) :
  wf_dataset ds = true ->
  shape_ok ds (values da) = true ->
  wf_dataset (ds_setitem ds name da) = true.
Proof.
  intros Hwf Hda. apply wf_dataset_iff in Hwf as [Huniq Hshapes].
  apply wf_dataset_iff. simpl. split; [now apply unique_dict_set|].
  intros k da' Hin.
  rewrite (@shape_ok_lengths ds (ds_setitem ds name da)) by reflexivity.
  apply In_dict_set in Hin as [[= -> ->] | Hin]; [exact Hda | eauto].
Qed.

(** Whether it returns or raises, [calculate_wind_speed] leaves a
    well-formed loaded dataset well formed. *)
Lemma calculate_wind_speed_wf
      (np_sqrt : Q -> Q) (fmt : float_format)
      (self : ERA5DataProcessor) (ds : Dataset)
      (u_component v_component new_var_name : string) :
  loaded_dataset self = Some ds ->
  wf_dataset ds = true ->
  exists ds',
    loaded_dataset
      (snd (calculate_wind_speed np_sqrt fmt u_component v_component new_var_name
              self)) = Some ds'
    /\ wf_dataset ds' = true.
Proof.
  intros Hloaded Hwf.
  destruct (ds_contains ds u_component) eqn:Hu;
    [destruct (ds_contains ds v_component) eqn:Hv|].
  - destruct (ds_contains_getitem _ _ Hu) as [u Hgu].
    destruct (ds_contains_getitem _ _ Hv) as [v Hgv].
    rewrite (@calculate_wind_speed_returns np_sqrt fmt self ds u_component
               v_component new_var_name u v Hloaded Hv Hgu Hgv Hu).
    simpl. eexists. split; [reflexivity|].
    assert (Hw : shape_ok ds
                   (values (da_map np_sqrt (da_add fmt (da_square fmt u) (da_square fmt v))))
                 = true).
    { simpl. apply shape_ok_map, shape_ok_zip_with; apply shape_ok_map;
        eapply ds_getitem_shape; eassumption. }
    pose proof (@wf_ds_setitem ds new_var_name _ Hwf Hw) as Hstored.
    destruct (include_attributes self); [|exact Hstored].
    apply wf_ds_setitem; [exact Hstored|].
    simpl.
    now rewrite (@shape_ok_lengths ds
                   (ds_setitem ds new_var_name
                      (da_map np_sqrt (da_add fmt (da_square fmt u) (da_square fmt v)))))
      by reflexivity.
  - unfold calculate_wind_speed, then_, get_self, raise.
    rewrite Hloaded, Hu, Hv. simpl. rewrite Hloaded. eauto.
  - unfold calculate_wind_speed, then_, get_self, raise.
    rewrite Hloaded, Hu. simpl. rewrite Hloaded. eauto.
Qed.

(** ** The states a session goes through *)

Lemma process_data_outcomes (fmt : float_format) (self : ERA5DataProcessor) :
  (exists d, process_data fmt self = (Ok tt, with_loaded_dataset self d))
  \/ (exists e, process_data fmt self = (Raise e, self)).
Proof.
  destruct (process_data_same_inputs fmt (same_inputs_refl self))
    as [(d & H & _) | (e & H & _)]; eauto.
Qed.

Lemma run_call_stays_processed (np_sqrt : Q -> Q) (lon_fmt data_fmt : float_format)
      (self : ERA5DataProcessor)
      (c : call) :
  loaded_dataset self <> None ->
  loaded_dataset (run_call np_sqrt lon_fmt data_fmt self c) <> None.
Proof.
  intros Hloaded. destruct c; simpl.
  - destruct (process_data_outcomes lon_fmt self) as [[d ->] | [e ->]]; simpl;
      [discriminate | exact Hloaded].
  - now rewrite (proj1 (reading_methods_snd self timestep extract_variables
                          lat_long 0)).
  - destruct (loaded_dataset self) as [ds|] eqn:E; [|contradiction].
    unfold calculate_wind_speed, then_, get_self, raise, lift,
      set_loaded_dataset.
    rewrite E. simpl. repeat step_method; simpl; congruence.
  - now rewrite (proj1 (proj2 (reading_methods_snd self 0 None true step))).
  - now rewrite (proj2 (proj2 (reading_methods_snd self 0 None true 0))).
Qed.

Lemma run_call_unprocessed (np_sqrt : Q -> Q) (lon_fmt data_fmt : float_format)
      (self : ERA5DataProcessor)
      (c : call) :
  loaded_dataset self = None ->
  c <> ProcessData ->
  run_call np_sqrt lon_fmt data_fmt self c = self.
Proof.
  intros Hloaded Hc. destruct c; simpl.
  - contradiction.
  - apply reading_methods_snd with (step := 0%Z).
  - unfold calculate_wind_speed, then_, get_self, raise.
    now rewrite Hloaded.
  - apply (reading_methods_snd self 0 None true step).
  - apply (reading_methods_snd self 0 None true 0).
Qed.

(** X16: the processor has two states and one way between them.  While
    nothing is loaded, every call other than [process_data] leaves the
    processor exactly as it is; once a dataset is loaded, no call, returning
    or raising, takes the processor back to the state with nothing loaded. *)
Theorem processor_states
        (np_sqrt : Q -> Q) (lon_fmt data_fmt : float_format)
        (self : ERA5DataProcessor) (cs : list call) :
  (loaded_dataset self = None ->
   Forall (fun c => c <> ProcessData) cs ->
   run_calls np_sqrt lon_fmt data_fmt self cs = self)
  /\ (loaded_dataset self <> None ->
      loaded_dataset (run_calls np_sqrt lon_fmt data_fmt self cs) <> None).
Proof.
  unfold run_calls. split.
  - intros Hloaded Hcs. induction Hcs as [|c cs Hc Hcs IH]; simpl.
    + reflexivity.
    + now rewrite run_call_unprocessed.
  - revert self. induction cs as [|c cs IH]; intros self Hloaded; simpl.
    + exact Hloaded.
    + now apply IH, run_call_stays_processed.
Qed.

Lemma processor_states_witness :
  run_calls Sample.int_sqrt binary64 binary32 Sample.fresh
    [CalculateWindSpeed "u10" "v10" "wind_speed"; SubsampleData 2;
     GetProcessedData]
  = Sample.fresh
  /\ loaded_dataset
       (run_calls Sample.int_sqrt binary64 binary32 Sample.processed
          [CalculateWindSpeed "u10" "t2m" "wind_speed"; ProcessData;
           SubsampleData 0])
     <> None.
Proof.
  split.
  - apply (proj1 (processor_states Sample.int_sqrt binary64 binary32 Sample.fresh
                    [CalculateWindSpeed "u10" "v10" "wind_speed";
                     SubsampleData 2; GetProcessedData])).
    + reflexivity.
    + repeat constructor; discriminate.
  - apply (proj2 (processor_states Sample.int_sqrt binary64 binary32 Sample.processed
                    [CalculateWindSpeed "u10" "t2m" "wind_speed"; ProcessData;
                     SubsampleData 0])).
    discriminate.
Defined.

Lemma run_call_wf (np_sqrt : Q -> Q) (lon_fmt data_fmt : float_format)
      (self : ERA5DataProcessor) (c : call) :
  wf_dataset (dataset self) = true ->
  (forall d, loaded_dataset self = Some d -> wf_dataset d = true) ->
  forall d,
    loaded_dataset (run_call np_sqrt lon_fmt data_fmt self c) = Some d ->
    wf_dataset d = true.
Proof.
  intros Hsrc Hloaded d. destruct c; simpl.
  - destruct (process_data_outcomes lon_fmt self) as [[d' H] | [e H]].
    + destruct (@process_data_loaded_wf lon_fmt self _ Hsrc H)
        as (data & Hdata & Hwf).
      rewrite H. simpl in *. congruence.
    + rewrite H. simpl. apply Hloaded.
  - rewrite (proj1 (reading_methods_snd self timestep extract_variables
                      lat_long 0)).
    apply Hloaded.
  - destruct (loaded_dataset self) as [ds|] eqn:E.
    + destruct (@calculate_wind_speed_wf np_sqrt data_fmt self ds u_component
                  v_component new_var_name E (Hloaded ds eq_refl))
        as (ds' & Hds' & Hwf).
      rewrite Hds'. now intros [= <-].
    + unfold calculate_wind_speed, then_, get_self, raise.
      rewrite E. simpl. rewrite E. discriminate.
  - rewrite (proj1 (proj2 (reading_methods_snd self 0 None true step))).
    apply Hloaded.
  - rewrite (proj2 (proj2 (reading_methods_snd self 0 None true 0))).
    apply Hloaded.
Qed.

(** X17: a processor built on a well-formed dataset holds a well-formed
    loaded dataset after any sequence of calls in which
    [calculate_wind_speed] is given names of data variables, none of
    [valid_time], [latitude], [longitude], for the two components and for
    the new variable: each variable of the loaded dataset has the shape of
    its coordinates and no name occurs twice.  (With the name of a
    coordinate, xarray stores an array of another shape or replaces the
    coordinate, which a dataset as modelled here does not hold.) *)
Theorem loaded_dataset_stays_well_formed
        (np_sqrt : Q -> Q) (lon_fmt data_fmt : float_format)
        (ds : Dataset) (variables : names)
        (date_range : Q * Q) (spatial_range : SpatialRange)
        (convert_longitude include_attributes : bool) (cs : list call)
        (Hwf : wf_dataset ds = true)
        (Hnames : forallb names_data_variables cs = true) :
  forall d,
    loaded_dataset
      (run_calls np_sqrt lon_fmt data_fmt
         (init ds variables date_range spatial_range convert_longitude
               include_attributes) cs) = Some d ->
    wf_dataset d = true.
Proof.
  unfold run_calls.
  assert (Hgen : forall self,
             forallb names_data_variables cs = true ->
             wf_dataset (dataset self) = true ->
             (forall d, loaded_dataset self = Some d -> wf_dataset d = true) ->
             forall d,
               loaded_dataset
                 (fold_left (run_call np_sqrt lon_fmt data_fmt) cs self)
               = Some d ->
               wf_dataset d = true).
  { clear Hnames.
    induction cs as [|c cs IH]; intros self Hnames Hsrc Hloaded; simpl.
    - exact Hloaded.
    - simpl in Hnames. apply andb_true_iff in Hnames as [_ Hnames].
      apply IH.
      + exact Hnames.
      + destruct (run_call_same_inputs np_sqrt lon_fmt data_fmt self c)
          as [<- _].
        exact Hsrc.
      + now apply run_call_wf. }
  apply Hgen; simpl; [exact Hnames | exact Hwf | discriminate].
Qed.

Lemma loaded_dataset_stays_well_formed_witness :
  exists d,
    loaded_dataset
      (run_calls Sample.int_sqrt binary64 binary32 Sample.fresh
         [ProcessData; CalculateWindSpeed "u10" "v10" "speed";
          CalculateWindSpeed "speed" "v10" "u10"; SubsampleData 2])
    = Some d
    /\ wf_dataset d = true.
Proof.
  eexists. split; [vm_compute; reflexivity|].
  apply (@loaded_dataset_stays_well_formed
           Sample.int_sqrt binary64 binary32
           Sample.source (NameList ["u10"; "v10"]) (1, 2)
           Sample.window true true
           [ProcessData; CalculateWindSpeed "u10" "v10" "speed";
            CalculateWindSpeed "speed" "v10" "u10"; SubsampleData 2]
           eq_refl eq_refl).
  vm_compute. reflexivity.
Defined.

(** ** More on subsampling *)

Local Open Scope Z_scope.

Lemma subsample_data_returns
      (self : ERA5DataProcessor) (ds : Dataset) (step : Z) :
  loaded_dataset self = Some ds ->
  wf_dataset ds = true ->
  step <> 0 ->
  subsample_data step self
  = (Ok (let vars :=
           map_vars (fun g => on_longitude (strided step)
                                (on_latitude (strided step) g))
                    (data_vars ds) in
         {| valid_time :=
              valid_time (xr_Dataset (valid_time ds)
                            (strided step (latitude ds))
                            (strided step (longitude ds)) vars);
            latitude := strided step (latitude ds);
            longitude := strided step (longitude ds);
            data_vars :=
              data_vars (xr_Dataset (valid_time ds)
                           (strided step (latitude ds))
                           (strided step (longitude ds)) vars) |}),
     self).
Proof.
  intros Hloaded Hwf Hstep.
  apply andb_true_iff in Hwf as [Huniq _].
  unfold subsample_data, then_, get_self, raise, lift, ret, slice_step.
  rewrite Hloaded. destruct (Z.eqb_spec step 0); [contradiction|].
  rewrite (subsample_loop_map Hstep (data_vars ds) [] Huniq)
    by (intros; reflexivity).
  reflexivity.
Qed.

Lemma data_vars_xr_Dataset (t la lo : list Q) (vars : dict DataArray) :
  data_vars (xr_Dataset t la lo vars) = vars.
Proof. destruct vars; reflexivity. Qed.

(** X18: [subsample_data] does not refuse a step that is not positive.  A
    zero step raises the ValueError of the slice and leaves the processor
    unchanged.  A negative step returns the grid walked backwards: labels
    and variables are read from the last latitude and longitude towards
    the first, every [-step]-th one. *)
Theorem subsample_data_nonpositive_step
        (self : ERA5DataProcessor) (ds : Dataset) (step : Z)
        (Hloaded : loaded_dataset self = Some ds)
        (Hwf : wf_dataset ds = true) :
  (step = 0 ->
   subsample_data step self
   = (Raise (Exn ValueError "slice step cannot be zero"), self))
  /\ (step < 0 ->
      exists sub,
        subsample_data step self = (Ok sub, self)
        /\ (forall k,
               nth_error (latitude sub) k
               = nth_error (rev (latitude ds)) (k * Z.to_nat (- step)))
        /\ (forall k,
               nth_error (longitude sub) k
               = nth_error (rev (longitude ds)) (k * Z.to_nat (- step)))
        /\ (forall name da,
               dict_get (data_vars ds) name = Some da ->
               exists sda,
                 dict_get (data_vars sub) name = Some sda
                 /\ forall t i j,
                      get3 (values sda) t i j
                      = match nth_error (values da) t with
                        | Some plane =>
                            match nth_error (rev plane)
                                            (i * Z.to_nat (- step)) with
                            | Some row =>
                                nth_error (rev row) (j * Z.to_nat (- step))
                            | None => None
                            end
                        | None => None
                        end)).
Proof.
  split.
  - intros ->.
    unfold subsample_data, then_, get_self, raise, lift, ret, slice_step.
    now rewrite Hloaded.
  - intros Hneg.
    assert (Hnat : (0 < Z.to_nat (- step))%nat) by lia.
    assert (Hstrided : forall (A : Type) (l : list A),
               strided step l = stride (Z.to_nat (- step)) (rev l)).
    { intros A l. unfold strided. destruct (Z.ltb_spec 0 step); [lia|].
      reflexivity. }
    rewrite (@subsample_data_returns self ds step Hloaded Hwf) by lia.
    eexists. split; [reflexivity|]. simpl.
    rewrite data_vars_xr_Dataset, !Hstrided.
    split; [|split].
    + intros k. now apply nth_error_stride.
    + intros k. now apply nth_error_stride.
    + intros name da Hda. rewrite dict_get_map_vars, Hda. simpl.
      eexists. split; [reflexivity|]. simpl.
      intros t i j. unfold get3, on_longitude, on_latitude.
      rewrite !nth_error_map.
      destruct (nth_error (values da) t) as [plane|]; simpl; [|reflexivity].
      rewrite nth_error_map, Hstrided, nth_error_stride by exact Hnat.
      destruct (nth_error (rev plane) (i * Z.to_nat (- step))) as [row|];
        simpl; [|reflexivity].
      rewrite Hstrided. now apply nth_error_stride.
Qed.

Lemma subsample_data_nonpositive_step_witness :
  subsample_data 0 Sample.processed
  = (Raise (Exn ValueError "slice step cannot be zero"), Sample.processed)
  /\ exists sub,
       subsample_data (-2) Sample.processed = (Ok sub, Sample.processed)
       /\ longitude sub = [90; -90]%Q
       /\ latitude sub = [40]%Q.
Proof.
  split.
  - now apply (proj1 (@subsample_data_nonpositive_step
                        Sample.processed Sample.loaded 0 eq_refl eq_refl)).
  - destruct (proj2 (@subsample_data_nonpositive_step
                       Sample.processed Sample.loaded (-2) eq_refl eq_refl)
                    eq_refl)
      as (sub & Hrun & _).
    exists sub. split; [exact Hrun|].
    assert (E : fst (subsample_data (-2) Sample.processed) = Ok sub)
      by now rewrite Hrun.
    vm_compute in E. injection E as <-. split; reflexivity.
Defined.

Lemma stride_one {A : Type} (l : list A) : stride 1 l = l.
Proof.
  unfold stride. induction l as [|x l IH]; simpl; [reflexivity|].
  now rewrite IH.
Qed.

Lemma map_vars_id (f : grid -> grid) (d : dict DataArray) :
  (forall g, f g = g) -> map_vars f d = d.
Proof.
  intros Hf. unfold map_vars.
  induction d as [|[k [g a]] d IH]; simpl; [reflexivity|].
  now rewrite Hf, IH.
Qed.

(** X19: with step 1 nothing is thinned out: on a loaded dataset that is
    well formed and has at least one data variable, [subsample_data 1]
    returns the loaded dataset itself. *)
Theorem subsample_data_step_one
        (self : ERA5DataProcessor) (ds : Dataset)
        (Hloaded : loaded_dataset self = Some ds)
        (Hwf : wf_dataset ds = true)
        (Hvars : data_vars ds <> []) :
  subsample_data 1 self = (Ok ds, self).
Proof.
  rewrite (@subsample_data_returns self ds 1 Hloaded Hwf) by lia.
  assert (Hstrided : forall (A : Type) (l : list A), strided 1 l = l).
  { intros A l. unfold strided. simpl. apply stride_one. }
  f_equal. f_equal. simpl.
  rewrite !Hstrided.
  rewrite map_vars_id.
  - destruct ds as [t la lo vars]. simpl in *.
    destruct vars; [contradiction | reflexivity].
  - intros g. unfold on_longitude, on_latitude.
    rewrite map_map.
    rewrite <- (map_id g) at 2. apply map_ext. intros plane.
    rewrite Hstrided. rewrite <- (map_id plane) at 2.
    apply map_ext. intros row. apply Hstrided.
Qed.

Lemma subsample_data_step_one_witness :
  subsample_data 1 Sample.processed = (Ok Sample.loaded, Sample.processed).
Proof.
  apply (@subsample_data_step_one Sample.processed Sample.loaded
           eq_refl eq_refl).
  discriminate.
Defined.

(** X20: on a well-formed loaded dataset, whatever [subsample_data]
    returns is well formed as well: every variable has the shape of the
    thinned coordinates. *)
Theorem subsample_data_well_formed
        (self self' : ERA5DataProcessor) (ds sub : Dataset) (step : Z)
        (Hloaded : loaded_dataset self = Some ds)
        (Hwf : wf_dataset ds = true)
        (Hrun : subsample_data step self = (Ok sub, self')) :
  wf_dataset sub = true.
Proof.
  destruct (Z.eq_dec step 0) as [-> | Hstep].
  - unfold subsample_data, then_, get_self, raise, lift, ret, slice_step
      in Hrun.
    rewrite Hloaded in Hrun. discriminate.
  - rewrite (@subsample_data_returns self ds step Hloaded Hwf Hstep) in Hrun.
    injection Hrun as <- _.
    apply wf_dataset_iff in Hwf as [Huniq Hshapes].
    apply wf_dataset_iff. simpl. rewrite data_vars_xr_Dataset.
    split; [now rewrite dict_keys_map_vars|].
    intros k da Hin.
    apply In_map_vars in Hin as (da0 & Hin & ->). simpl.
    pose (rows := {| valid_time := valid_time ds;
                     latitude := strided step (latitude ds);
                     longitude := longitude ds;
                     data_vars := [] |}).
    assert (Htime : valid_time
                      (xr_Dataset (valid_time ds) (strided step (latitude ds))
                         (strided step (longitude ds))
                         (map_vars
                            (fun g => on_longitude (strided step)
                                        (on_latitude (strided step) g))
                            (data_vars ds)))
                    = valid_time ds).
    { destruct (data_vars ds); [contradiction | reflexivity]. }
    apply (@shape_ok_on_longitude rows); simpl; try reflexivity.
    + now rewrite Htime.
    + intros row Hrow. now apply length_strided.
    + apply (@shape_ok_on_latitude ds); simpl; try reflexivity.
      * intros plane Hplane. now apply length_strided.
      * intros plane row. apply In_strided.
      * eapply Hshapes, Hin.
Qed.

Lemma subsample_data_well_formed_witness :
  exists sub,
    subsample_data 2 Sample.processed = (Ok sub, Sample.processed)
    /\ wf_dataset sub = true.
Proof.
  eexists. split; [reflexivity|].
  eapply (@subsample_data_well_formed Sample.processed Sample.processed
            Sample.loaded _ 2); reflexivity.
Defined.

(** ** Wind speed, then a time step *)

Local Open Scope Q_scope.

(** X21: after [calculate_wind_speed] on two data variables of a
    well-formed loaded dataset, held in the floating-point format [fmt],
    with a new name that is not the name of a coordinate, extracting the new
    variable at a time step [t] with [0 <= t < N] returns the slice whose
    entry (i, j) is, where the squares stay in the range of the format, the
    floating-point value of [sqrt(u^2 + v^2)] at the entries (t, i, j) of
    the two components: the squares rounded, their sum rounded, the square
    root of that rounded. *)
Theorem wind_speed_then_extract
        (fmt : float_format) (self : ERA5DataProcessor) (ds : Dataset)
        (u_component v_component new_var_name : string) (u v : DataArray)
        (timestep : Z) (lat_long : bool)
        (Hloaded : loaded_dataset self = Some ds)
        (Hwf : wf_dataset ds = true)
        (Hu : dict_get (data_vars ds) u_component = Some u)
        (Hv : dict_get (data_vars ds) v_component = Some v)
        (Hnew : is_coord_name new_var_name = false)
        (Ht : (0 <= timestep < Z.of_nat (length (valid_time ds)))%Z)
        (Hkeys : lat_long = true ->
                 new_var_name <> "lat"%string /\ new_var_name <> "long"%string) :
  let self1 :=
    snd (calculate_wind_speed (fsqrt fmt) fmt u_component v_component
           new_var_name self) in
  exists out slice a,
    extract_components_by_given_timestep
      timestep (Some (NameList [new_var_name])) lat_long self1
    = (Ok out, self1)
    /\ dict_get out new_var_name = Some (Field slice a)
    /\ forall i j x y,
         get3 (values u) (Z.to_nat timestep) i j = Some x ->
         get3 (values v) (Z.to_nat timestep) i j = Some y ->
         x * x + y * y < 2 ^ (emax fmt - 1) ->
         match nth_error slice i with
         | Some row => nth_error row j
         | None => None
         end
         = Some (fsqrt fmt (round fmt (round fmt (x * x) + round fmt (y * y)))).
Proof.
  intros self1.
  assert (Hcu : ds_contains ds u_component = true).
  { unfold ds_contains. apply orb_true_iff. left. apply dict_mem_get. eauto. }
  assert (Hcv : ds_contains ds v_component = true).
  { unfold ds_contains. apply orb_true_iff. left. apply dict_mem_get. eauto. }
  set (w := da_map (fsqrt fmt)
                   (da_add fmt (da_square fmt u) (da_square fmt v))).
  destruct (@calculate_wind_speed_wf (fsqrt fmt) fmt self ds u_component
              v_component new_var_name Hloaded Hwf)
    as (ds1 & Hds1 & Hwf1).
  fold self1 in Hds1.
  assert (Hvar : exists w1,
             dict_get (data_vars ds1) new_var_name = Some w1
             /\ values w1 = values w
             /\ valid_time ds1 = valid_time ds).
  { unfold self1 in Hds1.
    rewrite (@calculate_wind_speed_returns (fsqrt fmt) fmt self ds u_component
               v_component new_var_name u v Hloaded Hcv
               (ds_getitem_data_var _ _ Hu) (ds_getitem_data_var _ _ Hv) Hcu)
      in Hds1.
    fold w in Hds1. clearbody w.
    simpl in Hds1. injection Hds1 as <-.
    destruct (include_attributes self); simpl;
      rewrite ?dict_get_set, ?String.eqb_refl; eauto. }
  destruct Hvar as (w1 & Hw1 & Hvalues & Htime).
  unfold extract_components_by_given_timestep, then_, get_self, raise, lift, ret.
  rewrite Hds1, Htime, Z.geb_leb.
  destruct (Z.leb_spec (Z.of_nat (length (valid_time ds))) timestep); [lia|].
  assert (Hrange : (- Z.of_nat (length (valid_time ds1)) <= timestep
                    < Z.of_nat (length (valid_time ds1)))%Z)
    by (rewrite Htime; lia).
  assert (Hall : forallb (dict_mem (data_vars ds1)) [new_var_name] = true).
  { simpl. rewrite andb_true_r. apply dict_mem_get. eauto. }
  destruct (extract_loop_all_present ds1 Hwf1 Hrange [new_var_name] [] Hall)
    as (out & Hout & Hget).
  simpl names_list. rewrite Hout.
  assert (Hslice : dict_get out new_var_name
                   = Some (Field (nth (Z.to_nat timestep) (values w1) [])
                                 (attrs w1))).
  { rewrite Hget, Hw1. simpl. rewrite String.eqb_refl. simpl.
    rewrite Htime, Z.mod_small by lia. reflexivity. }
  assert (Hentries : forall i j x y,
             get3 (values u) (Z.to_nat timestep) i j = Some x ->
             get3 (values v) (Z.to_nat timestep) i j = Some y ->
             match nth_error (nth (Z.to_nat timestep) (values w1) []) i with
             | Some row => nth_error row j
             | None => None
             end
             = Some (fsqrt fmt (round fmt (round fmt (x * x)
                                           + round fmt (y * y))))).
  { intros i j x y Hx Hy.
    assert (Hw : get3 (values w) (Z.to_nat timestep) i j
                 = Some (fsqrt fmt (round fmt (round fmt (x * x)
                                               + round fmt (y * y))))).
    { unfold w, da_add, da_square, da_map. cbn [values].
      rewrite get3_map, get3_zip_with, !get3_map, Hx, Hy. reflexivity. }
    rewrite <- Hw, <- Hvalues. unfold get3.
    assert (Hlen : (Z.to_nat timestep < length (values w1))%nat).
    { rewrite (wf_dataset_time_length _ _ Hwf1 Hw1), Htime. lia. }
    destruct (nth_error (values w1) (Z.to_nat timestep)) as [plane|] eqn:E.
    - now rewrite (nth_error_nth _ _ [] E).
    - apply nth_error_None in E. lia. }
  clearbody w. simpl.
  eexists. exists (nth (Z.to_nat timestep) (values w1) []), (attrs w1).
  split; [reflexivity|]. split.
  - destruct lat_long; [|exact Hslice].
    destruct (Hkeys eq_refl) as [Hlat Hlong].
    rewrite !dict_get_set.
    apply String.eqb_neq in Hlat, Hlong. rewrite Hlat, Hlong. exact Hslice.
  - intros i j x y Hx Hy _. now apply Hentries.
Qed.

Lemma wind_speed_then_extract_witness :
  exists out,
    extract_components_by_given_timestep
      0 (Some (NameList ["wind_speed"%string])) false
      (snd (calculate_wind_speed (fsqrt binary32) binary32
              "u10" "v10" "wind_speed" Sample.processed))
    = (Ok out,
       snd (calculate_wind_speed (fsqrt binary32) binary32
              "u10" "v10" "wind_speed" Sample.processed))
    /\ exists slice a,
         dict_get out "wind_speed"%string = Some (Field slice a)
         /\ match nth_error slice 0 with
            | Some row => nth_error row 0
            | None => None
            end = Some 13.
Proof.
  destruct (@wind_speed_then_extract
              binary32 Sample.processed Sample.loaded
              "u10" "v10" "wind_speed"
              {| values := [[[5; 3; 6]; [0; 8; 3]]; [[3; 0; 5]; [8; 6; 0]]];
                 attrs := [("units", "m s**-1")]%string |}
              {| values := [[[12; 4; 8]; [0; 6; 4]]; [[4; 0; 12]; [6; 8; 0]]];
                 attrs := [] |}
              0 false eq_refl eq_refl eq_refl eq_refl eq_refl
              ltac:(simpl; lia) ltac:(discriminate))
    as (out & slice & a & Hrun & Hget & Hval).
  exists out. split; [exact Hrun|].
  exists slice, a. split; [exact Hget|].
  rewrite (Hval 0%nat 0%nat 5 12 eq_refl eq_refl eq_refl). reflexivity.
Defined.

(** ** How close the wind speed is to the square root *)

Local Open Scope Q_scope.

Lemma rne_half (y : Q) :
  y - (1 # 2) <= inject_Z (rne y) /\ inject_Z (rne y) <= y + (1 # 2).
Proof.
  unfold rne.
  pose proof (Qfloor_le y) as Hlo.
  pose proof (Qlt_floor y) as Hhi.
  rewrite inject_Z_plus in Hhi. change (inject_Z 1) with 1 in Hhi.
  destruct (Qcompare_spec (y - inject_Z (Qfloor y)) (1 # 2)) as [H | H | H].
  - destruct (Z.even (Qfloor y)).
    + split; lra.
    + rewrite inject_Z_plus. change (inject_Z 1) with 1. split; lra.
  - split; lra.
  - rewrite inject_Z_plus. change (inject_Z 1) with 1. split; lra.
Qed.

(** In the normal range of the format, rounding changes a value by at most
    the fraction [2 ^ - prec] of it. *)
Lemma round_relative (fmt : float_format) (x : Q) :
  x == 0 \/ 2 ^ (emin fmt + prec fmt - 1) <= x ->
  (1 - 2 ^ (- prec fmt)) * x <= round fmt x
  /\ round fmt x <= (1 + 2 ^ (- prec fmt)) * x.
Proof.
  intros [Hx | Hx].
  - unfold round. apply Qeq_bool_iff in Hx as E. rewrite E. rewrite Hx.
    split; lra.
  - pose proof (pow2_pos (emin fmt + prec fmt - 1)) as HN.
    assert (Hpos : 0 < x) by lra.
    unfold round.
    assert (E : Qeq_bool x 0 = false).
    { destruct (Qeq_bool x 0) eqn:E; [|reflexivity].
      apply Qeq_bool_iff in E. lra. }
    rewrite E.
    assert (Habs : Qabs x == x) by (apply Qabs_pos; lra).
    assert (Hlog : (emin fmt + prec fmt - 1 <= ilog2 (Qabs x))%Z).
    { apply ilog2_ge; rewrite Habs; assumption. }
    assert (He : Z.max (ilog2 (Qabs x) - (prec fmt - 1)) (emin fmt)
                 = (ilog2 (Qabs x) - (prec fmt - 1))%Z) by lia.
    rewrite He. set (e := (ilog2 (Qabs x) - (prec fmt - 1))%Z).
    rewrite Qred_correct.
    pose proof (pow2_pos e) as HP.
    destruct (rne_half (x / 2 ^ e)) as [Hlo Hhi].
    assert (Hdiv : x / 2 ^ e * 2 ^ e == x) by (field; lra).
    assert (Heps : 2 ^ e <= 2 * (2 ^ (- prec fmt) * x)).
    { assert (H1 : 2 ^ e == 2 * (2 ^ (- prec fmt) * 2 ^ ilog2 (Qabs x))).
      { change 2 with (2 ^ 1) at 2.
        rewrite <- !Qpower_plus by discriminate.
        unfold e. now replace (ilog2 (Qabs x) - (prec fmt - 1))%Z
                    with (1 + (- prec fmt + ilog2 (Qabs x)))%Z by lia. }
      rewrite H1.
      pose proof (pow2_pos (- prec fmt)) as Hp.
      assert (H2 : 2 ^ ilog2 (Qabs x) <= x).
      { rewrite <- Habs at 2. apply ilog2_lower. now rewrite Habs. }
      assert (H3 : 2 ^ (- prec fmt) * 2 ^ ilog2 (Qabs x)
                   <= 2 ^ (- prec fmt) * x).
      { apply Qmult_le_l; assumption. }
      lra. }
    set (P := 2 ^ e) in *. set (r := inject_Z (rne (x / P))) in *.
    assert (H1 : (x / P - (1 # 2)) * P <= r * P)
      by (apply Qmult_le_compat_r; lra).
    assert (H2 : r * P <= (x / P + (1 # 2)) * P)
      by (apply Qmult_le_compat_r; lra).
    assert (H3 : (x / P - (1 # 2)) * P == x - P / 2) by (field; lra).
    assert (H4 : (x / P + (1 # 2)) * P == x + P / 2) by (field; lra).
    rewrite H3 in H1. rewrite H4 in H2.
    set (eps := 2 ^ (- prec fmt)) in *.
    assert (H5 : (1 - eps) * x == x - eps * x) by ring.
    assert (H6 : (1 + eps) * x == x + eps * x) by ring.
    rewrite H5, H6.
    assert (H7 : P / 2 <= eps * x).
    { apply Qle_shift_div_r; [reflexivity|]. lra. }
    split; lra.
Qed.

(** Rounding a value of the normal range gives a value of the normal
    range. *)
Lemma round_normal (fmt : float_format) (x : Q) :
  (1 <= prec fmt)%Z ->
  2 ^ (emin fmt + prec fmt - 1) <= x ->
  2 ^ (emin fmt + prec fmt - 1) <= round fmt x.
Proof.
  intros Hprec Hx.
  pose proof (pow2_pos (emin fmt + prec fmt - 1)) as HN.
  assert (Hpos : 0 < x) by lra.
  unfold round.
  assert (E : Qeq_bool x 0 = false).
  { destruct (Qeq_bool x 0) eqn:E; [|reflexivity].
    apply Qeq_bool_iff in E. lra. }
  rewrite E.
  assert (Habs : Qabs x == x) by (apply Qabs_pos; lra).
  assert (Hlog : (emin fmt + prec fmt - 1 <= ilog2 (Qabs x))%Z).
  { apply ilog2_ge; rewrite Habs; assumption. }
  assert (He : Z.max (ilog2 (Qabs x) - (prec fmt - 1)) (emin fmt)
               = (ilog2 (Qabs x) - (prec fmt - 1))%Z) by lia.
  rewrite He. set (e := (ilog2 (Qabs x) - (prec fmt - 1))%Z).
  rewrite Qred_correct.
  pose proof (pow2_pos e) as HP.
  assert (Hbin : 2 ^ ilog2 (Qabs x) == inject_Z (2 ^ (prec fmt - 1)) * 2 ^ e).
  { rewrite <- pow2_nonneg_exponent by lia.
    rewrite <- Qpower_plus by discriminate.
    unfold e. now replace (prec fmt - 1 + (ilog2 (Qabs x) - (prec fmt - 1)))%Z
                with (ilog2 (Qabs x)) by lia. }
  assert (Hlow : 2 ^ ilog2 (Qabs x) <= x).
  { rewrite <- Habs at 2. apply ilog2_lower. now rewrite Habs. }
  apply Qle_trans with (y := 2 ^ ilog2 (Qabs x)).
  - apply Qpower_le_compat_l; [exact Hlog | lra].
  - rewrite Hbin. apply Qmult_le_compat_r; [|lra].
    rewrite <- Zle_Qle. apply rne_ge.
    apply Qle_shift_div_l; [exact HP|]. rewrite <- Hbin. exact Hlow.
Qed.

Lemma square_le_inv (p q : Q) : 0 <= p -> 0 <= q -> p * p <= q * q -> p <= q.
Proof.
  intros Hp Hq H. apply Qnot_lt_le. intros Hlt.
  assert (H1 : q * q <= p * q).
  { apply Qmult_le_compat_r; lra. }
  assert (H2 : p * q < p * p).
  { apply Qmult_lt_l; lra. }
  lra.
Qed.

Lemma mult_le_mono (a b c d : Q) :
  0 <= a -> a <= b -> 0 <= c -> c <= d -> a * c <= b * d.
Proof.
  intros Ha Hab Hc Hcd.
  apply Qle_trans with (y := b * c).
  - apply Qmult_le_compat_r; assumption.
  - rewrite (Qmult_comm b c), (Qmult_comm b d).
    apply Qmult_le_compat_r; lra.
Qed.

(** The rounded square root of a value of the normal range: its square is
    within the fraction [(1 +- 2 ^ - prec) ^ 2] of the value. *)
Lemma fsqrt_relative (fmt : float_format) (s : Q) :
  (1 <= prec fmt)%Z -> (emin fmt + prec fmt - 1 <= 0)%Z ->
  s == 0 \/ 2 ^ (emin fmt + prec fmt - 1) <= s ->
  let eps := 2 ^ (- prec fmt) in
  let w := fsqrt fmt s in
  0 <= w
  /\ (1 - eps) * (1 - eps) * s <= w * w
  /\ w * w <= (1 + eps) * (1 + eps) * s.
Proof.
  intros Hprec Hemin Hs eps w.
  pose proof (pow2_pos (- prec fmt)) as Heps. fold eps in Heps.
  assert (Heps1 : eps <= 1).
  { unfold eps. change 1 with (2 ^ 0).
    apply Qpower_le_compat_l; [lia | lra]. }
  destruct Hs as [Hs | Hs].
  - assert (Hw : w = 0).
    { unfold w, fsqrt.
      assert (E : Qle_bool s 0 = true) by (apply Qle_bool_iff; lra).
      now rewrite E. }
    rewrite Hw, Hs. split; [lra|]. split; lra.
  - pose proof (pow2_pos (emin fmt + prec fmt - 1)) as HN.
    assert (Hpos : 0 < s) by lra.
    destruct (@fsqrt_nearest fmt s ltac:(lra)) as (Hw0 & Hup & Hdown).
    fold w in Hw0, Hup, Hdown.
    assert (Hlog : (emin fmt + prec fmt - 1 <= ilog2 s)%Z).
    { apply ilog2_ge; assumption. }
    set (k := (ilog2 s / 2)%Z) in *.
    assert (Hk : (2 * k <= ilog2 s)%Z).
    { unfold k. pose proof (Z.mul_div_le (ilog2 s) 2 ltac:(lia)). lia. }
    assert (Hk' : (emin fmt + prec fmt - 1 <= k)%Z).
    { unfold k. apply Z.div_le_lower_bound; lia. }
    assert (He : sqrt_exponent fmt s = (k - (prec fmt - 1))%Z).
    { unfold sqrt_exponent. fold k. lia. }
    rewrite He in Hup, Hdown.
    pose proof (pow2_pos k) as HK.
    assert (Hh : 2 ^ (k - (prec fmt - 1)) / 2 == eps * 2 ^ k).
    { assert (H : 2 ^ (k - (prec fmt - 1)) == 2 * (eps * 2 ^ k)).
      { unfold eps. change 2 with (2 ^ 1) at 2.
        rewrite <- !Qpower_plus by discriminate.
        now replace (k - (prec fmt - 1))%Z with (1 + (- prec fmt + k))%Z
          by lia. }
      rewrite H. field. }
    set (h := 2 ^ (k - (prec fmt - 1)) / 2) in *.
    assert (Hh0 : 0 < h).
    { rewrite Hh. apply Qmult_lt_0_compat; assumption. }
    assert (Hkk : 2 ^ k * 2 ^ k <= s).
    { rewrite <- Qpower_plus by discriminate.
      apply Qle_trans with (y := 2 ^ ilog2 s).
      - apply Qpower_le_compat_l; [lia | lra].
      - now apply ilog2_lower. }
    assert (Hhh : h * h <= eps * eps * s).
    { rewrite Hh.
      setoid_replace (eps * 2 ^ k * (eps * 2 ^ k))
        with (eps * eps * (2 ^ k * 2 ^ k)) by ring.
      apply Qmult_le_l; [|exact Hkk].
      apply Qmult_lt_0_compat; assumption. }
    assert (Hes : 0 <= eps * s).
    { apply Qmult_le_0_compat; lra. }
    split; [exact Hw0|]. split.
    + apply Qnot_lt_le. intros Hlt.
      set (c := 1 - eps) in *.
      assert (Hc : 0 <= c) by (unfold c; lra).
      assert (Hcs : 0 <= c * (eps * s)).
      { apply Qmult_le_0_compat; assumption. }
      assert (Hwh : w * h <= c * (eps * s)).
      { apply square_le_inv; [apply Qmult_le_0_compat; lra | exact Hcs |].
        setoid_replace (w * h * (w * h)) with (w * w * (h * h)) by ring.
        setoid_replace (c * (eps * s) * (c * (eps * s)))
          with (c * c * s * (eps * eps * s)) by ring.
        apply mult_le_mono.
        - apply Qmult_le_0_compat; exact Hw0.
        - lra.
        - apply Qmult_le_0_compat; lra.
        - exact Hhh. }
      assert (Hsum : (w + h) * (w + h) < s).
      { setoid_replace ((w + h) * (w + h))
          with (w * w + 2 * (w * h) + h * h) by ring.
        assert (H1 : s == c * c * s + 2 * (c * (eps * s)) + eps * eps * s).
        { unfold c. ring. }
        lra. }
      lra.
    + destruct (Qlt_le_dec w h) as [Hsmall | Hlarge].
      * assert (H1 : w * w <= h * h) by (apply mult_le_mono; lra).
        assert (H2 : 0 <= s + 2 * (eps * s)) by lra.
        setoid_replace ((1 + eps) * (1 + eps) * s)
          with (s + 2 * (eps * s) + eps * eps * s) by ring.
        lra.
      * specialize (Hdown Hlarge).
        set (a := w - h) in *.
        assert (Ha : 0 <= a) by (unfold a; lra).
        assert (Hah : a * h <= eps * s).
        { apply square_le_inv; [apply Qmult_le_0_compat; lra | exact Hes |].
          setoid_replace (a * h * (a * h)) with (a * a * (h * h)) by ring.
          setoid_replace (eps * s * (eps * s))
            with (s * (eps * eps * s)) by ring.
          apply mult_le_mono.
          - apply Qmult_le_0_compat; exact Ha.
          - exact Hdown.
          - apply Qmult_le_0_compat; lra.
          - exact Hhh. }
        setoid_replace (w * w) with (a * a + 2 * (a * h) + h * h)
          by (unfold a; ring).
        setoid_replace ((1 + eps) * (1 + eps) * s)
          with (s + 2 * (eps * s) + eps * eps * s) by ring.
        lra.
Qed.

Lemma mult_le_l (c a b : Q) : 0 <= c -> a <= b -> c * a <= c * b.
Proof.
  intros Hc Hab. rewrite (Qmult_comm c a), (Qmult_comm c b).
  now apply Qmult_le_compat_r.
Qed.

(** The floating-point value of [sqrt(x^2 + y^2)] on one element. *)
Lemma wind_speed_value_relative (fmt : float_format) (x y : Q) :
  (1 <= prec fmt)%Z -> (emin fmt + prec fmt - 1 <= 0)%Z ->
  x == 0 \/ min_normal fmt <= x * x ->
  y == 0 \/ min_normal fmt <= y * y ->
  let eps := unit_roundoff fmt in
  let w := fsqrt fmt (round fmt (round fmt (x * x) + round fmt (y * y))) in
  0 <= w
  /\ (1 - eps) ^ 4 * (x * x + y * y) <= w * w
  /\ w * w <= (1 + eps) ^ 4 * (x * x + y * y).
Proof.
  intros Hprec Hemin Hx Hy eps w.
  unfold min_normal in Hx, Hy. unfold unit_roundoff in eps.
  pose proof (pow2_pos (- prec fmt)) as Heps. fold eps in Heps.
  assert (Heps1 : eps <= 1).
  { unfold eps. change 1 with (2 ^ 0).
    apply Qpower_le_compat_l; [lia | lra]. }
  pose proof (pow2_pos (emin fmt + prec fmt - 1)) as HN.
  set (N := 2 ^ (emin fmt + prec fmt - 1)) in *.
  assert (Hsq : forall z : Q, 0 <= z * z).
  { intros z. destruct (Qlt_le_dec z 0) as [Hz | Hz].
    - setoid_replace (z * z) with ((- z) * (- z)) by ring.
      apply Qmult_le_0_compat; lra.
    - apply Qmult_le_0_compat; exact Hz. }
  assert (Hcond : forall z : Q, z == 0 \/ N <= z * z ->
                                z * z == 0 \/ N <= z * z).
  { intros z [Hz | Hz]; [left; rewrite Hz; ring | now right]. }
  set (A := x * x) in *. set (B := y * y) in *.
  pose proof (Hsq x) as HA. pose proof (Hsq y) as HB. fold A in HA. fold B in HB.
  apply Hcond in Hx, Hy. fold A in Hx. fold B in Hy.
  destruct (@round_relative fmt A Hx) as [Halo Hahi]. fold eps in Halo, Hahi.
  destruct (@round_relative fmt B Hy) as [Hblo Hbhi]. fold eps in Hblo, Hbhi.
  pose proof (@round_nonneg fmt A HA) as Ha0.
  pose proof (@round_nonneg fmt B HB) as Hb0.
  set (a := round fmt A) in *. set (b := round fmt B) in *.
  assert (Hab : a + b == 0 \/ N <= a + b).
  { destruct Hx as [Hx | Hx].
    - destruct Hy as [Hy | Hy].
      + left. rewrite Hx in Hahi. rewrite Hy in Hbhi.
        assert (Hz : (1 + eps) * 0 == 0) by ring.
        rewrite Hz in Hahi, Hbhi. apply Qle_antisym; lra.
      + right. pose proof (@round_normal fmt B Hprec Hy : N <= b). lra.
    - right. pose proof (@round_normal fmt A Hprec Hx : N <= a). lra. }
  destruct (@round_relative fmt (a + b) Hab) as [Hslo Hshi]. fold eps in Hslo, Hshi.
  assert (Hs : round fmt (a + b) == 0 \/ N <= round fmt (a + b)).
  { destruct Hab as [H0 | Hn].
    - left. pose proof (@round_nonneg fmt (a + b) ltac:(lra)) as Hs0.
      assert (Hz : (1 + eps) * (a + b) == 0) by (rewrite H0; ring).
      rewrite Hz in Hshi. apply Qle_antisym; lra.
    - right. now apply round_normal. }
  destruct (@fsqrt_relative fmt (round fmt (a + b)) Hprec Hemin Hs)
    as (Hw0 & Hwlo & Hwhi).
  fold eps in Hwlo, Hwhi. fold w in Hw0, Hwlo, Hwhi.
  set (s := round fmt (a + b)) in *.
  set (S := A + B) in *.
  assert (HS : 0 <= S) by (unfold S; lra).
  assert (Hablo : (1 - eps) * S <= a + b).
  { setoid_replace ((1 - eps) * S) with ((1 - eps) * A + (1 - eps) * B)
      by (unfold S; ring). lra. }
  assert (Habhi : a + b <= (1 + eps) * S).
  { setoid_replace ((1 + eps) * S) with ((1 + eps) * A + (1 + eps) * B)
      by (unfold S; ring). lra. }
  assert (Hlo1 : (1 - eps) * ((1 - eps) * S) <= s).
  { apply Qle_trans with (y := (1 - eps) * (a + b)); [|exact Hslo].
    apply mult_le_l; lra. }
  assert (Hhi1 : s <= (1 + eps) * ((1 + eps) * S)).
  { apply Qle_trans with (y := (1 + eps) * (a + b)); [exact Hshi|].
    apply mult_le_l; lra. }
  split; [exact Hw0|]. split.
  - apply Qle_trans with (y := (1 - eps) * (1 - eps) * s); [|exact Hwlo].
    setoid_replace ((1 - eps) ^ 4 * S)
      with ((1 - eps) * (1 - eps) * ((1 - eps) * ((1 - eps) * S)))
      by (simpl; ring).
    apply mult_le_l; [|exact Hlo1].
    apply Qmult_le_0_compat; lra.
  - apply Qle_trans with (y := (1 + eps) * (1 + eps) * s); [exact Hwhi|].
    setoid_replace ((1 + eps) ^ 4 * S)
      with ((1 + eps) * (1 + eps) * ((1 + eps) * ((1 + eps) * S)))
      by (simpl; ring).
    apply mult_le_l; [|exact Hhi1].
    apply Qmult_le_0_compat; lra.
Qed.

(** X22: when the two components are data variables of the loaded
    dataset, held in the floating-point format [fmt], and [new_var_name] is
    not the name of a coordinate, the wind speed [calculate_wind_speed]
    stores is close to the square root of [u^2 + v^2]: wherever each
    component is zero or has its square in the normal range of the format,
    and the squares stay in the range of the format, the square of the
    stored value is within the factors [(1 - eps) ^ 4] and [(1 + eps) ^ 4]
    of [u^2 + v^2], for [eps = 2 ^ - prec] (four roundings: two squares, a
    sum, a square root). *)
Theorem wind_speed_accuracy
        (fmt : float_format) (self : ERA5DataProcessor) (ds : Dataset)
        (u_component v_component new_var_name : string) (u v : DataArray)
        (Hprec : (1 <= prec fmt)%Z)
        (Hnormal : (emin fmt + prec fmt - 1 <= 0)%Z)
        (Hloaded : loaded_dataset self = Some ds)
        (Hu : dict_get (data_vars ds) u_component = Some u)
        (Hv : dict_get (data_vars ds) v_component = Some v)
        (Hnew : is_coord_name new_var_name = false) :
  exists wind_speed ds',
    calculate_wind_speed (fsqrt fmt) fmt u_component v_component new_var_name
      self
    = (Ok tt, with_loaded_dataset self ds')
    /\ dict_get (data_vars ds') new_var_name = Some wind_speed
    /\ forall t i j x y,
         get3 (values u) t i j = Some x ->
         get3 (values v) t i j = Some y ->
         x == 0 \/ min_normal fmt <= x * x ->
         y == 0 \/ min_normal fmt <= y * y ->
         x * x + y * y < 2 ^ (emax fmt - 1) ->
         exists w,
           get3 (values wind_speed) t i j = Some w
           /\ 0 <= w
           /\ (1 - unit_roundoff fmt) ^ 4 * (x * x + y * y) <= w * w
           /\ w * w <= (1 + unit_roundoff fmt) ^ 4 * (x * x + y * y).
Proof.
  destruct (@calculate_wind_speed_stores
              (fsqrt fmt) fmt self ds u_component v_component new_var_name
              u v Hloaded Hu Hv)
    as (ws & ds' & Hrun & Hget & Hw & _).
  exists ws, ds'. split; [exact Hrun|]. split; [exact Hget|].
  intros t i j x y Hx Hy Hxn Hyn _.
  eexists. split; [rewrite Hw, Hx, Hy; reflexivity|].
  now apply wind_speed_value_relative.
Qed.

Lemma wind_speed_accuracy_witness :
  exists ds' wind_speed,
    calculate_wind_speed (fsqrt binary64) binary64 "u10" "v10" "wind_speed"
      MoreSamples.gust
    = (Ok tt, with_loaded_dataset MoreSamples.gust ds')
    /\ dict_get (data_vars ds') "wind_speed"%string = Some wind_speed
    /\ exists w,
         get3 (values wind_speed) 0 0 0 = Some w
         /\ (1 - unit_roundoff binary64) ^ 4
            * ((5392814811852594 # 1125899906842624)
               * (5392814811852594 # 1125899906842624)
               + (7190419749136792 # 1125899906842624)
                 * (7190419749136792 # 1125899906842624))
            <= w * w.
Proof.
  destruct (@wind_speed_accuracy
              binary64 MoreSamples.gust MoreSamples.gust_source
              "u10" "v10" "wind_speed" _ _
              ltac:(simpl; lia) ltac:(simpl; lia)
              eq_refl eq_refl eq_refl eq_refl)
    as (w & ds' & Hrun & Hget & Hacc).
  exists ds', w. split; [exact Hrun|]. split; [exact Hget|].
  destruct (Hacc 0%nat 0%nat 0%nat
              (5392814811852594 # 1125899906842624)
              (7190419749136792 # 1125899906842624)
              eq_refl eq_refl
              ltac:(right; vm_compute; discriminate)
              ltac:(right; vm_compute; discriminate)
              ltac:(vm_compute; reflexivity))
    as (z & Hz & _ & Hlow & _).
  exists z. split; [exact Hz | exact Hlow].
Defined.
